(** * EscuchaDeMedios: trend scoring, collective sentiment and vector storage

    A shallow embedding of the analysis core of
    [osint-crawler-sentiment.py] (class [MediaCrawlerAndSentimentAnalyzer])
    and of the storage layer of [osint-asr-pipeline.py]
    (class [MediaMonitoringASRPipeline]).

    Conventions.
    - Python [int] is [Z]; Python [float] is idealised as an exact
      rational [Q], compared with [==] (no rounding is modelled).
    - A [dict] whose iteration order is observable ([Counter],
      [defaultdict], [Articulo.emociones]) is an association list in
      insertion order; the Redis store and the Pinecone index, which are only
      addressed by key, are [gmap]s.
    - A [str] is held as its UTF-8 bytes; a slice [s[:n]] counts
      characters, not bytes.
    - Redis calls thread the store explicitly through a small state monad.
    - An exception is a value of [PyError] on the left of a sum. *)

From Stdlib Require Import QArith Qminmax Qabs Qround Lqa Lia Sorted.
From stdpp Require Import gmap strings list.

(** ** Python built-ins used by the analysis *)

Module Py.

Inductive PyError : Set :=
  | IndexError          (* [seq[i]] out of range *)
  | DimensionError      (* vector of the wrong width sent to a store *)
  | ProgrammingError.   (* psycopg2: a query parameter it cannot adapt *)

(** [sum(xs)] over floats. *)
Definition Qsum (xs : list Q) : Q := foldr Qplus 0%Q xs.

(** [len(xs)] as a float operand. *)
Definition Qlen {A} (xs : list A) : Q := inject_Z (Z.of_nat (length xs)).

(** [np.mean(xs)]; every call site in the source guards [xs] non-empty. *)
Definition np_mean (xs : list Q) : Q := (Qsum xs / Qlen xs)%Q.

(** [x < y] on floats, as a boolean. *)
Definition Qltb (x y : Q) : bool := negb (Qle_bool y x).

(** [sum(1 for x in xs if p x)]. *)
Definition count_if {A} (p : A → bool) (xs : list A) : Z :=
  Z.of_nat (length (filter (λ x, p x = true) xs)).

(** [needle in hay] on [str]: substring test. *)
Fixpoint str_in (needle hay : string) : bool :=
  String.prefix needle hay ||
  match hay with
  | EmptyString => false
  | String _ hay' => str_in needle hay'
  end.

(** [sorted(xs, key=k, reverse=True)] and [xs.sort(key=k, reverse=True)].
    Python's sort is stable, also under [reverse=True], and the result of a
    stable sort is unique, so insertion from the right is an exact model.
    [lt x y] stands for [k x < k y]. *)
Section Sort.
Context {A : Type} (lt : A → A → bool).

Fixpoint insert_desc (x : A) (l : list A) : list A :=
  match l with
  | [] => [x]
  | y :: l' => if lt x y then y :: insert_desc x l' else x :: l
  end.

Definition sorted_reverse (l : list A) : list A := foldr insert_desc [] l.

(** The order of a sorted list: earlier means a key at least as large, and
    among equal keys a relation [R] on the input positions. *)
Definition desc_then (R : A → A → Prop) (x y : A) : Prop :=
  lt x y = false ∧ (lt y x = true ∨ R x y).

End Sort.

(** [collections.Counter(xs)]: a dict from element to multiplicity, in
    order of first insertion. *)
Section Counter.
Context {A : Type} `{EqDecision A}.

Fixpoint counter_incr (x : A) (c : list (A * Z)) : list (A * Z) :=
  match c with
  | [] => [(x, 1%Z)]
  | (y, n) :: c' =>
      if decide (x = y) then (y, (n + 1)%Z) :: c'
      else (y, n) :: counter_incr x c'
  end.

Definition Counter (xs : list A) : list (A * Z) :=
  foldl (λ c x, counter_incr x c) [] xs.

(** [Counter.most_common(n)] is [heapq.nlargest(n, items, key=count)],
    documented as [sorted(items, key=count, reverse=True)[:n]]; for
    [n = 1] CPython calls [max], which returns the first maximal item:
    the head of the same stable sort. *)
Definition most_common (n : nat) (c : list (A * Z)) : list (A * Z) :=
  take n (sorted_reverse (λ x y, (x.2 <? y.2)%Z) c).

End Counter.

(** [d[k].append(v)] on a [defaultdict(list)]. *)
Section DefaultDict.
Context {K V : Type} `{EqDecision K}.

Fixpoint dd_append (k : K) (v : V) (d : list (K * list V)) : list (K * list V) :=
  match d with
  | [] => [(k, [v])]
  | (k', vs) :: d' =>
      if decide (k = k') then (k', vs ++ [v]) :: d'
      else (k', vs) :: dd_append k v d'
  end.

End DefaultDict.

End Py.
Import Py.

(** ** Library calls the analysis relies on

    Unicode case folding, the regular-expression engine, the optional spaCy
    model, the iteration order of a [set] and number formatting are not part
    of the repository; the analysis is parametric in them. *)
Class Runtime := {
  (** [str.lower()] *)
  lower : string → string;
  (** [re.findall(r'#\w+', text)] *)
  findall_hashtag : string → list string;
  (** what the [if self.nlp:] block of [_extract_hashtags] appends to the
      list; [[]] when no spaCy model is loaded *)
  nlp_hashtags : string → list string;
  (** [list(set(xs))]: the elements of [xs] once each, in hash order *)
  list_set : list string → list string;
  (** [str(n)] inside an f-string *)
  str_int : Z → string;
  (** [f"{x:.Nf}"] *)
  fmt_float : nat → Q → string
}.


(** ** Data model of [osint-crawler-sentiment.py] *)

Inductive Polaridad : Set := POSITIVO | NEGATIVO | NEUTRAL.

Inductive Emocion : Set := ENOJO | MIEDO | ALEGRIA | TRISTEZA | SORPRESA | DISGUSTO.

#[export] Instance Polaridad_eq_dec : EqDecision Polaridad.
Proof. solve_decision. Defined.

#[export] Instance Emocion_eq_dec : EqDecision Emocion.
Proof. solve_decision. Defined.

(** [Emocion.value] *)
Definition Emocion_value (e : Emocion) : string :=
  match e with
  | ENOJO => "enojo"
  | MIEDO => "miedo"
  | ALEGRIA => "alegría"
  | TRISTEZA => "tristeza"
  | SORPRESA => "sorpresa"
  | DISGUSTO => "disgusto"
  end.

(** [Articulo], restricted to the fields the analysis reads or writes
    ([url], [fuente], [fecha_publicacion], [autor], [categoria] and the
    engagement counters are carried along untouched by it). [sentimiento] is
    [Optional[Polaridad]] and stays [None] until [analyze_sentiment] ran. *)
Record Articulo := mkArticulo {
  id : string;
  titulo : string;
  contenido : string;
  tags : list string;
  sentimiento : option Polaridad;
  emociones : list (Emocion * Q);
  score_sentimiento : Q
}.

(** [TrendingTopic]; [timestamp] ([datetime.now()]) is left out. *)
Record TrendingTopic := mkTrendingTopic {
  hashtag : string;
  menciones : Z;
  crecimiento_24h : Q;
  velocidad : Q;
  sentimiento_promedio : Q;
  emociones_dominantes : list Emocion;
  articulos_relacionados : list string;
  probabilidad_viral : Q
}.

Record AnalisisColectivo := mkAnalisisColectivo {
  periodo : string;
  distribucion_emociones : list (Emocion * Q);
  polaridad_dominante : option Polaridad;
  temas_calientes : list TrendingTopic;
  nivel_tension_social : Q;
  indicadores_conflicto : list string
}.

(** ** The Redis counter store

    [redis.Redis(..., decode_responses=True)]: [setex] stores the decimal
    rendering of the count and [get] hands it back to [int(...)], so an entry
    is kept as the integer itself together with the TTL it was written with.
    Expiry happens between runs, not during one. *)
Module Redis.

Record entry := mkEntry { value : Z; ttl : Z }.

Abbreviation store := (gmap string entry).

(** A computation over the store. *)
Definition M (A : Type) : Type := store → A * store.

Definition ret {A} (a : A) : M A := λ s, (a, s).

Definition bind {A B} (m : M A) (k : A → M B) : M B :=
  λ s, let '(a, s') := m s in k a s'.

(** [redis_client.get(key)] *)
Definition get (key : string) : M (option Z) :=
  λ s, (value <$> s !! key, s).

(** [redis_client.setex(key, seconds, v)] *)
Definition setex (key : string) (seconds v : Z) : M unit :=
  λ s, (tt, <[key := mkEntry v seconds]> s).

End Redis.

#[export] Instance redis_ret : MRet Redis.M := @Redis.ret.
#[export] Instance redis_bind : MBind Redis.M := λ A B k m, Redis.bind m k.

(** ** [MediaCrawlerAndSentimentAnalyzer]: trend detection *)

Section Crawler.
Context `{Runtime}.

(** [a.titulo + " " + a.contenido] *)
Definition texto (a : Articulo) : string := titulo a +:+ " " +:+ contenido a.

(** [_extract_hashtags] *)
Definition _extract_hashtags (text : string) : list string :=
  let hashtags := findall_hashtag (lower text) in
  let hashtags := hashtags ++ nlp_hashtags (lower text) in
  list_set hashtags.

(** [_calculate_viral_probability] *)
Definition _calculate_viral_probability
    (menciones : Z) (crecimiento velocidad intensidad_sentimiento : Q) : Q :=
  let norm_menciones := Qmin (inject_Z menciones / 100) 1 in
  let norm_crecimiento := Qmin (crecimiento / 200) 1 in
  let norm_velocidad := Qmin (velocidad / 10) 1 in
  let norm_sentimiento := intensidad_sentimiento in
  let probabilidad :=
    (norm_menciones * 0.3 +
     norm_crecimiento * 0.35 +
     norm_velocidad * 0.25 +
     norm_sentimiento * 0.10)%Q in
  Qmin probabilidad 1.

(** The key the previous count is read from, [f"{redis_key}:24h"], and the
    key the current count is written to, [redis_key]. *)
Definition redis_key (hashtag : string) : string := "hashtag:" +:+ hashtag.
Definition redis_key_24h (hashtag : string) : string := redis_key hashtag +:+ ":24h".

(** [int(menciones_previas) if menciones_previas else 0] *)
Definition menciones_previas_de (r : option Z) : Z :=
  match r with Some n => n | None => 0 end.

(** Lines 474-478: growth against the previous window. *)
Definition crecimiento_de (menciones_actuales menciones_previas : Z) : Q :=
  if (0 <? menciones_previas)%Z then
    (inject_Z (menciones_actuales - menciones_previas)
       / inject_Z menciones_previas * 100)%Q
  else
    if (5 <? menciones_actuales)%Z then 100%Q else 0%Q.

(** [hashtag in (a.titulo + " " + a.contenido).lower()] *)
Definition menciona (hashtag : string) (a : Articulo) : bool :=
  str_in hashtag (lower (texto a)).

(** Lines 496-511: mean score per emotion over the related articles, the
    three highest first. *)
Definition emociones_de (hashtag : string) (articulos : list Articulo)
    : list (Emocion * Q) :=
  let all_emociones :=
    foldl (λ d a,
             if menciona hashtag a
             then foldl (λ d es, dd_append es.1 es.2 d) d (emociones a)
             else d)
          [] articulos in
  let emociones_promedio := map (λ es, (es.1, np_mean es.2)) all_emociones in
  take 3 (sorted_reverse (λ x y, Qltb x.2 y.2) emociones_promedio).

(** Line 525: the admission test. *)
Definition potencial_viral (probabilidad_viral crecimiento : Q) : bool :=
  Qltb 0.3 probabilidad_viral || Qltb 50 crecimiento.

(** [_analyze_trend] *)
Definition _analyze_trend
    (hashtag : string) (menciones_actuales : Z) (articulos : list Articulo)
    : Redis.M (option TrendingTopic) :=
  menciones_previas ← Redis.get (redis_key_24h hashtag);
  let menciones_previas := menciones_previas_de menciones_previas in
  let crecimiento := crecimiento_de menciones_actuales menciones_previas in
  let velocidad := (inject_Z menciones_actuales / 24)%Q in
  let articulos_relacionados :=
    map id (filter (λ a, menciona hashtag a = true) articulos) in
  let sentimientos :=
    map score_sentimiento (filter (λ a, menciona hashtag a = true) articulos) in
  let sentimiento_promedio :=
    match sentimientos with [] => 0%Q | _ => np_mean sentimientos end in
  let emociones_dominantes := emociones_de hashtag articulos in
  let probabilidad_viral :=
    _calculate_viral_probability
      menciones_actuales crecimiento velocidad (Qabs sentimiento_promedio) in
  Redis.setex (redis_key hashtag) 86400 menciones_actuales;;
  if potencial_viral probabilidad_viral crecimiento then
    mret (Some {|
      hashtag := hashtag;
      menciones := menciones_actuales;
      crecimiento_24h := crecimiento;
      velocidad := velocidad;
      sentimiento_promedio := sentimiento_promedio;
      emociones_dominantes := map fst emociones_dominantes;
      articulos_relacionados := articulos_relacionados;
      probabilidad_viral := probabilidad_viral |})
  else
    mret None.

(** The loop of [extract_hashtags_and_trends] over the candidates. *)
Fixpoint analizar_candidatos
    (candidatos : list (string * Z)) (articulos : list Articulo)
    : Redis.M (list TrendingTopic) :=
  match candidatos with
  | [] => mret []
  | (hashtag, count) :: resto =>
      trending ← _analyze_trend hashtag count articulos;
      trending_topics ← analizar_candidatos resto articulos;
      mret (match trending with
                 | Some t => t :: trending_topics
                 | None => trending_topics
                 end)
  end.

(** The first loop of [extract_hashtags_and_trends]: [articulo.tags] is
    overwritten with the article's hashtags. *)
Definition etiquetar (articulos : list Articulo) : list Articulo :=
  map (λ a, {| id := id a; titulo := titulo a; contenido := contenido a;
               tags := _extract_hashtags (texto a);
               sentimiento := sentimiento a; emociones := emociones a;
               score_sentimiento := score_sentimiento a |}) articulos.

(** [hashtag_counts.most_common(20)] of the batch. *)
Definition candidatos (articulos : list Articulo) : list (string * Z) :=
  let all_hashtags := concat (map (λ a, _extract_hashtags (texto a)) articulos) in
  let hashtag_counts := Counter all_hashtags in
  most_common 20 hashtag_counts.

(** [extract_hashtags_and_trends]: returns the trending topics; the batch,
    mutated in place, and the store are the other two results. *)
Definition extract_hashtags_and_trends (articulos : list Articulo)
    : Redis.M (list TrendingTopic * list Articulo) :=
  let cands := candidatos articulos in
  let articulos := etiquetar articulos in
  trending_topics ← analizar_candidatos cands articulos;
  let trending_topics :=
    sorted_reverse (λ x y, Qltb (probabilidad_viral x) (probabilidad_viral y))
                   trending_topics in
  mret (trending_topics, articulos).

End Crawler.

(** ** [MediaCrawlerAndSentimentAnalyzer]: collective analysis *)

Section Colectivo.
Context `{Runtime}.

(** [_calculate_social_tension] *)
Definition _calculate_social_tension
    (articulos : list Articulo) (trending_topics : list TrendingTopic) : Q :=
  let emociones_negativas := ["enojo"; "miedo"; "tristeza"; "disgusto"] in
  let negativos :=
    count_if (λ a, bool_decide (sentimiento a = Some NEGATIVO)) articulos in
  let ratio_negativos :=
    match articulos with
    | [] => 0%Q
    | _ => (inject_Z negativos / Qlen articulos)%Q
    end in
  let intensidad_negativa :=
    foldl (λ acc a,
             foldl (λ acc es,
                      if bool_decide (Emocion_value es.1 ∈ emociones_negativas)
                      then (acc + es.2)%Q else acc)
                   acc (emociones a))
          0%Q articulos in
  let intensidad_negativa :=
    (intensidad_negativa / match articulos with [] => 1 | _ => Qlen articulos end)%Q in
  let trending_explosivo :=
    count_if (λ t, Qltb 100 (crecimiento_24h t)) trending_topics in
  let ratio_explosivo :=
    match trending_topics with
    | [] => 0%Q
    | _ => (inject_Z trending_explosivo / Qlen trending_topics)%Q
    end in
  let tension :=
    ((ratio_negativos * 40 +
      intensidad_negativa * 30 +
      ratio_explosivo * 30) * 100)%Q in
  Qmin tension 100.

Definition conflict_keywords : list string :=
  [ "protesta"; "manifestación"; "paro"; "huelga"; "reclamo";
    "crisis"; "conflicto"; "tensión"; "enfrentamiento";
    "violencia"; "represión"; "descontento"; "indignación" ].

(** [any(keyword in text for keyword in conflict_keywords)], the effect of
    the inner [for ... break] loops. *)
Definition menciona_conflicto (text : string) : bool :=
  existsb (λ keyword, str_in keyword text) conflict_keywords.

(** [_detect_conflict_indicators] *)
Definition _detect_conflict_indicators
    (articulos : list Articulo) (trending_topics : list TrendingTopic)
    : list string :=
  let indicadores :=
    omap (λ topic,
            if menciona_conflicto (lower (hashtag topic)) then
              Some ("Trending: " +:+ hashtag topic +:+ " ("
                      +:+ str_int (menciones topic) +:+ " menciones, +"
                      +:+ fmt_float 0 (crecimiento_24h topic) +:+ "%)")
            else None)
         (take 10 trending_topics) in
  let titulares_conflicto :=
    count_if (λ a, menciona_conflicto (lower (titulo a))) articulos in
  if Qltb (Qlen articulos * 0.2) (inject_Z titulares_conflicto) then
    indicadores ++
      [ str_int titulares_conflicto +:+ " artículos mencionan conflicto ("
          +:+ fmt_float 1 (inject_Z titulares_conflicto / Qlen articulos * 100)
          +:+ "%)" ]
  else indicadores.

(** Lines 577-586: mean score per emotion over the articles reporting it. *)
Definition distribucion_de (articulos : list Articulo) : list (Emocion * Q) :=
  let all_emociones :=
    foldl (λ d a, foldl (λ d es, dd_append es.1 es.2 d) d (emociones a))
          [] articulos in
  map (λ es, (es.1, np_mean es.2)) all_emociones.

(** [analyze_collective_sentiment]; [most_common(1)[0][0]] raises
    [IndexError] when the counter is empty. *)
Definition analyze_collective_sentiment
    (articulos : list Articulo) (trending_topics : list TrendingTopic)
    : PyError + AnalisisColectivo :=
  let distribucion_emociones := distribucion_de articulos in
  let sentimientos := map sentimiento articulos in
  match most_common 1 (Counter sentimientos) with
  | [] => inl IndexError
  | (polaridad_dominante, _) :: _ =>
      let nivel_tension := _calculate_social_tension articulos trending_topics in
      let indicadores := _detect_conflict_indicators articulos trending_topics in
      inr {| periodo := "24h";
             distribucion_emociones := distribucion_emociones;
             polaridad_dominante := polaridad_dominante;
             temas_calientes := take 10 trending_topics;
             nivel_tension_social := nivel_tension;
             indicadores_conflicto := indicadores |}
  end.

End Colectivo.

(** ** [MediaMonitoringASRPipeline]: the two vector stores *)

Module ASR.

Inductive TemasCriticos : Set :=
  | POLITICA | SEGURIDAD | ECONOMIA | SOCIAL | INTERNACIONAL
  | SALUD | MEDIO_AMBIENTE | TECNOLOGIA | JUSTICIA | EDUCACION.

(** [TemasCriticos.value] *)
Definition TemasCriticos_value (t : TemasCriticos) : string :=
  match t with
  | POLITICA => "política"
  | SEGURIDAD => "seguridad"
  | ECONOMIA => "economía"
  | SOCIAL => "social"
  | INTERNACIONAL => "internacional"
  | SALUD => "salud"
  | MEDIO_AMBIENTE => "medio_ambiente"
  | TECNOLOGIA => "tecnología"
  | JUSTICIA => "justicia"
  | EDUCACION => "educación"
  end.

Record AudioSource := mkAudioSource {
  id : string;
  url : string;
  source_type : string;
  channel_name : string
}.

Record Actor := mkActor {
  name : string;
  type : string;
  mentions : Z;
  sentiment : string;
  quotes : list string
}.

(** [ProcessedAudio]; [segments] is not stored, and [processed_at] is kept
    as its [isoformat()] rendering. *)
Record ProcessedAudio := mkProcessedAudio {
  source : AudioSource;
  transcription : string;
  temas : list TemasCriticos;
  actors : list Actor;
  keywords : list string;
  embeddings : list Q;
  processed_at : string
}.

(** [dimension=384] of the Pinecone index and [vector(384)] of the table. *)
Definition dimension : nat := 384.

(** A [str] is held as its UTF-8 bytes; a byte [10xxxxxx] continues the
    character begun before it. *)
Definition continuation (c : Ascii.ascii) : bool :=
  match c with
  | Ascii.Ascii _ _ _ _ _ _ b6 b7 => b7 && negb b6
  end.

(** [len(s)]: the number of characters. *)
Fixpoint str_chars (s : string) : nat :=
  match s with
  | EmptyString => 0
  | String c s' => if continuation c then str_chars s' else S (str_chars s')
  end.

(** [s[:n]]: the first [n] characters, each with all of its bytes. *)
Fixpoint str_take (n : nat) (s : string) : string :=
  match s with
  | EmptyString => EmptyString
  | String c s' =>
      if continuation c then String c (str_take n s')
      else
        match n with
        | 0 => EmptyString
        | S n' => String c (str_take n' s')
        end
  end.

(** *** Pinecone: an index of records addressed by id *)

Record PineconeMetadata := mkPineconeMetadata {
  md_source_id : string;
  md_channel_name : string;
  md_transcription : string;
  md_temas : list string;
  md_actors : list string;
  md_keywords : list string;
  md_processed_at : string
}.

Abbreviation pinecone_index := (gmap string (list Q * PineconeMetadata)).

(** [Index.upsert(vectors=[(id, values, metadata)])]: the record with that
    id is written, replacing any earlier one. *)
Definition upsert (vid : string) (values : list Q) (metadata : PineconeMetadata)
    (ix : pinecone_index) : PyError + pinecone_index :=
  if decide (length values = dimension) then inr (<[vid := (values, metadata)]> ix)
  else inl DimensionError.

(** [_store_pinecone] *)
Definition _store_pinecone (processed : ProcessedAudio) (vector_index : pinecone_index)
    : PyError + pinecone_index :=
  let metadata := {|
    md_source_id := id (source processed);
    md_channel_name := channel_name (source processed);
    md_transcription := str_take 1000 (transcription processed);
    md_temas := map TemasCriticos_value (temas processed);
    md_actors := map name (actors processed);
    md_keywords := keywords processed;
    md_processed_at := processed_at processed |} in
  upsert (id (source processed)) (embeddings processed) metadata vector_index.

(** *** pgvector: the table [audio_transcriptions]

    [id SERIAL PRIMARY KEY, source_id TEXT NOT NULL, ...]: the only key is
    the serial number the database assigns; [processed_at] defaults to the
    time of the insertion and is not modelled. *)

Record Row := mkRow {
  row_id : Z;
  row_source_id : string;
  row_channel_name : string;
  row_transcription : string;
  row_temas : list string;
  row_actors : list (string * Z);
  row_keywords : list string;
  row_embedding : list Q;
  row_metadata : string
}.

Record Table := mkTable {
  rows : list Row;
  next_serial : Z
}.

Definition empty_table : Table := {| rows := []; next_serial := 1 |}.

(** The Python values handed to [cur.execute] as query parameters. *)
#[local] Unset Elimination Schemes.
Inductive PyValue :=
  | PyStr (s : string)
  | PyInt (n : Z)
  | PyFloat (x : Q)
  | PyList (l : list PyValue)
  | PyDict (d : list (string * PyValue)).
#[local] Set Elimination Schemes.

(** What psycopg2 can turn into SQL on this connection: strings, numbers
    and lists of such. [_init_vector_db] registers [register_vector] only,
    which adds numpy arrays; no adapter for [dict] is registered anywhere in
    the repository. *)
Fixpoint adaptable (v : PyValue) : bool :=
  match v with
  | PyStr _ | PyInt _ | PyFloat _ => true
  | PyList l => forallb adaptable l
  | PyDict _ => false
  end.

(** The parameter tuple of the [INSERT] of [_store_pgvector]. *)
Definition insert_params (processed : ProcessedAudio) : list PyValue :=
  [ PyStr (id (source processed));
    PyStr (channel_name (source processed));
    PyStr (transcription processed);
    PyList (map (λ t, PyStr (TemasCriticos_value t)) (temas processed));
    PyList (map (λ a, PyDict [("name", PyStr (name a));
                              ("mentions", PyInt (mentions a))])
                (actors processed));
    PyList (map PyStr (keywords processed));
    PyList (map PyFloat (embeddings processed));
    PyDict [("source_type", PyStr (source_type (source processed)))] ].

(** [_store_pgvector]: [cur.execute] adapts the parameters before it sends
    the [INSERT INTO audio_transcriptions (source_id, ..., metadata) VALUES
    ...], and raises [ProgrammingError] on one it cannot adapt; [commit()]
    follows the statement. *)
Definition _store_pgvector (processed : ProcessedAudio) (t : Table) : PyError + Table :=
  if negb (forallb adaptable (insert_params processed)) then inl ProgrammingError
  else if decide (length (embeddings processed) = dimension) then
    inr {| rows := rows t ++
             [ {| row_id := next_serial t;
                  row_source_id := id (source processed);
                  row_channel_name := channel_name (source processed);
                  row_transcription := transcription processed;
                  row_temas := map TemasCriticos_value (temas processed);
                  row_actors := map (λ a, (name a, mentions a)) (actors processed);
                  row_keywords := keywords processed;
                  row_embedding := embeddings processed;
                  row_metadata := source_type (source processed) |} ];
           next_serial := next_serial t + 1 |}
  else inl DimensionError.

(** The table after a call: as before when the call raised, since the
    statement was never sent. *)
Definition table_after (r : PyError + Table) (t : Table) : Table :=
  match r with
  | inr t' => t'
  | inl _ => t
  end.

(** [SELECT ... FROM audio_transcriptions WHERE source_id = ...]: the
    records stored for one source. *)
Definition records_of (sid : string) (t : Table) : list Row :=
  filter (λ r, row_source_id r = sid) (rows t).

(** [_store_in_vector_db]: one interface over both backends. *)
Inductive VectorDb :=
  | Pinecone (ix : pinecone_index)
  | Pgvector (t : Table).

Definition _store_in_vector_db (processed : ProcessedAudio) (db : VectorDb)
    : PyError + VectorDb :=
  match db with
  | Pinecone ix => sum_map (λ e, e) Pinecone (_store_pinecone processed ix)
  | Pgvector t => sum_map (λ e, e) Pgvector (_store_pgvector processed t)
  end.

(** The number of records a query over all of the store ranges over. *)
Definition record_count (db : VectorDb) : nat :=
  match db with
  | Pinecone ix => size ix
  | Pgvector t => length (rows t)
  end.

End ASR.

(** ** A concrete runtime: ASCII text, no spaCy model

    On ASCII text this is what CPython computes when [self.nlp] is [None];
    [list_set] lists each element at its first occurrence, one of the orders
    a [set] may be iterated in. It is used to run the analysis on concrete
    batches. *)
Module AsciiRuntime.

Definition lower_ascii (c : Ascii.ascii) : Ascii.ascii :=
  let n := Ascii.nat_of_ascii c in
  if (65 <=? n)%nat && (n <=? 90)%nat then Ascii.ascii_of_nat (n + 32) else c.

Fixpoint lower_str (s : string) : string :=
  match s with
  | EmptyString => EmptyString
  | String c s' => String (lower_ascii c) (lower_str s')
  end.

(** [\w] on ASCII: letters, digits and the underscore. *)
Definition is_word (c : Ascii.ascii) : bool :=
  let n := Ascii.nat_of_ascii c in
  ((48 <=? n)%nat && (n <=? 57)%nat) || ((65 <=? n)%nat && (n <=? 90)%nat)
  || ((97 <=? n)%nat && (n <=? 122)%nat) || (n =? 95)%nat.

Definition is_hash (c : Ascii.ascii) : bool := (Ascii.nat_of_ascii c =? 35)%nat.

(** Close the match in progress: [#] followed by at least one word
    character. *)
Definition emit (cur : option string) : list string :=
  match cur with
  | Some (String c w) => ["#" +:+ String c w]
  | _ => []
  end.

(** Leftmost, greedy, non-overlapping matches of [#\w+]; [cur] holds the
    word characters read since the last [#], if one is open. *)
Fixpoint scan (s : string) (cur : option string) : list string :=
  match s with
  | EmptyString => emit cur
  | String c s' =>
      match cur with
      | Some w =>
          if is_word c then scan s' (Some (w +:+ String c EmptyString))
          else emit cur ++ scan s' (if is_hash c then Some EmptyString else None)
      | None => scan s' (if is_hash c then Some EmptyString else None)
      end
  end.

Definition findall (s : string) : list string := scan s None.

(** Each element once, at its first occurrence. *)
Fixpoint first_occurrences (xs : list string) : list string :=
  match xs with
  | [] => []
  | x :: xs' => x :: filter (λ y, y ≠ x) (first_occurrences xs')
  end.

(** Decimal digits of a natural number; [fuel] bounds the number of
    digits. *)
Fixpoint digits (fuel : nat) (n : N) (acc : string) : string :=
  match fuel with
  | O => acc
  | S fuel' =>
      let d := Ascii.ascii_of_N (48 + n mod 10) in
      let acc := String d acc in
      if (n <? 10)%N then acc else digits fuel' (n / 10)%N acc
  end.

Definition str_nat (n : N) : string := digits (S (N.to_nat (N.log2 n))) n EmptyString.

Definition str_Z (z : Z) : string :=
  if (z <? 0)%Z then "-" +:+ str_nat (Z.abs_N z) else str_nat (Z.abs_N z).

(** Round to the nearest integer, halves to even. *)
Definition round_half_even (x : Q) : Z :=
  let f := Qfloor x in
  let r := (x - inject_Z f)%Q in
  match (r ?= 1 # 2)%Q with
  | Lt => f
  | Gt => (f + 1)%Z
  | Eq => if Z.even f then f else (f + 1)%Z
  end.

(** [f"{x:.Nf}"] on an exact decimal. *)
Definition fmt_fixed (n : nat) (x : Q) : string :=
  let scaled := round_half_even (Qabs x * inject_Z (10 ^ Z.of_nat n)) in
  let int_part := (scaled / 10 ^ Z.of_nat n)%Z in
  let frac_part := (scaled mod 10 ^ Z.of_nat n)%Z in
  let frac := str_nat (Z.to_N frac_part) in
  let pad := String.concat "" (replicate (n - String.length frac) "0") in
  (if Qltb x 0 && (0 <? scaled)%Z then "-" else "")
    +:+ str_nat (Z.to_N int_part)
    +:+ (match n with O => "" | _ => "." +:+ pad +:+ frac end).

#[export] Instance ascii_runtime : Runtime := {|
  lower := lower_str;
  findall_hashtag := findall;
  nlp_hashtags := λ _, [];
  list_set := first_occurrences;
  str_int := str_Z;
  fmt_float := fmt_fixed
|}.

End AsciiRuntime.

(** ** Reference notions for the statements

    None of these is called by the code above; each names what a statement
    compares the code with. *)

Section Referencia.
Context `{Runtime}.

(** The metrics [_analyze_trend] computes for a candidate before the
    admission test: the record it returns when the test passes. *)
Definition candidato
    (hashtag : string) (menciones_actuales : Z) (articulos : list Articulo)
    (s : Redis.store) : TrendingTopic :=
  let menciones_previas := menciones_previas_de (Redis.get (redis_key_24h hashtag) s).1 in
  let crecimiento := crecimiento_de menciones_actuales menciones_previas in
  let velocidad := (inject_Z menciones_actuales / 24)%Q in
  let relacionados := filter (λ a, menciona hashtag a = true) articulos in
  let sentimientos := map score_sentimiento relacionados in
  let sentimiento_promedio :=
    match sentimientos with [] => 0%Q | _ => np_mean sentimientos end in
  {| hashtag := hashtag;
     menciones := menciones_actuales;
     crecimiento_24h := crecimiento;
     velocidad := velocidad;
     sentimiento_promedio := sentimiento_promedio;
     emociones_dominantes := map fst (emociones_de hashtag articulos);
     articulos_relacionados := map id relacionados;
     probabilidad_viral :=
       _calculate_viral_probability
         menciones_actuales crecimiento velocidad (Qabs sentimiento_promedio) |}.

(** The store after the candidates were analysed in turn: one [setex] per
    candidate. *)
Definition escrituras (cands : list (string * Z)) (s : Redis.store) : Redis.store :=
  foldl (λ s hc, <[redis_key hc.1 := Redis.mkEntry hc.2 86400]> s) s cands.

(** The metrics of every candidate of a run, each computed against the
    store as the candidates before it left it. *)
Fixpoint puntuados
    (cands : list (string * Z)) (articulos : list Articulo) (s : Redis.store)
    : list TrendingTopic :=
  match cands with
  | [] => []
  | (h, c) :: resto =>
      candidato h c articulos s
        :: puntuados resto articulos (escrituras [(h, c)] s)
  end.

(** The candidates of a run with their metrics. *)
Definition puntuados_de (articulos : list Articulo) (s : Redis.store)
    : list TrendingTopic :=
  puntuados (candidatos articulos) (etiquetar articulos) s.

(** The admission test on a candidate's metrics. *)
Definition aceptado (t : TrendingTopic) : Prop :=
  potencial_viral (probabilidad_viral t) (crecimiento_24h t) = true.

#[export] Instance aceptado_dec t : Decision (aceptado t).
Proof. unfold aceptado. apply _. Defined.

(** The list a run returns, and the store it leaves. *)
Definition tendencias (articulos : list Articulo) (s : Redis.store)
    : list TrendingTopic :=
  (extract_hashtags_and_trends articulos s).1.1.

Definition store_final (articulos : list Articulo) (s : Redis.store) : Redis.store :=
  (extract_hashtags_and_trends articulos s).2.

End Referencia.

(** Number of occurrences of [x] in [l]. *)
Definition ocurrencias {A} `{EqDecision A} (x : A) (l : list A) : Z :=
  Z.of_nat (length (filter (λ y, y = x) l)).

(** The elements of [l], each at its first occurrence. *)
Definition primeras {A} `{EqDecision A} (l : list A) : list A :=
  foldl (λ acc x, if decide (x ∈ acc) then acc else acc ++ [x]) [] l.

(** The position of the first occurrence of [x] in [l], as [l.index(x)]
    counts it; the length of [l] when there is none. *)
Fixpoint indice {A} `{EqDecision A} (x : A) (l : list A) : nat :=
  match l with
  | [] => 0
  | y :: l' => if decide (x = y) then 0 else S (indice x l')
  end.

(** The order of the list a run returns, as the code gives it: viral
    probability descending, then mention count descending, then the position
    at which the hashtag was first counted in [all_hashtags]. *)
Definition precede_conteo (all_hashtags : list string) (t1 t2 : TrendingTopic)
    : Prop :=
  (probabilidad_viral t2 < probabilidad_viral t1)%Q
  ∨ ((probabilidad_viral t1 == probabilidad_viral t2)%Q
     ∧ ((menciones t2 < menciones t1)%Z
        ∨ (menciones t1 = menciones t2
           ∧ indice (hashtag t1) all_hashtags < indice (hashtag t2) all_hashtags))).

(** *** The social tension score as the specification words it *)

Module Spec.

(** [x] clamped to the interval from 0 to 100. *)
Definition clamp_0_100 (x : Q) : Q := Qmax 0 (Qmin x 100).

(** Fraction of the elements of [l] satisfying [p]; 0 for the empty list. *)
Definition fraction {A} (p : A → bool) (l : list A) : Q :=
  match l with
  | [] => 0%Q
  | _ => (inject_Z (count_if p l) / Qlen l)%Q
  end.

Definition negative_emotions : list Emocion := [ENOJO; MIEDO; TRISTEZA; DISGUSTO].

(** Sum of an article's scores for the negative emotions. *)
Definition negative_intensity (a : Articulo) : Q :=
  Qsum (map snd (filter (λ es, es.1 ∈ negative_emotions) (emociones a))).

(** [0.40 * ratio_negative + 0.30 * mean_negative_emotion_intensity
    + 0.30 * ratio_explosive_trends] *)
Definition weighted_sum
    (batch : list Articulo) (trends : list TrendingTopic) : Q :=
  let ratio_negative :=
    fraction (λ a, bool_decide (sentimiento a = Some NEGATIVO)) batch in
  let mean_negative_emotion_intensity :=
    (Qsum (map negative_intensity batch) / Qlen batch)%Q in
  let ratio_explosive_trends :=
    fraction (λ t, Qltb 100 (crecimiento_24h t)) trends in
  (0.40 * ratio_negative
   + 0.30 * mean_negative_emotion_intensity
   + 0.30 * ratio_explosive_trends)%Q.

(** 100 times the weighted sum, clamped. *)
Definition social_tension_score
    (batch : list Articulo) (trends : list TrendingTopic) : Q :=
  clamp_0_100 (100 * weighted_sum batch trends)%Q.

(** The order the specification gives the returned list: viral probability
    descending, then mention count descending, then token ascending. *)
Definition precede (t1 t2 : TrendingTopic) : Prop :=
  (probabilidad_viral t2 < probabilidad_viral t1)%Q
  ∨ ((probabilidad_viral t1 == probabilidad_viral t2)%Q
     ∧ ((menciones t2 < menciones t1)%Z
        ∨ (menciones t1 = menciones t2
           ∧ String.leb (hashtag t1) (hashtag t2) = true))).

(** The enum definition order of [Polaridad]. *)
Definition orden_enum (p : Polaridad) : nat :=
  match p with POSITIVO => 0 | NEGATIVO => 1 | NEUTRAL => 2 end.

End Spec.

(** ** Sample batches *)

Module Samples.
Import AsciiRuntime.

(** An analysed article with the given id, title, polarity and score, an
    empty body and no emotion scores. *)
Definition articulo (i t : string) (p : Polaridad) (score : Q) : Articulo :=
  {| id := i; titulo := t; contenido := ""; tags := [];
     sentimiento := Some p; emociones := []; score_sentimiento := score |}.

(** Six neutral articles titled [t]. *)
Definition seis (t : string) : list Articulo :=
  map (λ i, articulo (t +:+ "/" +:+ i) t NEUTRAL 0) ["1"; "2"; "3"; "4"; "5"; "6"].

(** Six articles mentioning [#paro], and one. *)
Definition paro : list Articulo := seis "#paro".
Definition paro_uno : list Articulo := [articulo "u1" "#paro" NEUTRAL 0].

(** Six articles mentioning [#b] followed by six mentioning [#a]. *)
Definition b_luego_a : list Articulo := seis "#b" ++ seis "#a".

(** Seventy positive articles mentioning [#paro]. *)
Definition paro_70 : list Articulo :=
  map (λ i, articulo ("m" +:+ str_Z (Z.of_nat i)) "#paro" POSITIVO 1) (seq 0 70).

(** Stores in which the previous count of [#paro] is 5, 71 and 100. *)
Definition previo_5 : Redis.store :=
  {[ "hashtag:#paro:24h" := Redis.mkEntry 5 86400 ]}.
Definition previo_71 : Redis.store :=
  {[ "hashtag:#paro:24h" := Redis.mkEntry 71 86400 ]}.
Definition previo_100 : Redis.store :=
  {[ "hashtag:#paro:24h" := Redis.mkEntry 100 86400 ]}.

(** One negative and one positive article, in that order. *)
Definition dos : list Articulo :=
  [ articulo "n1" "sube el dolar" NEGATIVO (-(1 # 2));
    articulo "p1" "gano la seleccion" POSITIVO (1 # 2) ].

(** A recording with a zero embedding of the right width. *)
Definition grabacion : ASR.ProcessedAudio :=
  {| ASR.source := {| ASR.id := "radio_mitre_2026_02_05";
                      ASR.url := "https://stream.radiomitre.com.ar/live";
                      ASR.source_type := "radio";
                      ASR.channel_name := "Radio Mitre AM 790" |};
     ASR.transcription := "buenos dias";
     ASR.temas := [ASR.ECONOMIA];
     ASR.actors := [];
     ASR.keywords := ["buenos"];
     ASR.embeddings := replicate ASR.dimension 0%Q;
     ASR.processed_at := "2026-02-05T08:00:00" |}.

(** A table that holds an earlier record of the same source. *)
Definition tabla_previa : ASR.Table :=
  {| ASR.rows :=
       [ {| ASR.row_id := 1;
            ASR.row_source_id := "radio_mitre_2026_02_05";
            ASR.row_channel_name := "Radio Mitre AM 790";
            ASR.row_transcription := "buenas noches";
            ASR.row_temas := [];
            ASR.row_actors := [];
            ASR.row_keywords := [];
            ASR.row_embedding := replicate ASR.dimension 1%Q;
            ASR.row_metadata := "radio" |} ];
     ASR.next_serial := 2 |}.

End Samples.

(** * The rest of the crawler *)

(** ** More Python built-ins *)

Module PyDict.
Section Dict.
Context {K V : Type} `{EqDecision K}.

(** [d[k] = v]: an entry already there keeps its place. *)
Fixpoint dict_set (k : K) (v : V) (d : list (K * V)) : list (K * V) :=
  match d with
  | [] => [(k, v)]
  | (k', v') :: d' =>
      if decide (k = k') then (k', v) :: d' else (k', v') :: dict_set k v d'
  end.

(** [d.get(k)] *)
Fixpoint dict_get (k : K) (d : list (K * V)) : option V :=
  match d with
  | [] => None
  | (k', v) :: d' => if decide (k = k') then Some v else dict_get k d'
  end.

End Dict.
End PyDict.
Import PyDict.

(** ** [analyze_sentiment] *)

(** The two [transformers] pipelines: each returns one result per input
    text, the sentiment pipeline a [{'label', 'score'}] record and the emotion
    pipeline (with [return_all_scores=True]) a list of them. *)
Class Models := {
  sentiment_analyzer : string → list (string * Q);
  emotion_analyzer : string → list (list (string * Q))
}.

Section Sentimiento.
Context `{Runtime} `{Models}.

Definition emotion_map : list (string * Emocion) :=
  [ ("anger", ENOJO); ("fear", MIEDO); ("joy", ALEGRIA);
    ("sadness", TRISTEZA); ("surprise", SORPRESA); ("disgust", DISGUSTO) ].

(** [_analyze_emotions] *)
Definition _analyze_emotions (text : string) : PyError + list (Emocion * Q) :=
  let text := ASR.str_take 512 text in
  match emotion_analyzer text with
  | [] => inl IndexError
  | emotion_results :: _ =>
      inr (foldl (λ emociones result,
                    match dict_get result.1 emotion_map with
                    | Some e => dict_set e result.2 emociones
                    | None => emociones
                    end)
                 [] emotion_results)
  end.

(** Lines 360-368: polarity and signed score from the label. *)
Definition polaridad_de (label : string) (score : Q) : Polaridad * Q :=
  if str_in "pos" label || str_in "positive" label then (POSITIVO, score)
  else if str_in "neg" label || str_in "negative" label then (NEGATIVO, (- score)%Q)
  else (NEUTRAL, 0%Q).

(** [analyze_sentiment]: the article with its three analysis fields set. *)
Definition analyze_sentiment (articulo : Articulo) : PyError + Articulo :=
  match sentiment_analyzer
          (titulo articulo +:+ ". " +:+ ASR.str_take 500 (contenido articulo)) with
  | [] => inl IndexError
  | (label, score) :: _ =>
      let label := lower label in
      let ps := polaridad_de label score in
      match _analyze_emotions (contenido articulo) with
      | inl e => inl e
      | inr emociones =>
          inr {| id := id articulo; titulo := titulo articulo;
                 contenido := contenido articulo; tags := tags articulo;
                 sentimiento := Some ps.1; emociones := emociones;
                 score_sentimiento := ps.2 |}
      end
  end.

(** [for articulo in all_articulos: await self.analyze_sentiment(articulo)];
    the first exception ends the loop. *)
Fixpoint analizar_todos (articulos : list Articulo) : PyError + list Articulo :=
  match articulos with
  | [] => inr []
  | a :: resto =>
      match analyze_sentiment a with
      | inl e => inl e
      | inr a' =>
          match analizar_todos resto with
          | inl e => inl e
          | inr resto' => inr (a' :: resto')
          end
      end
  end.

End Sentimiento.

(** ** Scraping *)

Inductive FuenteNoticia : Set :=
  | CLARIN | LA_NACION | PAGINA12 | INFOBAE | AMBITO | PERFIL | CRONISTA.

(** [FuenteNoticia.value] *)
Definition FuenteNoticia_value (f : FuenteNoticia) : string :=
  match f with
  | CLARIN => "clarin"
  | LA_NACION => "lanacion"
  | PAGINA12 => "pagina12"
  | INFOBAE => "infobae"
  | AMBITO => "ambito"
  | PERFIL => "perfil"
  | CRONISTA => "cronista"
  end.

(** [for fuente in FuenteNoticia]: the members in definition order. *)
Definition fuentes : list FuenteNoticia :=
  [CLARIN; LA_NACION; PAGINA12; INFOBAE; AMBITO; PERFIL; CRONISTA].

Record Portal := mkPortal {
  portal_url : string;
  sel_titular : string;
  sel_contenido : string;
  sel_fecha : string;
  sel_autor : string
}.

(** [PORTALES_ARGENTINA[fuente]]; [None] where the dict has no such key. *)
Definition PORTALES_ARGENTINA (f : FuenteNoticia) : option Portal :=
  match f with
  | CLARIN =>
      Some (mkPortal "https://www.clarin.com"
              "h1.title" "div.body-nota" "time.date" "span.author")
  | LA_NACION =>
      Some (mkPortal "https://www.lanacion.com.ar"
              "h1.com-title" "section.article-body" "time.com-date" "span.com-author")
  | INFOBAE =>
      Some (mkPortal "https://www.infobae.com"
              "h1.headline" "div.article-content" "time.date" "span.author-name")
  | PAGINA12 =>
      Some (mkPortal "https://www.pagina12.com.ar"
              "h1.article-title" "div.article-text" "time.date" "span.author")
  | AMBITO | PERFIL | CRONISTA => None
  end.

(** What a scrape can raise. *)
Inductive ScrapeError : Set :=
  | KeyError          (* [PORTALES_ARGENTINA[fuente]] *)
  | ClientError.      (* raised by the HTTP session *)

(** The HTTP session, BeautifulSoup, [re.sub], [str.strip] and [hash]. *)
Class Web := {
  (** [session.get(url)]: the status and the body *)
  http_get : string → ScrapeError + (Z * string);
  (** [[tag.get('href') for tag in soup.find_all(['a', 'h2', 'h3'])]] *)
  soup_hrefs : string → list (option string);
  (** [soup.select_one(selector)], then [get_text(strip=True)] *)
  select_text : string → string → option string;
  (** [soup.select_one(selector)], then [get_text(strip=True, separator=' ')] *)
  select_text_sep : string → string → option string;
  (** [re.sub(pattern, repl, text)] *)
  re_sub : string → string → string → string;
  (** [text.strip()] *)
  str_strip : string → string;
  (** [hash(url)] *)
  str_hash : string → Z
}.

Section Scraping.
Context `{Runtime} `{Web}.

Definition link_keywords : list string :=
  ["/nota/"; "/noticia/"; "/articulo/"; "/politica/"; "/economia/"].

(** One turn of the loop of [_extract_article_links] on [tag.get('href')]. *)
Definition agregar_link (base_url : string) (links : list string)
    (href : option string) : list string :=
  match href with
  | None | Some EmptyString => links
  | Some link =>
      let normalizado :=
        if String.prefix "/" link then Some (base_url +:+ link)
        else if negb (String.prefix "http" link) then None
        else Some link in
      match normalizado with
      | None => links
      | Some link =>
          if existsb (λ keyword, str_in keyword link) link_keywords then
            if decide (link ∈ links) then links else links ++ [link]
          else links
      end
  end.

(** [_extract_article_links], on the [href] of each tag found. *)
Definition _extract_article_links (hrefs : list (option string)) (base_url : string)
    : list string :=
  foldl (agregar_link base_url) [] hrefs.

(** [_clean_text] *)
Definition _clean_text (text : string) : string :=
  let text := re_sub "\s+" " " text in
  let text := re_sub "[^\w\s.,;:¿?¡!áéíóúñÁÉÍÓÚÑ-]" "" text in
  str_strip text.

(** [_scrape_article]; the date and the author do not reach the fields
    modelled. *)
Definition _scrape_article (url : string) (fuente : FuenteNoticia) (config : Portal)
    : ScrapeError + option Articulo :=
  match http_get url with
  | inl e => inl e
  | inr (status, html) =>
      if decide (status ≠ 200%Z) then inr None
      else
        match select_text html (sel_titular config),
              select_text_sep html (sel_contenido config) with
        | Some titulo, Some contenido =>
            inr (Some {| id := FuenteNoticia_value fuente +:+ "_"
                                 +:+ str_int (str_hash url);
                         titulo := titulo;
                         contenido := _clean_text contenido;
                         tags := [];
                         sentimiento := None;
                         emociones := [];
                         score_sentimiento := 0 |})
        | _, _ => inr None
        end
  end.

(** [scrape_news_portal]; [max_articles] is not negative. An exception
    raised for one link is logged and the link skipped. *)
Definition scrape_news_portal (fuente : FuenteNoticia) (max_articles : nat)
    : ScrapeError + list Articulo :=
  match PORTALES_ARGENTINA fuente with
  | None => inl KeyError
  | Some config =>
      match http_get (portal_url config) with
      | inl e => inl e
      | inr (_, html) =>
          let article_links :=
            _extract_article_links (soup_hrefs html) (portal_url config) in
          let article_links := take max_articles article_links in
          inr (omap (λ link,
                       match _scrape_article link fuente config with
                       | inr (Some articulo) => Some articulo
                       | _ => None
                       end)
                    article_links)
      end
  end.

End Scraping.

(** ** [run_full_analysis] *)

(** The dict returned, without its timestamp. *)
Record Informe := mkInforme {
  inf_articulos : list Articulo;
  inf_trending_topics : list TrendingTopic;
  inf_analisis_colectivo : AnalisisColectivo
}.

Section Orquestacion.
Context `{Runtime} `{Models} `{Web}.

(** Step 1: every portal in turn, 30 articles at most from each; a portal
    whose scrape raises is logged and contributes nothing. *)
Definition scrape_todos : list Articulo :=
  concat (map (λ fuente,
                 match scrape_news_portal fuente 30 with
                 | inr articulos => articulos
                 | inl _ => []
                 end)
              fuentes).

(** [run_full_analysis] *)
Definition run_full_analysis : Redis.M (PyError + Informe) :=
  λ s,
    let all_articulos := scrape_todos in
    match analizar_todos all_articulos with
    | inl e => (inl e, s)
    | inr all_articulos =>
        let '((trending_topics, all_articulos), s') :=
          extract_hashtags_and_trends all_articulos s in
        match analyze_collective_sentiment all_articulos trending_topics with
        | inl e => (inl e, s')
        | inr analisis_colectivo =>
            (inr {| inf_articulos := all_articulos;
                    inf_trending_topics := trending_topics;
                    inf_analisis_colectivo := analisis_colectivo |}, s')
        end
    end.

End Orquestacion.

(** * The rest of the audio pipeline *)

Module Nlp.
Import ASR.

(** [for tema in TemasCriticos]: the members in definition order. *)
Definition temas_criticos : list TemasCriticos :=
  [ POLITICA; SEGURIDAD; ECONOMIA; SOCIAL; INTERNACIONAL;
    SALUD; MEDIO_AMBIENTE; TECNOLOGIA; JUSTICIA; EDUCACION ].

(** [TemasCriticos(label)]: the member with that value, if any. *)
Definition TemasCriticos_of (label : string) : option TemasCriticos :=
  find (λ t, bool_decide (TemasCriticos_value t = label)) temas_criticos.

Inductive NlpError : Set :=
  | ValueError.       (* [TemasCriticos(label)] on an unknown value *)

(** The models of the pipeline and the [str] and [re] calls it makes. *)
Class Engines := {
  (** [self.classifier(text, labels, multi_label=True)]: [result['labels']]
      and [result['scores']] *)
  classifier : string → list string → list string * list Q;
  (** [self.ner_model(text)]: [entity_group] and [word] of each entity *)
  ner_model : string → list (string * string);
  (** [self.embedder.encode(text)] *)
  encode : string → list Q;
  (** [re.findall(r'\b[a-záéíóúñ]{4,}\b', text)] *)
  findall_words : string → list string;
  (** [text.find(sub)] *)
  str_find : string → string → Z;
  (** [text[a:b]] *)
  str_slice : string → Z → Z → string;
  (** [len(text)] *)
  str_len : string → Z
}.

(** [re.findall] with the pattern of line 452 (a double quote, a captured
    run of other characters, a double quote): what stands between one double
    quote and the next, pair after pair; [cur] holds the characters read since
    a quote was opened. *)
Fixpoint findall_quoted (s : string) (cur : option string) : list string :=
  match s with
  | EmptyString => []
  | String c s' =>
      if Ascii.eqb c (Ascii.ascii_of_nat 34) then
        match cur with
        | Some q => q :: findall_quoted s' None
        | None => findall_quoted s' (Some EmptyString)
        end
      else
        match cur with
        | Some q => findall_quoted s' (Some (q +:+ String c EmptyString))
        | None => findall_quoted s' None
        end
  end.

Section Nlp.
Context `{Runtime} `{Engines}.

(** [_classify_topics]: the labels scored above 0.3, as enum members. *)
Definition _classify_topics (text : string) : NlpError + list TemasCriticos :=
  let candidate_labels := map TemasCriticos_value temas_criticos in
  let result := classifier (str_take 1000 text) candidate_labels in
  foldr (λ ls temas,
           if Qltb 0.3 ls.2 then
             match TemasCriticos_of ls.1 with
             | None => inl ValueError
             | Some t =>
                 match temas with
                 | inl e => inl e
                 | inr temas => inr (t :: temas)
                 end
             end
           else temas)
        (inr []) (zip result.1 result.2).

(** Lines 440-448: one more mention of a person. *)
Definition contar_mencion (actors_dict : list (string * (Z * list string)))
    (entity : string * string) : list (string * (Z * list string)) :=
  if decide (entity.1 = "PER") then
    let name := entity.2 in
    let actors_dict :=
      match dict_get name actors_dict with
      | None => dict_set name (0%Z, []) actors_dict
      | Some _ => actors_dict
      end in
    match dict_get name actors_dict with
    | Some (mentions, quotes) => dict_set name ((mentions + 1)%Z, quotes) actors_dict
    | None => actors_dict
    end
  else actors_dict.

(** Lines 455-458: the quotes within 100 characters after the name. *)
Definition citas_de (text : string) (quotes : list string) (name : string)
    : list string :=
  filter (λ quote,
            str_in (lower name)
                   (lower (str_slice text
                             (Z.max 0 (str_find text quote - 100))
                             (str_find text quote))) = true)
         quotes.

(** [_extract_actors] *)
Definition _extract_actors (text : string) : list Actor :=
  let entities := ner_model text in
  let actors_dict := foldl contar_mencion [] entities in
  let quotes := findall_quoted text None in
  let actors_dict :=
    map (λ nd, (nd.1, (nd.2.1, nd.2.2 ++ citas_de text quotes nd.1))) actors_dict in
  map (λ nd, {| name := nd.1;
                type := "unknown";
                mentions := nd.2.1;
                sentiment := "neutral";
                quotes := take 3 nd.2.2 |})
      (take 10 (sorted_reverse (λ x y, (x.2.1 <? y.2.1)%Z) actors_dict)).

Definition stopwords : list string :=
  [ "este"; "esta"; "estos"; "estas"; "aquel"; "aquella"; "aquellos";
    "aquellas"; "cual"; "cuales"; "quien"; "quienes"; "todo"; "todos";
    "toda"; "todas"; "pero"; "porque"; "cuando"; "donde"; "como";
    "para"; "desde"; "hasta"; "contra"; "entre"; "sobre"; "según";
    "tiene"; "hacer"; "hacer"; "estar"; "poder"; "decir"; "tener" ].

(** [_extract_keywords] *)
Definition _extract_keywords (text : string) : list string :=
  let words := findall_words (lower text) in
  let words := filter (λ w, w ∉ stopwords) words in
  let counter := Counter words in
  map fst (most_common 20 counter).

(** [_generate_embeddings] *)
Definition _generate_embeddings (text : string) : list Q :=
  let max_length := 5000%Z in
  let text := if (max_length <? str_len text)%Z
              then str_slice text 0 max_length else text in
  encode text.

End Nlp.
End Nlp.

(** * Notions used by the further properties *)

(** A [defaultdict(list)] as the code builds them: no key twice, every key
    with at least one value, every value satisfying [P]. *)
Definition dd_ok {K V} (P : V → Prop) (d : list (K * list V)) : Prop :=
  NoDup d.*1 ∧ Forall (λ kv, kv.2 ≠ [] ∧ Forall P kv.2) d.

(** [d[k]] on a [defaultdict(list)]: the values held under [k], none when
    the key is absent. *)
Fixpoint dd_vals {K V} `{EqDecision K} (k : K) (d : list (K * list V)) : list V :=
  match d with
  | [] => []
  | (k', vs) :: d' => if decide (k = k') then vs else dd_vals k d'
  end.

(** The scores the articles of a batch report for one emotion, article
    after article. *)
Definition puntajes (e : Emocion) (articulos : list Articulo) : list Q :=
  concat (map (λ a, map snd (filter (λ es, es.1 = e) (emociones a))) articulos).

(** ** More sample inputs *)

Module Muestras.
Import AsciiRuntime Samples.

(** Six negative articles on [#paro] that report four emotions each. *)
Definition enojados : list Articulo :=
  map (λ i, {| id := "e" +:+ i; titulo := "#paro general";
               contenido := "sin servicios"; tags := [];
               sentimiento := Some NEGATIVO;
               emociones := [(ENOJO, 0.8%Q); (MIEDO, 0.4%Q);
                             (ALEGRIA, 0.1%Q); (TRISTEZA, 0.3%Q)];
               score_sentimiento := (- 0.9)%Q |})
      ["1"; "2"; "3"; "4"; "5"; "6"].

(** A store with one entry that is not a counter. *)
Definition con_otra : Redis.store := {[ "sesion:1" := Redis.mkEntry 7 60 ]}.

(** Models that answer from the text alone. *)
Definition modelos : Models := {|
  sentiment_analyzer := λ text,
    if str_in "crisis" text then [("NEG", 0.9%Q)] else [("POS", 0.8%Q)];
  emotion_analyzer := λ _,
    [[("anger", 0.5%Q); ("admiration", 0.9%Q); ("joy", 0.25%Q); ("anger", 0.7%Q)]]
|}.

(** A web in which only Clarín answers: its front page has six tags, one
    article that can be read and one that is gone. *)
Definition web_clarin : Web := {|
  http_get := λ url,
    if decide (url = "https://www.clarin.com") then inr (200%Z, "portada")
    else if decide (url = "https://www.clarin.com/politica/crisis-1")
         then inr (200%Z, "nota")
    else if decide (url = "https://www.clarin.com/economia/caida")
         then inr (404%Z, "")
    else inl ClientError;
  soup_hrefs := λ html,
    if decide (html = "portada") then
      [ Some "/politica/crisis-1"; None; Some "mailto:redaccion";
        Some "https://www.clarin.com/economia/caida";
        Some "/politica/crisis-1"; Some "/deportes/final" ]
    else [];
  select_text := λ html _, if decide (html = "nota") then Some "Crisis y #paro" else None;
  select_text_sep := λ html _,
    if decide (html = "nota") then Some "Los gremios anuncian un #paro" else None;
  re_sub := λ _ _ text, text;
  str_strip := λ text, text;
  str_hash := λ url, Z.of_nat (String.length url)
|}.

(** A web in which no request succeeds. *)
Definition web_caida : Web := {|
  http_get := λ _, inl ClientError;
  soup_hrefs := λ _, [];
  select_text := λ _ _, None;
  select_text_sep := λ _ _, None;
  re_sub := λ _ _ text, text;
  str_strip := λ text, text;
  str_hash := λ _, 0%Z
|}.

(** Engines with fixed answers. *)
Definition motores : Nlp.Engines := {|
  Nlp.classifier := λ _ _, (["economía"; "política"; "salud"], [0.9%Q; 0.5%Q; 0.1%Q]);
  Nlp.ner_model := λ _,
    [("PER", "Milei"); ("ORG", "BCRA"); ("PER", "Caputo"); ("PER", "Milei")];
  Nlp.encode := λ _, replicate ASR.dimension 0%Q;
  Nlp.findall_words := λ _, ["inflación"; "sobre"; "dólar"; "inflación"];
  Nlp.str_find := λ _ _, 0%Z;
  Nlp.str_slice := λ text _ _, text;
  Nlp.str_len := λ text, Z.of_nat (String.length text)
|}.

End Muestras.

(** * Properties *)

(** ** The stable descending sort *)

Section SortFacts.
Context {A : Type} (lt : A → A → bool).

Lemma insert_desc_perm x l : insert_desc lt x l ≡ₚ x :: l.
Proof.
  induction l as [|y l IH]; simpl; [done|].
  destruct (lt x y); [|done].
  rewrite IH. apply Permutation_swap.
Qed.

Lemma sorted_reverse_perm l : sorted_reverse lt l ≡ₚ l.
Proof.
  induction l as [|x l IH]; simpl; [done|].
  by rewrite insert_desc_perm, IH.
Qed.

Lemma elem_of_sorted_reverse x l : x ∈ sorted_reverse lt l ↔ x ∈ l.
Proof. by rewrite sorted_reverse_perm. Qed.

(** A sort leaves alone any family of elements no two of which it has to
    exchange: this is stability. *)
Lemma filter_insert_desc (p : A → Prop) `{∀ x, Decision (p x)} x l :
  (∀ y, p x → p y → lt x y = false) →
  filter p (insert_desc lt x l) = filter p (x :: l).
Proof.
  intros Hp. induction l as [|y l IH]; simpl; [done|].
  destruct (lt x y) eqn:Hxy; [|done].
  rewrite filter_cons, IH, !filter_cons.
  destruct (decide (p y)) as [Hy|]; [|done].
  destruct (decide (p x)) as [Hx|]; [|done].
  rewrite (Hp y Hx Hy) in Hxy. done.
Qed.

Lemma filter_sorted_reverse (p : A → Prop) `{∀ x, Decision (p x)} l :
  (∀ x y, p x → p y → lt x y = false) →
  filter p (sorted_reverse lt l) = filter p l.
Proof.
  intros Hp. induction l as [|x l IH]; simpl; [done|].
  rewrite filter_insert_desc by eauto.
  by rewrite !filter_cons, IH.
Qed.

(** [lt] compares keys taken from a total order. *)
Hypothesis lt_asym : ∀ x y, lt x y = true → lt y x = false.
Hypothesis lt_cotrans : ∀ x y z, lt x y = false → lt y z = false → lt x z = false.

Lemma insert_desc_sorted (R : A → A → Prop) x l :
  StronglySorted (desc_then lt R) l →
  Forall (R x) l →
  StronglySorted (desc_then lt R) (insert_desc lt x l).
Proof.
  induction 1 as [|y l Hl IH Hy]; intros Hx; simpl.
  { repeat constructor. }
  apply Forall_cons in Hx as [Hxy Hx].
  destruct (lt x y) eqn:E.
  - constructor; [by apply IH|].
    rewrite insert_desc_perm. constructor; [|done].
    split; [by apply lt_asym | by left].
  - constructor; [by constructor|].
    constructor; [split; [done | by right]|].
    rewrite Forall_forall in Hy, Hx |- *. intros z Hz.
    split; [|right; by apply Hx].
    destruct (Hy z Hz) as [Hyz _]. by eapply lt_cotrans.
Qed.

Lemma sorted_reverse_sorted (R : A → A → Prop) l :
  StronglySorted R l → StronglySorted (desc_then lt R) (sorted_reverse lt l).
Proof.
  induction 1 as [|x l Hl IH Hx]; simpl; [constructor|].
  apply insert_desc_sorted; [done|].
  by rewrite sorted_reverse_perm.
Qed.

Lemma StronglySorted_mono (R R' : A → A → Prop) (l : list A) :
  (∀ x y, R x y → R' x y) → StronglySorted R l → StronglySorted R' l.
Proof.
  intros HR. induction 1 as [|x l Hl IH Hx]; constructor; [done|].
  eapply Forall_impl; [exact Hx|]. auto.
Qed.

Lemma StronglySorted_True (l : list A) : StronglySorted (λ _ _, True) l.
Proof. induction l; constructor; [done|]. by apply Forall_forall. Qed.

Lemma sorted_reverse_desc l :
  StronglySorted (λ x y, lt x y = false) (sorted_reverse lt l).
Proof.
  eapply StronglySorted_mono;
    [|apply (sorted_reverse_sorted (λ _ _, True)), StronglySorted_True].
  by intros x y [? _].
Qed.

(** The head of the sorted list is the first element of maximal key. *)
Lemma sorted_reverse_head l m rest :
  sorted_reverse lt l = m :: rest →
  ∃ l1 l2, l = l1 ++ m :: l2
           ∧ Forall (λ y, lt y m = true) l1
           ∧ Forall (λ y, lt m y = false) l2.
Proof.
  revert m rest. induction l as [|x l IH]; intros m rest; simpl; [done|].
  pose proof (sorted_reverse_desc l) as Hs.
  pose proof (sorted_reverse_perm l) as Hp.
  destruct (sorted_reverse lt l) as [|m' rest'] eqn:E; simpl.
  - apply Permutation_nil_l in Hp as <-.
    intros [= <- <-]. exists [], []. by repeat constructor.
  - destruct (lt x m') eqn:Hx.
    + intros [= <- <-].
      destruct (IH _ _ eq_refl) as (l1 & l2 & -> & H1 & H2).
      exists (x :: l1), l2. by repeat constructor.
    + intros [= <- <-]. exists [], l. split; [done|]. split; [constructor|].
      rewrite <-Hp. apply StronglySorted_inv in Hs as [_ Hm'].
      constructor; [done|].
      eapply Forall_impl; [exact Hm'|]. simpl. intros z Hz. by eapply lt_cotrans.
Qed.

End SortFacts.

(** ** [Counter] *)

Section CounterFacts.
Context {A : Type} `{EqDecision A}.
Implicit Types (x y : A) (l : list A).

Lemma Counter_snoc l x : Counter (l ++ [x]) = counter_incr x (Counter l).
Proof. unfold Counter. by rewrite foldl_app. Qed.

Lemma primeras_snoc l x :
  primeras (l ++ [x]) =
    if decide (x ∈ primeras l) then primeras l else primeras l ++ [x].
Proof. unfold primeras. by rewrite foldl_app. Qed.

Lemma elem_of_primeras l x : x ∈ primeras l ↔ x ∈ l.
Proof.
  induction l as [|y l IH] using rev_ind.
  - done.
  - rewrite primeras_snoc. case_decide as Hy.
    + rewrite elem_of_app, list_elem_of_singleton, <-IH.
      split; [by left|]. by intros [?| ->].
    + by rewrite !elem_of_app, IH.
Qed.

Lemma NoDup_primeras l : NoDup (primeras l).
Proof.
  induction l as [|y l IH] using rev_ind.
  - constructor.
  - rewrite primeras_snoc. case_decide as Hy; [done|].
    apply NoDup_app. split_and!; [done| |apply NoDup_singleton].
    intros z Hz ->%list_elem_of_singleton. done.
Qed.

Lemma ocurrencias_snoc x l y :
  ocurrencias x (l ++ [y]) =
    (ocurrencias x l + if decide (y = x) then 1 else 0)%Z.
Proof.
  unfold ocurrencias. rewrite filter_app, length_app, filter_cons, filter_nil.
  case_decide; simpl; lia.
Qed.

Lemma ocurrencias_nonneg x l : (0 ≤ ocurrencias x l)%Z.
Proof. unfold ocurrencias. lia. Qed.

Lemma ocurrencias_notin x l : x ∉ l → ocurrencias x l = 0%Z.
Proof.
  unfold ocurrencias. induction l as [|y l IH]; [done|].
  intros [Hne Hx]%not_elem_of_cons.
  rewrite filter_cons, decide_False by done. by apply IH.
Qed.

Lemma ocurrencias_in x l : x ∈ l → (1 ≤ ocurrencias x l)%Z.
Proof.
  intros Hx. unfold ocurrencias.
  assert (x ∈ filter (λ y, y = x) l) as Hin by (by apply list_elem_of_filter).
  destruct (filter (λ y, y = x) l); [by apply elem_of_nil in Hin|].
  simpl. lia.
Qed.

Lemma counter_incr_map (f : A → Z) (ks : list A) x :
  NoDup ks →
  counter_incr x (map (λ y, (y, f y)) ks) =
    if decide (x ∈ ks)
    then map (λ y, (y, if decide (y = x) then (f y + 1)%Z else f y)) ks
    else map (λ y, (y, f y)) ks ++ [(x, 1%Z)].
Proof.
  induction 1 as [|k ks Hk Hks IH]; simpl.
  { done. }
  destruct (decide (x = k)) as [->|Hne].
  - rewrite decide_True by left. simpl. rewrite decide_True by done.
    f_equal. apply map_ext_in. intros y Hy%list_elem_of_In.
    rewrite decide_False; [done|]. by intros ->.
  - rewrite IH. rewrite (decide_False (P := k = x)) by done.
    destruct (decide (x ∈ ks)) as [Hx|Hx].
    + rewrite decide_True by (by right). done.
    + rewrite decide_False; [done|]. by intros [?|?]%elem_of_cons.
Qed.

(** The counter lists the elements in order of first occurrence, each with
    its number of occurrences. *)
Lemma Counter_spec l :
  Counter l = map (λ x, (x, ocurrencias x l)) (primeras l).
Proof.
  induction l as [|x l IH] using rev_ind; [done|].
  rewrite Counter_snoc, IH, counter_incr_map by apply NoDup_primeras.
  rewrite primeras_snoc. case_decide as Hx.
  - apply map_ext. intros y. rewrite ocurrencias_snoc.
    repeat case_decide; try congruence. f_equal; lia.
  - rewrite map_app. simpl. f_equal.
    + apply map_ext_in. intros y Hy%list_elem_of_In.
      rewrite ocurrencias_snoc, decide_False; [f_equal; lia|].
      intros ->. done.
    + rewrite ocurrencias_snoc, decide_True by done.
      rewrite ocurrencias_notin; [done|]. by rewrite <-elem_of_primeras.
Qed.

Lemma Counter_keys l : map fst (Counter l) = primeras l.
Proof.
  rewrite Counter_spec, map_map. simpl. apply map_id.
Qed.

Lemma NoDup_Counter_keys l : NoDup (map fst (Counter l)).
Proof. rewrite Counter_keys. apply NoDup_primeras. Qed.

Lemma elem_of_Counter x n l :
  (x, n) ∈ Counter l ↔ x ∈ l ∧ n = ocurrencias x l.
Proof.
  rewrite Counter_spec, list_elem_of_fmap. split.
  - intros (y & [= <- ->] & Hy). split; [by apply elem_of_primeras|done].
  - intros [Hx ->]. exists x. by rewrite elem_of_primeras.
Qed.

Lemma Counter_positive x n l : (x, n) ∈ Counter l → (1 ≤ n)%Z.
Proof. intros [Hx ->]%elem_of_Counter. by apply ocurrencias_in. Qed.

(** An element of [primeras l] sits where its first occurrence in [l]
    falls among the first occurrences of the others. *)
Lemma primeras_split l k1 d k2 :
  primeras l = k1 ++ d :: k2 →
  ∃ l1 l2, l = l1 ++ d :: l2 ∧ (d ∉ l1) ∧ ∀ q, q ∈ l1 → q ∈ k1.
Proof.
  revert k1 d k2. induction l as [|x l IH] using rev_ind; intros k1 d k2.
  { intros Hnil. by destruct k1. }
  rewrite primeras_snoc. case_decide as Hx.
  - intros (l1 & l2 & -> & Hd & Hq)%IH.
    exists l1, (l2 ++ [x]). by rewrite <-app_assoc.
  - destruct k2 as [|y k2 _] using rev_ind.
    + intros [Hk ->]%app_inj_tail.
      exists l, []. split; [done|]. rewrite <-Hk. split.
      * by rewrite <-elem_of_primeras.
      * intros q. by rewrite elem_of_primeras.
    + rewrite app_comm_cons, app_assoc.
      intros [(l1 & l2 & -> & Hd & Hq)%IH ->]%app_inj_tail.
      exists l1, (l2 ++ [y]). by rewrite <-app_assoc.
Qed.

(** [primeras l] lists the elements by the position of their first
    occurrence. *)
Lemma indice_app_notin l1 l2 x :
  x ∉ l1 → indice x (l1 ++ l2) = length l1 + indice x l2.
Proof.
  induction l1 as [|y l1 IH]; [done|].
  intros [Hne Hx]%not_elem_of_cons. cbn [app indice length].
  rewrite decide_False by done. rewrite IH by done. lia.
Qed.

Lemma StronglySorted_split (R : A → A → Prop) l :
  (∀ k1 d k2 e, l = k1 ++ d :: k2 → e ∈ k2 → R d e) → StronglySorted R l.
Proof.
  induction l as [|x l IH]; intros HR; constructor.
  - apply IH. intros k1 d k2 e -> He. by apply (HR (x :: k1) d k2 e).
  - apply Forall_forall. intros e He. by apply (HR [] x l e).
Qed.

Lemma primeras_sorted_indice l :
  StronglySorted (λ x y, indice x l < indice y l) (primeras l).
Proof.
  apply StronglySorted_split. intros k1 d k2 e Hk He.
  pose proof (NoDup_primeras l) as Hnd. rewrite Hk in Hnd.
  apply NoDup_app in Hnd as (_ & Hdis & [Hd _]%NoDup_cons).
  destruct (primeras_split l k1 d k2 Hk) as (l1 & l2 & -> & Hd1 & Hl1).
  assert (e ∉ l1) as He1.
  { intros Hin%Hl1. apply (Hdis e Hin). by right. }
  rewrite !indice_app_notin by done. cbn [indice].
  rewrite decide_True by done.
  rewrite decide_False; [lia|]. intros ->. done.
Qed.

End CounterFacts.

(** ** Rational comparisons *)

Lemma Qltb_lt (x y : Q) : Qltb x y = true ↔ (x < y)%Q.
Proof.
  unfold Qltb. rewrite negb_true_iff, <-not_true_iff_false, Qle_bool_iff.
  split; [apply Qnot_le_lt | apply Qlt_not_le].
Qed.

Lemma Qltb_ge (x y : Q) : Qltb x y = false ↔ (y <= x)%Q.
Proof.
  unfold Qltb. rewrite negb_false_iff, Qle_bool_iff. done.
Qed.

Lemma Qltb_asym {A} (k : A → Q) x y :
  Qltb (k x) (k y) = true → Qltb (k y) (k x) = false.
Proof. rewrite Qltb_lt, Qltb_ge. apply Qlt_le_weak. Qed.

Lemma Qltb_cotrans {A} (k : A → Q) x y z :
  Qltb (k x) (k y) = false → Qltb (k y) (k z) = false → Qltb (k x) (k z) = false.
Proof. rewrite !Qltb_ge. intros Hyx Hzy. exact (Qle_trans _ _ _ Hzy Hyx). Qed.

Lemma Zltb_asym {A} (k : A → Z) x y :
  (k x <? k y)%Z = true → (k y <? k x)%Z = false.
Proof. lia. Qed.

Lemma Zltb_cotrans {A} (k : A → Z) x y z :
  (k x <? k y)%Z = false → (k y <? k z)%Z = false → (k x <? k z)%Z = false.
Proof. lia. Qed.

Lemma inject_Z_nonneg (n : Z) : (0 ≤ n)%Z → (0 <= inject_Z n)%Q.
Proof. intros Hn. change 0%Q with (inject_Z 0). by rewrite <-Zle_Qle. Qed.

Lemma Qdiv_nonneg (x c : Q) : (0 <= x)%Q → (0 < c)%Q → (0 <= x / c)%Q.
Proof.
  intros Hx Hc. unfold Qdiv. apply Qmult_le_0_compat; [done|].
  apply Qinv_le_0_compat. by apply Qlt_le_weak.
Qed.

(** ** Sublists of sorted lists *)

Lemma StronglySorted_sublist {A} (R : A → A → Prop) (l k : list A) :
  sublist k l → StronglySorted R l → StronglySorted R k.
Proof.
  intros Hsub Hl. revert k Hsub.
  induction Hl as [|x l Hl IH Hx]; intros k Hsub.
  - apply sublist_nil_r in Hsub as ->. constructor.
  - apply sublist_cons_r in Hsub as [Hsub|(k' & -> & Hsub)]; [by apply IH|].
    constructor; [by apply IH|].
    rewrite Forall_forall in Hx |- *. intros y Hy. apply Hx.
    by eapply elem_of_sublist.
Qed.

Lemma StronglySorted_fmap {A B} (f : A → B) (R : B → B → Prop) (l : list A) :
  StronglySorted R (f <$> l) ↔ StronglySorted (λ x y, R (f x) (f y)) l.
Proof.
  induction l as [|x l IH]; simpl.
  - split; constructor.
  - split; intros [Hl Hx]%StronglySorted_inv; constructor;
      try (by apply IH); rewrite Forall_fmap in *; done.
Qed.

Lemma NoDup_fst_functional {A B} (l : list (A * B)) x y1 y2 :
  NoDup (map fst l) → (x, y1) ∈ l → (x, y2) ∈ l → y1 = y2.
Proof.
  induction l as [|[x' y'] l IH]; simpl.
  { by intros _ ?%elem_of_nil. }
  intros [Hx Hnd]%NoDup_cons [H1|H1]%elem_of_cons [H2|H2]%elem_of_cons.
  - congruence.
  - injection H1 as -> ->. destruct Hx. apply list_elem_of_fmap. by exists (x', y2).
  - injection H2 as -> ->. destruct Hx. apply list_elem_of_fmap. by exists (x', y1).
  - by apply IH.
Qed.

(** ** One run of the trend tracker *)

Section TrendFacts.
Context `{Runtime}.
Implicit Types (s : Redis.store) (t : TrendingTopic).

Lemma aceptado_iff t :
  aceptado t ↔
    (0.3 < probabilidad_viral t)%Q ∨ (50 < crecimiento_24h t)%Q.
Proof.
  unfold aceptado, potencial_viral. by rewrite orb_true_iff, !Qltb_lt.
Qed.

(** [_analyze_trend] writes the count whatever the admission test says, and
    returns the candidate's metrics exactly when the test passes. *)
Lemma _analyze_trend_eq h c arts s :
  _analyze_trend h c arts s =
    (if decide (aceptado (candidato h c arts s))
     then Some (candidato h c arts s) else None,
     escrituras [(h, c)] s).
Proof.
  destruct (decide (aceptado (candidato h c arts s))) as [Ha|Ha];
    unfold aceptado in Ha; [|apply not_true_is_false in Ha];
    unfold _analyze_trend, escrituras, mbind, redis_bind,
      Redis.bind, Redis.get, Redis.setex, mret, redis_ret, Redis.ret;
    unfold candidato, Redis.get in Ha; cbn [fst snd] in Ha |- *;
    cbn [probabilidad_viral crecimiento_24h] in Ha; by rewrite Ha.
Qed.

Lemma escrituras_cons hc cands s :
  escrituras (hc :: cands) s = escrituras cands (escrituras [hc] s).
Proof. done. Qed.

Lemma analizar_candidatos_eq cands arts s :
  analizar_candidatos cands arts s =
    (filter aceptado (puntuados cands arts s), escrituras cands s).
Proof.
  revert s. induction cands as [|[h c] cands IH]; intros s; [done|].
  cbn [analizar_candidatos puntuados].
  unfold mbind, redis_bind, Redis.bind at 1.
  rewrite _analyze_trend_eq.
  unfold Redis.bind. rewrite IH. unfold mret, redis_ret, Redis.ret.
  rewrite filter_cons, <-escrituras_cons.
  by destruct (decide (aceptado _)).
Qed.

Lemma extract_hashtags_and_trends_eq arts s :
  extract_hashtags_and_trends arts s =
    ((sorted_reverse
        (λ x y, Qltb (probabilidad_viral x) (probabilidad_viral y))
        (filter aceptado (puntuados_de arts s)),
      etiquetar arts),
     escrituras (candidatos arts) s).
Proof.
  unfold extract_hashtags_and_trends, mbind, redis_bind, Redis.bind.
  by rewrite analizar_candidatos_eq.
Qed.

Lemma tendencias_eq arts s :
  tendencias arts s =
    sorted_reverse
      (λ x y, Qltb (probabilidad_viral x) (probabilidad_viral y))
      (filter aceptado (puntuados_de arts s)).
Proof. unfold tendencias. by rewrite extract_hashtags_and_trends_eq. Qed.

Lemma store_final_eq arts s :
  store_final arts s = escrituras (candidatos arts) s.
Proof. unfold store_final. by rewrite extract_hashtags_and_trends_eq. Qed.

Lemma elem_of_tendencias t arts s :
  t ∈ tendencias arts s ↔ t ∈ puntuados_de arts s ∧ aceptado t.
Proof.
  by rewrite tendencias_eq, elem_of_sorted_reverse, list_elem_of_filter, (comm and).
Qed.

(** Every scored candidate is the record of one candidate of the run. *)
Lemma elem_of_puntuados t cands arts s :
  t ∈ puntuados cands arts s →
  ∃ h c s', (h, c) ∈ cands ∧ t = candidato h c arts s'.
Proof.
  revert s. induction cands as [|[h c] cands IH]; intros s; simpl.
  { by intros ?%elem_of_nil. }
  intros [->|Ht]%elem_of_cons.
  - exists h, c, s. split; [left|done].
  - destruct (IH _ Ht) as (h' & c' & s' & Hin & ->).
    exists h', c', s'. split; [by right|done].
Qed.

Lemma puntuados_cuentas cands arts s :
  map (λ t, (hashtag t, menciones t)) (puntuados cands arts s) = cands.
Proof.
  revert s. induction cands as [|[h c] cands IH]; intros s; simpl; [done|].
  by rewrite IH.
Qed.

(** A scored candidate with the candidates analysed before it. *)
Lemma elem_of_puntuados_split t cands arts s :
  t ∈ puntuados cands arts s →
  ∃ h c pre post,
    cands = pre ++ (h, c) :: post
    ∧ t = candidato h c arts (escrituras pre s).
Proof.
  revert s. induction cands as [|[h c] cands IH]; intros s; simpl.
  { by intros ?%elem_of_nil. }
  intros [->|Ht]%elem_of_cons.
  - by exists h, c, [], cands.
  - destruct (IH _ Ht) as (h' & c' & pre & post & -> & ->).
    by exists h', c', ((h, c) :: pre), post.
Qed.

(** *** The candidates *)

Lemma candidatos_sublist arts :
  ∃ hs, candidatos arts ⊆ Counter hs
        ∧ NoDup (map fst (candidatos arts))
        ∧ StronglySorted (λ x y, (y.2 ≤ x.2)%Z) (candidatos arts).
Proof.
  unfold candidatos, most_common.
  set (hs := concat _). exists hs.
  set (lt := λ x y : string * Z, (x.2 <? y.2)%Z).
  split_and!.
  - intros x Hx. apply (elem_of_sorted_reverse lt).
    by eapply elem_of_sublist, sublist_take.
  - eapply sublist_NoDup; [|apply fmap_sublist, sublist_take].
    rewrite (sorted_reverse_perm lt). apply NoDup_Counter_keys.
  - eapply StronglySorted_sublist; [apply sublist_take|].
    eapply StronglySorted_mono; [|apply (sorted_reverse_desc lt)].
    + unfold lt. intros x y. lia.
    + intros x y. apply (Zltb_asym snd).
    + intros x y z. apply (Zltb_cotrans snd).
Qed.

Lemma candidatos_positive arts h c : (h, c) ∈ candidatos arts → (1 ≤ c)%Z.
Proof.
  destruct (candidatos_sublist arts) as (hs & Hsub & _).
  intros Hin%Hsub. by eapply Counter_positive.
Qed.

End TrendFacts.

(** ** The viral probability and the growth rule *)

Section Scores.
Context `{Runtime}.

Lemma _calculate_viral_probability_le_1 m g v i :
  (_calculate_viral_probability m g v i <= 1)%Q.
Proof. unfold _calculate_viral_probability. apply Q.le_min_r. Qed.

(** With no negative count the only term that can be negative is the growth
    term, and only when the growth is. *)
Lemma _calculate_viral_probability_nonneg m g v i :
  (0 ≤ m)%Z → (0 <= g)%Q → (0 <= v)%Q → (0 <= i)%Q →
  (0 <= _calculate_viral_probability m g v i)%Q.
Proof.
  intros Hm%inject_Z_nonneg Hg Hv Hi. unfold _calculate_viral_probability.
  assert (0 <= Qmin (inject_Z m / 100) 1)%Q
    by (apply Q.min_glb; [apply Qdiv_nonneg|]; done).
  assert (0 <= Qmin (g / 200) 1)%Q
    by (apply Q.min_glb; [apply Qdiv_nonneg|]; done).
  assert (0 <= Qmin (v / 10) 1)%Q
    by (apply Q.min_glb; [apply Qdiv_nonneg|]; done).
  apply Q.min_glb; lra.
Qed.

Lemma candidato_range h c arts s :
  (0 ≤ c)%Z →
  aceptado (candidato h c arts s) →
  (0 <= probabilidad_viral (candidato h c arts s) <= 1)%Q.
Proof.
  intros Hc [Hp|Hg]%aceptado_iff.
  - split; [lra|]. apply _calculate_viral_probability_le_1.
  - split; [|apply _calculate_viral_probability_le_1].
    cbn [candidato probabilidad_viral crecimiento_24h] in *.
    apply _calculate_viral_probability_nonneg; [done|lra| |apply Qabs_nonneg].
    apply Qdiv_nonneg; [by apply inject_Z_nonneg|done].
Qed.

(** C4. Every topic a run returns has its viral probability between 0 and
    1, whatever the store held as the previous count: a candidate whose growth
    is negative enough to make the weighted sum negative fails the admission
    test. *)
Theorem viral_probability_range arts s t :
  t ∈ tendencias arts s →
  (0 <= probabilidad_viral t <= 1)%Q.
Proof.
  intros [Ht Ha]%elem_of_tendencias.
  apply elem_of_puntuados in Ht as (h & c & s' & Hin & ->).
  apply candidato_range; [|done].
  apply candidatos_positive in Hin. lia.
Qed.

(** C6. A candidate of a run is returned exactly when its viral probability
    exceeds 0.3 or its growth exceeds 50. *)
Theorem admission_filter arts s t :
  t ∈ puntuados_de arts s →
  (t ∈ tendencias arts s ↔
     (0.3 < probabilidad_viral t)%Q ∨ (50 < crecimiento_24h t)%Q)
  ∧ potencial_viral 0.29 40 = false
  ∧ potencial_viral 0.1 55 = true.
Proof.
  intros Ht. split; [|done].
  rewrite elem_of_tendencias, aceptado_iff. tauto.
Qed.

End Scores.

(** ** The counter store after a run *)

Lemma str_length_app (a b : string) :
  String.length (a +:+ b) = String.length a + String.length b.
Proof. induction a as [|c a IH]; simpl; [done|]. by rewrite IH. Qed.

Lemma str_app_assoc (a b c : string) : (a +:+ b) +:+ c = a +:+ (b +:+ c).
Proof.
  induction a as [|x a IH]; [done|].
  change (String x ((a +:+ b) +:+ c) = String x (a +:+ (b +:+ c))).
  by rewrite IH.
Qed.

Section StoreFacts.
Context `{Runtime}.
Implicit Types (s : Redis.store).

Lemma redis_key_inj : Inj (=) (=) redis_key.
Proof. intros h h' Heq. unfold redis_key in Heq. by simplify_eq/=. Qed.

(** The key read is never the key written for the same hashtag. *)
Lemma redis_key_24h_ne h : redis_key_24h h ≠ redis_key h.
Proof.
  unfold redis_key_24h. intros Heq%(f_equal String.length).
  rewrite str_length_app in Heq. simpl in Heq. lia.
Qed.

Lemma escrituras_lookup_notin cands s k :
  k ∉ map (λ hc, redis_key hc.1) cands →
  escrituras cands s !! k = s !! k.
Proof.
  revert s. induction cands as [|[h c] cands IH]; intros s; [done|].
  rewrite fmap_cons, not_elem_of_cons. intros [Hne Hk].
  rewrite escrituras_cons, IH by done.
  unfold escrituras. simpl. by rewrite lookup_insert_ne.
Qed.

Lemma escrituras_lookup cands s h c :
  NoDup (map fst cands) →
  (h, c) ∈ cands →
  escrituras cands s !! redis_key h = Some (Redis.mkEntry c 86400).
Proof.
  revert s. induction cands as [|[h' c'] cands IH]; intros s.
  { by intros _ ?%elem_of_nil. }
  rewrite fmap_cons, NoDup_cons, escrituras_cons. simpl.
  intros [Hh' Hnd] [[= -> ->]|Hin]%elem_of_cons.
  - rewrite escrituras_lookup_notin.
    + unfold escrituras. simpl. by rewrite lookup_insert_eq.
    + intros (hc & Hk%redis_key_inj & Hhc)%list_elem_of_fmap.
      apply Hh'. apply list_elem_of_fmap. by exists hc.
  - by apply IH.
Qed.

(** C10. The count of every candidate of a run, returned or not, is in the
    store after the run, under the candidate's key and with a TTL of 24 hours;
    the store after the run is the store before it with one write per
    candidate, so the admission test has no part in it. *)
Theorem counter_written_for_every_candidate arts s h c :
  (h, c) ∈ candidatos arts →
  store_final arts s !! redis_key h = Some (Redis.mkEntry c 86400)
  ∧ store_final arts s = escrituras (candidatos arts) s
  ∧ ∀ t, t ∈ tendencias arts s → aceptado t.
Proof.
  intros Hin. rewrite store_final_eq. split_and!; [|done|].
  - destruct (candidatos_sublist arts) as (_ & _ & Hnd & _).
    by apply escrituras_lookup.
  - by intros t [_ ?]%elem_of_tendencias.
Qed.

(** A run leaves alone what it reads as the previous count of a hashtag,
    unless another candidate is named like the hashtag followed by [:24h]. *)
Lemma previous_count_untouched arts s h :
  (∀ c, (h +:+ ":24h", c) ∉ candidatos arts) →
  store_final arts s !! redis_key_24h h = s !! redis_key_24h h.
Proof.
  intros Hh. rewrite store_final_eq. apply escrituras_lookup_notin.
  intros ([h' c] & Hk & Hin)%list_elem_of_fmap. apply (Hh c).
  unfold redis_key_24h, redis_key in Hk. simpl in Hk.
  rewrite str_app_assoc in Hk. apply String.app_inj in Hk. by subst h'.
Qed.

End StoreFacts.

(** ** The order of the returned list *)

Section Order.
Context `{Runtime}.

Lemma Counter_sorted_indice {A} `{EqDecision A} (l : list A) :
  StronglySorted (λ x y, indice x.1 l < indice y.1 l) (Counter l).
Proof.
  rewrite Counter_spec.
  apply (StronglySorted_fmap (λ x, (x, ocurrencias x l))
           (λ x y, indice x.1 l < indice y.1 l)).
  apply primeras_sorted_indice.
Qed.

(** The candidates: the more mentioned first, and among equally mentioned
    ones the one counted first. *)
Lemma candidatos_sorted_conteo arts :
  StronglySorted
    (λ x y, (y.2 < x.2)%Z
            ∨ (x.2 = y.2
               ∧ indice x.1 (concat (map (λ a, _extract_hashtags (texto a)) arts))
                 < indice y.1 (concat (map (λ a, _extract_hashtags (texto a)) arts))))
    (candidatos arts).
Proof.
  unfold candidatos, most_common.
  set (todos := concat _).
  set (lt := λ x y : string * Z, (x.2 <? y.2)%Z).
  eapply StronglySorted_sublist; [apply sublist_take|].
  eapply StronglySorted_mono;
    [|apply (sorted_reverse_sorted lt) with
        (R := λ x y : string * Z, indice x.1 todos < indice y.1 todos)].
  - unfold lt. intros x y [Hge [Hlt|Hi]]; [left; lia|].
    destruct (decide (y.2 < x.2)%Z); [by left|right]. split; [lia|done].
  - intros x y. apply (Zltb_asym snd).
  - intros x y z. apply (Zltb_cotrans snd).
  - apply Counter_sorted_indice.
Qed.

(** Two arrangements of the same distinct elements that obey the same
    asymmetric order are the same list. *)
Lemma sorted_unique {A} (R : A → A → Prop) (l l' : list A) :
  (∀ x y, R x y → R y x → False) →
  NoDup l → l' ≡ₚ l →
  StronglySorted R l → StronglySorted R l' → l' = l.
Proof.
  intros Hasym Hnd. revert l'.
  induction l as [|x l IH]; intros l' Hp Hl Hl'.
  { by apply Permutation_nil_r in Hp. }
  apply NoDup_cons in Hnd as [Hx Hnd].
  apply StronglySorted_inv in Hl as [Hl Hxl].
  destruct l' as [|y l']; [by apply Permutation_nil_cons in Hp|].
  apply StronglySorted_inv in Hl' as [Hl' Hyl'].
  assert (y = x) as ->.
  { assert (y ∈ x :: l) as [?|Hy]%elem_of_cons by (rewrite <-Hp; left); [done|].
    assert (x ∈ y :: l') as [?|Hx']%elem_of_cons by (rewrite Hp; left); [done|].
    exfalso. rewrite Forall_forall in Hxl, Hyl'.
    exact (Hasym x y (Hxl y Hy) (Hyl' x Hx')). }
  f_equal. apply IH; [done| |done|done]. by eapply Permutation_cons_inv.
Qed.

Lemma puntuados_de_cuentas arts s :
  map (λ t, (hashtag t, menciones t)) (puntuados_de arts s) = candidatos arts.
Proof. apply puntuados_cuentas. Qed.

Lemma puntuados_de_sorted arts s :
  StronglySorted (λ t1 t2, (menciones t2 ≤ menciones t1)%Z) (puntuados_de arts s).
Proof.
  destruct (candidatos_sublist arts) as (_ & _ & _ & Hs).
  rewrite <-(puntuados_de_cuentas arts s) in Hs.
  by apply (StronglySorted_fmap (λ t, (hashtag t, menciones t))) in Hs.
Qed.

(** C8, as the code has it. The returned list is sorted by viral
    probability, highest first; topics of equal viral probability have the
    one with more mentions first; topics equal in both stand in the order in
    which their hashtags were first counted in the batch. No comparison of the
    tokens takes place. The returned topics admit no other arrangement that
    obeys this order. *)
Theorem tendencias_sorted_stable arts s :
  let all_hashtags := concat (map (λ a, _extract_hashtags (texto a)) arts) in
  StronglySorted (precede_conteo all_hashtags) (tendencias arts s)
  ∧ (∀ l, l ≡ₚ tendencias arts s →
          StronglySorted (precede_conteo all_hashtags) l →
          l = tendencias arts s)
  ∧ (∀ p : Q,
       filter (λ t, Qeq_bool (probabilidad_viral t) p = true) (tendencias arts s)
       = filter (λ t, Qeq_bool (probabilidad_viral t) p = true)
           (filter aceptado (puntuados_de arts s)))
  ∧ map (λ t, (hashtag t, menciones t)) (puntuados_de arts s) = candidatos arts.
Proof.
  intros todos.
  assert (StronglySorted (precede_conteo todos) (tendencias arts s)) as Hs.
  { rewrite tendencias_eq.
    eapply StronglySorted_mono;
      [|apply sorted_reverse_sorted with
          (R := λ t1 t2 : TrendingTopic,
                  (menciones t2 < menciones t1)%Z
                  ∨ (menciones t1 = menciones t2
                     ∧ indice (hashtag t1) todos < indice (hashtag t2) todos))].
    - intros t1 t2 [Hge%Qltb_ge [Hlt%Qltb_lt|Hm]]; [by left|].
      apply Qle_lt_or_eq in Hge as [Hlt|Heq]; [by left|].
      right. split; [by symmetry|exact Hm].
    - intros x y. apply (Qltb_asym probabilidad_viral).
    - intros x y z. apply (Qltb_cotrans probabilidad_viral).
    - eapply StronglySorted_sublist; [apply sublist_filter|].
      pose proof (candidatos_sorted_conteo arts) as Hc. fold todos in Hc.
      rewrite <-(puntuados_de_cuentas arts s) in Hc.
      by apply (StronglySorted_fmap (λ t, (hashtag t, menciones t))) in Hc. }
  split_and!; [exact Hs| | |apply puntuados_de_cuentas].
  - intros l Hl Hsl. apply (sorted_unique (precede_conteo todos)); try done.
    + unfold precede_conteo. intros x y Hxy Hyx.
      destruct Hxy as [?|[? [?|[? ?]]]], Hyx as [?|[? [?|[? ?]]]]; lra || lia.
    + apply (NoDup_fmap_1 hashtag).
      rewrite tendencias_eq, (sorted_reverse_perm _).
      eapply sublist_NoDup; [|apply fmap_sublist, sublist_filter].
      destruct (candidatos_sublist arts) as (_ & _ & Hnd & _).
      rewrite <-(puntuados_de_cuentas arts s), <-list_fmap_compose in Hnd.
      exact Hnd.
  - intros p. rewrite tendencias_eq. apply filter_sorted_reverse.
    intros x y Hx%Qeq_bool_iff Hy%Qeq_bool_iff. apply Qltb_ge.
    rewrite Hx, Hy. apply Qle_refl.
Qed.

End Order.

(** ** The growth against the previous window *)

Section Growth.
Context `{Runtime}.

(** The candidates analysed before one leave alone what is read as its
    previous count. *)
Lemma escrituras_previo pre post arts s h c :
  candidatos arts = pre ++ (h, c) :: post →
  (∀ c', (h +:+ ":24h", c') ∉ candidatos arts) →
  escrituras pre s !! redis_key_24h h = s !! redis_key_24h h.
Proof.
  intros Hc Hcol. apply escrituras_lookup_notin.
  intros ([h2 c2] & Hk & Hin2)%list_elem_of_fmap.
  unfold redis_key_24h, redis_key in Hk. simpl in Hk.
  rewrite str_app_assoc in Hk. apply String.app_inj in Hk. subst h2.
  apply (Hcol c2). rewrite Hc, elem_of_app. by left.
Qed.

(** C7. The growth [_analyze_trend] computes for a hashtag with [current]
    mentions against the count [prior >= 0] held under the hashtag's [:24h]
    key (0 when there is none): with [prior = 0] it is 100 when [current]
    exceeds 5 and 0 otherwise; with [prior > 0] it is
    [(current - prior) / prior * 100]. Every topic the function returns
    carries this growth, a growth above 50 makes it return one, and the same
    holds of the topic a whole run returns for a candidate. *)
Theorem growth_rule h current arts s :
  let prior := match s !! redis_key_24h h with
               | Some e => Redis.value e
               | None => 0%Z
               end in
  let growth : Q :=
    if decide (prior = 0%Z) then
      if decide (5 < current)%Z then 100%Q else 0%Q
    else (inject_Z (current - prior) / inject_Z prior * 100)%Q in
  (0 ≤ prior)%Z →
  (∀ t, (_analyze_trend h current arts s).1 = Some t →
        hashtag t = h ∧ menciones t = current ∧ crecimiento_24h t = growth)
  ∧ ((50 < growth)%Q → is_Some (_analyze_trend h current arts s).1)
  ∧ ((h, current) ∈ candidatos arts →
     (∀ c, (h +:+ ":24h", c) ∉ candidatos arts) →
     (∀ t, t ∈ tendencias arts s → hashtag t = h →
           menciones t = current ∧ crecimiento_24h t = growth)
     ∧ ((50 < growth)%Q → h ∈ map hashtag (tendencias arts s)))
  ∧ crecimiento_de 6 0 = 100%Q
  ∧ crecimiento_de 3 0 = 0%Q.
Proof.
  intros prior growth Hprior.
  assert (crecimiento_de current prior = growth) as Hg.
  { unfold growth, crecimiento_de. destruct (decide (prior = 0%Z)) as [->|Hne].
    - simpl. case_decide.
      + by rewrite (proj2 (Z.ltb_lt 5 current)).
      + by rewrite (proj2 (Z.ltb_ge 5 current)) by lia.
    - by rewrite (proj2 (Z.ltb_lt 0 prior)) by lia. }
  assert (∀ arts' s', s' !! redis_key_24h h = s !! redis_key_24h h →
                      crecimiento_24h (candidato h current arts' s') = growth)
    as Hcand.
  { intros arts' s' Hs'. cbn [candidato crecimiento_24h]. rewrite <-Hg. f_equal.
    unfold Redis.get. cbn [fst]. rewrite Hs'. unfold prior.
    by destruct (s !! redis_key_24h h). }
  split_and!; [| | |done|done].
  - intros t. rewrite _analyze_trend_eq. cbn [fst].
    case_decide; [|done]. intros [= <-]. split_and!; [done|done|].
    by apply Hcand.
  - intros Hgrowth. rewrite _analyze_trend_eq. cbn [fst].
    rewrite decide_True; [by eexists|].
    apply aceptado_iff. right. by rewrite Hcand.
  - intros Hin Hcol.
    assert (NoDup (map fst (candidatos arts))) as Hnd
      by (destruct (candidatos_sublist arts) as (_ & _ & ? & _); done).
    assert (∀ t, t ∈ puntuados_de arts s → hashtag t = h →
                 menciones t = current ∧ crecimiento_24h t = growth) as Hrule.
    { intros t (h' & c' & pre & post & Hc & ->)%elem_of_puntuados_split Hh.
      cbn [candidato hashtag] in Hh. subst h'.
      assert ((h, c') ∈ candidatos arts) as Hin'
        by (rewrite Hc, elem_of_app; right; left).
      assert (c' = current) as -> by exact (NoDup_fst_functional _ _ _ _ Hnd Hin' Hin).
      split; [done|]. apply Hcand. by eapply escrituras_previo. }
    split.
    + intros t [Ht _]%elem_of_tendencias. by apply Hrule.
    + intros Hgrowth. rewrite <-(puntuados_de_cuentas arts s) in Hin.
      apply list_elem_of_fmap in Hin as (t & [= Hh Hm] & Ht).
      apply list_elem_of_fmap. exists t. split; [done|].
      apply elem_of_tendencias. split; [done|].
      apply aceptado_iff. right.
      destruct (Hrule t Ht (eq_sym Hh)) as [_ ->]. done.
Qed.

End Growth.

(** ** The collective analysis *)

Section ColectivoFacts.
Context `{Runtime}.

(** The most common element of a non-empty list: none occurs more often,
    and whatever comes before its first occurrence occurs less often. *)
Lemma most_common_1 {A} `{EqDecision A} (l : list A) :
  l ≠ [] →
  ∃ d n rest,
    most_common 1 (Counter l) = (d, n) :: rest
    ∧ (∀ q, (ocurrencias q l ≤ ocurrencias d l)%Z)
    ∧ ∃ l1 l2, l = l1 ++ d :: l2
               ∧ (d ∉ l1)
               ∧ ∀ q, q ∈ l1 → (ocurrencias q l < ocurrencias d l)%Z.
Proof.
  intros Hne. unfold most_common.
  set (lt := λ x y : A * Z, (x.2 <? y.2)%Z).
  destruct (sorted_reverse lt (Counter l)) as [|[d n] rest] eqn:E.
  { exfalso. pose proof (sorted_reverse_perm lt (Counter l)) as Hp.
    rewrite E in Hp. apply Permutation_nil_l in Hp.
    destruct l as [|x l]; [done|].
    assert ((x, ocurrencias x (x :: l)) ∈ Counter (x :: l)) as Hx
      by (apply elem_of_Counter; split; [left|done]).
    rewrite <-Hp in Hx. by apply elem_of_nil in Hx. }
  apply sorted_reverse_head in E as (c1 & c2 & Hc & H1 & H2);
    [|intros x y; apply (Zltb_asym snd)|intros x y z; apply (Zltb_cotrans snd)].
  assert (n = ocurrencias d l) as ->.
  { apply (elem_of_Counter d n l). rewrite Hc, elem_of_app. right. left. }
  exists d, (ocurrencias d l), (take 0 rest). split; [done|]. split.
  - intros q. destruct (decide (q ∈ l)) as [Hq|Hq].
    + assert ((q, ocurrencias q l) ∈ Counter l) as Hin by (by apply elem_of_Counter).
      rewrite Hc, elem_of_app, elem_of_cons in Hin.
      rewrite Forall_forall in H1, H2.
      destruct Hin as [Hin|[Heq|Hin]].
      * apply H1 in Hin. unfold lt in Hin. simpl in Hin. lia.
      * injection Heq as -> _. lia.
      * apply H2 in Hin. unfold lt in Hin. simpl in Hin. lia.
    + rewrite (ocurrencias_notin q l Hq). apply ocurrencias_nonneg.
  - pose proof (Counter_keys l) as Hk.
    rewrite Hc, map_app in Hk. simpl in Hk. symmetry in Hk.
    apply primeras_split in Hk as (l1 & l2 & Hl & Hd & Hq).
    exists l1, l2. split_and!; [done..|].
    intros q ([q' k] & -> & Hin)%Hq%list_elem_of_fmap. simpl.
    assert ((q', k) ∈ Counter l) as [_ ->]%elem_of_Counter
      by (rewrite Hc, elem_of_app; by left).
    rewrite Forall_forall in H1. apply H1 in Hin.
    unfold lt in Hin. simpl in Hin. lia.
Qed.

(** The summation loops of [_calculate_social_tension]. *)
Lemma negativa_iff (e : Emocion) :
  bool_decide (Emocion_value e ∈ ["enojo"; "miedo"; "tristeza"; "disgusto"])
  = bool_decide (e ∈ Spec.negative_emotions).
Proof. destruct e; vm_compute; reflexivity. Qed.

Lemma intensidad_articulo (acc : Q) (ems : list (Emocion * Q)) :
  (foldl (λ acc es,
            if bool_decide (Emocion_value es.1 ∈ ["enojo"; "miedo"; "tristeza"; "disgusto"])
            then (acc + es.2)%Q else acc) acc ems
   == acc + Qsum (map snd (filter (λ es, es.1 ∈ Spec.negative_emotions) ems)))%Q.
Proof.
  revert acc. induction ems as [|[e x] ems IH]; intros acc.
  { simpl. ring. }
  cbn [foldl]. rewrite IH, filter_cons, negativa_iff. cbn [fst snd].
  unfold bool_decide.
  destruct (decide_rel elem_of e Spec.negative_emotions); simpl; ring.
Qed.

Lemma intensidad_lote (acc : Q) (arts : list Articulo) :
  (foldl (λ acc a,
            foldl (λ acc es,
                     if bool_decide (Emocion_value es.1 ∈ ["enojo"; "miedo"; "tristeza"; "disgusto"])
                     then (acc + es.2)%Q else acc)
                  acc (emociones a))
         acc arts
   == acc + Qsum (map Spec.negative_intensity arts))%Q.
Proof.
  revert acc. induction arts as [|a arts IH]; intros acc.
  { simpl. ring. }
  cbn [foldl]. rewrite IH, intensidad_articulo. simpl.
  unfold Spec.negative_intensity. ring.
Qed.

(** On a non-empty batch the code returns 100 times the score of the
    specification, cut at 100. *)
Lemma tension_is_hundredfold arts trends :
  arts ≠ [] →
  (_calculate_social_tension arts trends
   == Qmin (100 * (100 * Spec.weighted_sum arts trends)) 100)%Q.
Proof.
  intros Hne. unfold _calculate_social_tension, Spec.weighted_sum.
  apply Q.min_compat; [|done].
  rewrite intensidad_lote.
  unfold Spec.fraction. destruct arts as [|a arts]; [done|].
  set (L := Qlen (a :: arts)). unfold Qdiv.
  destruct trends; ring.
Qed.

(** C9, as the code has it. On a non-empty batch the analysis returns a
    snapshot whose dominant polarity is one of maximal frequency in the batch;
    among several of maximal frequency it is the one met first in the batch:
    every polarity met before it is less frequent. *)
Theorem dominant_polarity_first_most_frequent arts trends :
  arts ≠ [] →
  ∃ snap,
    analyze_collective_sentiment arts trends = inr snap
    ∧ (∀ q, (ocurrencias q (map sentimiento arts)
             ≤ ocurrencias (polaridad_dominante snap) (map sentimiento arts))%Z)
    ∧ ∃ l1 l2,
        map sentimiento arts = l1 ++ polaridad_dominante snap :: l2
        ∧ (polaridad_dominante snap ∉ l1)
        ∧ ∀ q, q ∈ l1 →
               (ocurrencias q (map sentimiento arts)
                < ocurrencias (polaridad_dominante snap) (map sentimiento arts))%Z.
Proof.
  intros Hne.
  destruct (most_common_1 (map sentimiento arts)) as (d & n & rest & Hmc & Hmax & Hfirst).
  { by destruct arts. }
  unfold analyze_collective_sentiment. rewrite Hmc.
  eexists. split; [done|]. simpl. by split.
Qed.

(** C3: the trend tracker returns the empty list on the empty batch, and
    leaves the store alone; the collective analysis does not return a
    snapshot but raises [IndexError], at [most_common(1)[0][0]]. *)
Theorem empty_batch_raises (s : Redis.store) (trends : list TrendingTopic) :
  extract_hashtags_and_trends [] s = (([], []), s)
  ∧ analyze_collective_sentiment [] trends = inl IndexError
  ∧ (_calculate_social_tension [] [] == 0)%Q
  ∧ _detect_conflict_indicators [] [] = [].
Proof. done. Qed.

End ColectivoFacts.

(** ** The two vector stores *)

Section VectorStores.
Import ASR.

(** Storing a recording in Pinecone a second time changes nothing. *)
Lemma _store_pinecone_idempotent p ix ix' :
  _store_pinecone p ix = inr ix' → _store_pinecone p ix' = inr ix'.
Proof.
  unfold _store_pinecone, upsert. case_decide; [|done].
  intros [= <-]. by rewrite insert_insert_eq.
Qed.

(** A later Pinecone record with the same id replaces the earlier one
    whole. *)
Lemma _store_pinecone_last_write_wins p q ix ix1 ix2 :
  id (source p) = id (source q) →
  _store_pinecone p ix = inr ix1 →
  _store_pinecone q ix1 = inr ix2 →
  _store_pinecone q ix = inr ix2.
Proof.
  unfold _store_pinecone, upsert. intros Hid.
  repeat case_decide; try done.
  intros [= <-] [= <-]. by rewrite Hid, insert_insert_eq.
Qed.

(** The [metadata] parameter is a [dict], which the driver cannot adapt:
    the insertion raises for every recording and every table. *)
Lemma insert_params_not_adaptable p : forallb adaptable (insert_params p) = false.
Proof.
  unfold insert_params. cbn [forallb adaptable].
  rewrite !andb_false_r. done.
Qed.

Lemma _store_pgvector_raises p t : _store_pgvector p t = inl ProgrammingError.
Proof. unfold _store_pgvector. by rewrite insert_params_not_adaptable. Qed.

End VectorStores.

(** ** The analysis on sample batches *)

Section Witnesses.
Import AsciiRuntime Samples.

Lemma candidatos_paro : candidatos paro = [("#paro", 6%Z)].
Proof. vm_compute. reflexivity. Qed.

Lemma tendencias_paro :
  tendencias paro ∅ = [candidato "#paro" 6 (etiquetar paro) ∅].
Proof. vm_compute. reflexivity. Qed.

Lemma tendencias_paro_70 :
  tendencias paro_70 previo_71 =
    [candidato "#paro" 70 (etiquetar paro_70) previo_71].
Proof. vm_compute. reflexivity. Qed.

(** Seventy mentions against 71 before: the growth is negative and the
    topic is returned. *)
Lemma viral_probability_range_witness :
  candidato "#paro" 70 (etiquetar paro_70) previo_71 ∈ tendencias paro_70 previo_71
  ∧ (0 <= probabilidad_viral (candidato "#paro" 70 (etiquetar paro_70) previo_71)
       <= 1)%Q.
Proof.
  assert (candidato "#paro" 70 (etiquetar paro_70) previo_71
            ∈ tendencias paro_70 previo_71) as Hin.
  { rewrite tendencias_paro_70. left. }
  split; [exact Hin|].
  exact (viral_probability_range paro_70 previo_71 _ Hin).
Defined.

Lemma negative_growth_returned :
  (crecimiento_24h (candidato "#paro" 70 (etiquetar paro_70) previo_71) < 0)%Q.
Proof. vm_compute. reflexivity. Qed.

(** Before the admission test the weighted sum can be negative: six
    mentions against 100 before. Such a candidate is not returned. *)
Lemma negative_candidate_dropped :
  (probabilidad_viral (candidato "#paro" 6 (etiquetar paro) previo_100) < 0)%Q
  ∧ tendencias paro previo_100 = [].
Proof. split; vm_compute; reflexivity. Qed.

(** The growth rule at a previous count of 5 and a current count of 70:
    the topic is returned with a growth of 1300. *)
Lemma growth_rule_witness :
  let prior := match previo_5 !! redis_key_24h "#paro" with
               | Some e => Redis.value e
               | None => 0%Z
               end in
  let growth : Q :=
    if decide (prior = 0%Z) then
      if decide (5 < 70)%Z then 100%Q else 0%Q
    else (inject_Z (70 - prior) / inject_Z prior * 100)%Q in
  (0 ≤ prior)%Z
  ∧ (∀ t, (_analyze_trend "#paro" 70 paro_70 previo_5).1 = Some t →
          hashtag t = "#paro" ∧ menciones t = 70%Z ∧ crecimiento_24h t = growth)
  ∧ ((50 < growth)%Q → is_Some (_analyze_trend "#paro" 70 paro_70 previo_5).1)
  ∧ (("#paro", 70%Z) ∈ candidatos paro_70 →
     (∀ c, ("#paro" +:+ ":24h", c) ∉ candidatos paro_70) →
     (∀ t, t ∈ tendencias paro_70 previo_5 → hashtag t = "#paro" →
           menciones t = 70%Z ∧ crecimiento_24h t = growth)
     ∧ ((50 < growth)%Q → "#paro" ∈ map hashtag (tendencias paro_70 previo_5)))
  ∧ crecimiento_de 6 0 = 100%Q
  ∧ crecimiento_de 3 0 = 0%Q.
Proof.
  intros prior growth.
  assert (0 ≤ prior)%Z as Hprior by (vm_compute; discriminate).
  split; [exact Hprior|].
  exact (growth_rule "#paro" 70 paro_70 previo_5 Hprior).
Defined.

(** The same run, computed: the stored count of 5 is what the growth is
    taken against. *)
Lemma growth_against_stored_count :
  map (λ t, (hashtag t, menciones t, crecimiento_24h t))
      (tendencias paro_70 previo_5)
  = [("#paro", 70%Z, (inject_Z (70 - 5) / inject_Z 5 * 100)%Q)]
  ∧ (inject_Z (70 - 5) / inject_Z 5 * 100 == 1300)%Q
  ∧ ("#paro", 70%Z) ∈ candidatos paro_70
  ∧ ∀ c, ("#paro" +:+ ":24h", c) ∉ candidatos paro_70.
Proof.
  assert (candidatos paro_70 = [("#paro", 70%Z)]) as Hc by (vm_compute; reflexivity).
  split_and!.
  - vm_compute. reflexivity.
  - reflexivity.
  - rewrite Hc. left.
  - intros c. rewrite Hc. by intros [[=]|?%elem_of_nil]%elem_of_cons.
Qed.

(** The order of the returned list on twelve articles, six on [#b] and
    then six on [#a]. *)
Lemma tendencias_sorted_stable_witness :
  let all_hashtags :=
    concat (map (λ a, _extract_hashtags (texto a)) b_luego_a) in
  StronglySorted (precede_conteo all_hashtags) (tendencias b_luego_a ∅)
  ∧ (∀ l, l ≡ₚ tendencias b_luego_a ∅ →
          StronglySorted (precede_conteo all_hashtags) l →
          l = tendencias b_luego_a ∅)
  ∧ (∀ p : Q,
       filter (λ t, Qeq_bool (probabilidad_viral t) p = true)
         (tendencias b_luego_a ∅)
       = filter (λ t, Qeq_bool (probabilidad_viral t) p = true)
           (filter aceptado (puntuados_de b_luego_a ∅)))
  ∧ map (λ t, (hashtag t, menciones t)) (puntuados_de b_luego_a ∅)
    = candidatos b_luego_a.
Proof. exact (tendencias_sorted_stable b_luego_a ∅). Defined.

(** The admission rule at the one candidate of six articles on [#paro]. *)
Lemma admission_filter_witness :
  candidato "#paro" 6 (etiquetar paro) ∅ ∈ puntuados_de paro ∅
  ∧ (candidato "#paro" 6 (etiquetar paro) ∅ ∈ tendencias paro ∅ ↔
       (0.3 < probabilidad_viral (candidato "#paro" 6 (etiquetar paro) ∅))%Q
       ∨ (50 < crecimiento_24h (candidato "#paro" 6 (etiquetar paro) ∅))%Q)
  ∧ potencial_viral 0.29 40 = false
  ∧ potencial_viral 0.1 55 = true.
Proof.
  assert (candidato "#paro" 6 (etiquetar paro) ∅ ∈ puntuados_de paro ∅) as Hin.
  { unfold puntuados_de. rewrite candidatos_paro. left. }
  split; [exact Hin|].
  exact (admission_filter paro ∅ _ Hin).
Defined.

Lemma tendencias_b_luego_a :
  tendencias b_luego_a ∅ =
    [ candidato "#b" 6 (etiquetar b_luego_a) ∅;
      candidato "#a" 6 (etiquetar b_luego_a) (escrituras [("#b", 6%Z)] ∅) ].
Proof. vm_compute. reflexivity. Qed.

(** C8, as stated, fails. Six articles mention [#b] and six later ones
    mention [#a]: both topics have the same viral probability and the same
    number of mentions, and the list returned has [#b] before [#a]. *)
Lemma lexicographic_tie_not_broken :
  map hashtag (tendencias b_luego_a ∅) = ["#b"; "#a"]
  ∧ ¬ StronglySorted Spec.precede (tendencias b_luego_a ∅).
Proof.
  rewrite tendencias_b_luego_a. split; [done|].
  intros [_ [Hba _]%Forall_cons]%StronglySorted_inv.
  destruct Hba as [Hlt|[_ [Hlt|[_ Hle]]]].
  - vm_compute in Hlt. discriminate.
  - vm_compute in Hlt. discriminate.
  - vm_compute in Hle. discriminate.
Qed.

(** The dominant polarity of a negative article followed by a positive
    one. *)
Lemma dominant_polarity_first_most_frequent_witness :
  dos ≠ []
  ∧ ∃ snap,
      analyze_collective_sentiment dos [] = inr snap
      ∧ (∀ q, (ocurrencias q (map sentimiento dos)
               ≤ ocurrencias (polaridad_dominante snap) (map sentimiento dos))%Z)
      ∧ ∃ l1 l2,
          map sentimiento dos = l1 ++ polaridad_dominante snap :: l2
          ∧ (polaridad_dominante snap ∉ l1)
          ∧ ∀ q, q ∈ l1 →
                 (ocurrencias q (map sentimiento dos)
                  < ocurrencias (polaridad_dominante snap) (map sentimiento dos))%Z.
Proof.
  assert (dos ≠ []) as Hne by discriminate.
  split; [exact Hne|].
  exact (dominant_polarity_first_most_frequent dos [] Hne).
Defined.

(** C9, as stated, fails. A negative article followed by a positive one:
    both polarities occur once, [POSITIVO] comes first in the enum, and the
    dominant polarity is [NEGATIVO]. *)
Lemma enum_order_tie_not_broken :
  ∃ snap,
    analyze_collective_sentiment dos [] = inr snap
    ∧ polaridad_dominante snap = Some NEGATIVO
    ∧ ocurrencias (Some POSITIVO) (map sentimiento dos)
      = ocurrencias (Some NEGATIVO) (map sentimiento dos)
    ∧ Spec.orden_enum POSITIVO < Spec.orden_enum NEGATIVO.
Proof. eexists. split; [vm_compute; reflexivity|]. split_and!; [done|done|]. simpl. lia. Qed.

(** C1: on a batch of two articles, one of them negative, with no emotion
    scores and no trends, the weighted sum of the specification is
    [100 * 0.40 * 1/2 = 20]; the code returns 100. *)
Theorem tension_scaled_hundredfold :
  (_calculate_social_tension dos [] == 100)%Q
  ∧ (Spec.social_tension_score dos [] == 20)%Q.
Proof. split; vm_compute; reflexivity. Qed.

(** C2: a run over six articles mentioning [#paro] stores the count 6 under
    [hashtag:#paro]; the previous count is read from [hashtag:#paro:24h],
    which is still absent, so a second run over the same batch computes the
    growth against 0 and finds 100, where the growth against 6 is 0. *)
Theorem previous_count_never_read_back :
  store_final paro ∅ !! redis_key "#paro" = Some (Redis.mkEntry 6 86400)
  ∧ store_final paro ∅ !! redis_key_24h "#paro" = None
  ∧ map crecimiento_24h (tendencias paro (store_final paro ∅)) = [100%Q]
  ∧ (crecimiento_de 6 6 == 0)%Q.
Proof. split_and!; vm_compute; reflexivity. Qed.

(** C5: on the pgvector backend no upsert takes effect. Every call of
    [_store_pgvector] raises [ProgrammingError] and leaves the table as it
    was: the sample recording is not stored in an empty table, and in a table
    that holds an earlier record of the same source that record stays, with
    its old transcription and vector. The Pinecone backend stores the same
    recording under its id, and storing it again changes nothing. *)
Theorem pgvector_store_raises :
  (∀ p t, ASR._store_in_vector_db p (ASR.Pgvector t) = inl ProgrammingError)
  ∧ (∀ p t, ASR.table_after (ASR._store_pgvector p t) t = t)
  ∧ ASR.records_of "radio_mitre_2026_02_05"
      (ASR.table_after (ASR._store_pgvector grabacion ASR.empty_table)
         ASR.empty_table) = []
  ∧ map (λ r, (ASR.row_transcription r, ASR.row_embedding r))
      (ASR.records_of "radio_mitre_2026_02_05"
         (ASR.table_after (ASR._store_pgvector grabacion tabla_previa)
            tabla_previa))
    = [("buenas noches", replicate ASR.dimension 1%Q)]
  ∧ ASR.transcription grabacion = "buenos dias"
  ∧ ∃ ix md,
      ASR._store_in_vector_db grabacion (ASR.Pinecone ∅) = inr (ASR.Pinecone ix)
      ∧ ix !! "radio_mitre_2026_02_05" = Some (ASR.embeddings grabacion, md)
      ∧ ASR._store_in_vector_db grabacion (ASR.Pinecone ix) = inr (ASR.Pinecone ix).
Proof.
  split_and!.
  - intros p t. unfold ASR._store_in_vector_db.
    by rewrite _store_pgvector_raises.
  - intros p t. by rewrite _store_pgvector_raises.
  - by rewrite _store_pgvector_raises.
  - by rewrite _store_pgvector_raises.
  - done.
  - destruct (ASR._store_pinecone grabacion ∅) as [e|ix] eqn:E.
    { exfalso. unfold ASR._store_pinecone, ASR.upsert in E.
      rewrite decide_True in E by (vm_compute; reflexivity). discriminate. }
    pose proof (_store_pinecone_idempotent _ _ _ E) as E'.
    unfold ASR._store_in_vector_db. rewrite E. cbn [sum_map].
    exists ix. rewrite E'. cbn [sum_map].
    unfold ASR._store_pinecone, ASR.upsert in E.
    rewrite decide_True in E by (vm_compute; reflexivity).
    injection E as <-. eexists. split_and!; [done| |done].
    apply lookup_insert_eq.
Qed.

(** One article on [#paro]: the candidate has one mention. *)
Lemma counter_written_for_every_candidate_witness :
  ("#paro", 1%Z) ∈ candidatos paro_uno
  ∧ store_final paro_uno ∅ !! redis_key "#paro" = Some (Redis.mkEntry 1 86400)
  ∧ store_final paro_uno ∅ = escrituras (candidatos paro_uno) ∅
  ∧ ∀ t, t ∈ tendencias paro_uno ∅ → aceptado t.
Proof.
  assert (("#paro", 1%Z) ∈ candidatos paro_uno) as Hin.
  { replace (candidatos paro_uno) with [("#paro", 1%Z)] by (vm_compute; reflexivity).
    left. }
  split; [exact Hin|].
  exact (counter_written_for_every_candidate paro_uno ∅ "#paro" 1 Hin).
Defined.

(** The candidate of the witness above fails the admission test: the run
    returns no topic, and its count is in the store all the same. *)
Lemma dropped_candidate_is_written :
  tendencias paro_uno ∅ = []
  ∧ store_final paro_uno ∅ !! redis_key "#paro" = Some (Redis.mkEntry 1 86400).
Proof. split; vm_compute; reflexivity. Qed.

End Witnesses.

(** * Further properties *)

(** ** What a run of the trend tracker returns *)

Section TrendExtras.
Context `{Runtime}.
Implicit Types (s : Redis.store) (t : TrendingTopic) (a : Articulo).

(** The hashtags of the batch, article after article. *)
Lemma candidatos_in_Counter arts h c :
  (h, c) ∈ candidatos arts →
  (h, c) ∈ Counter (concat (map (λ a, _extract_hashtags (texto a)) arts)).
Proof.
  unfold candidatos, most_common. intros Hin.
  eapply elem_of_sorted_reverse, elem_of_sublist; [exact Hin|apply sublist_take].
Qed.

Lemma candidatos_length arts : length (candidatos arts) ≤ 20.
Proof. unfold candidatos, most_common. rewrite length_take. lia. Qed.

Lemma puntuados_length cands arts s :
  length (puntuados cands arts s) = length cands.
Proof.
  rewrite <-(puntuados_cuentas cands arts s) at 2. by rewrite length_map.
Qed.

Lemma tendencias_perm arts s :
  tendencias arts s ≡ₚ filter aceptado (puntuados_de arts s).
Proof. rewrite tendencias_eq. apply sorted_reverse_perm. Qed.

Lemma tendencias_length arts s : length (tendencias arts s) ≤ 20.
Proof.
  rewrite tendencias_perm.
  etrans; [apply length_filter|].
  unfold puntuados_de. rewrite puntuados_length. apply candidatos_length.
Qed.

(** X1. A run returns at most 20 topics, and no hashtag twice. *)
Theorem tendencias_bounded_distinct arts s :
  length (tendencias arts s) ≤ 20
  ∧ NoDup (map hashtag (tendencias arts s)).
Proof.
  split; [apply tendencias_length|].
  - rewrite tendencias_perm.
    eapply sublist_NoDup; [|apply fmap_sublist, sublist_filter].
    destruct (candidatos_sublist arts) as (_ & _ & Hnd & _).
    rewrite <-(puntuados_de_cuentas arts s), map_map in Hnd. exact Hnd.
Qed.

(** *** Mentions *)

Lemma ocurrencias_app {A} `{EqDecision A} (x : A) (l k : list A) :
  ocurrencias x (l ++ k) = (ocurrencias x l + ocurrencias x k)%Z.
Proof. unfold ocurrencias. rewrite filter_app, length_app. lia. Qed.

Lemma ocurrencias_NoDup {A} `{EqDecision A} (x : A) (l : list A) :
  NoDup l → ocurrencias x l = if decide (x ∈ l) then 1%Z else 0%Z.
Proof.
  induction 1 as [|y l Hy Hl IH]; [done|].
  change (y :: l) with ([y] ++ l). rewrite ocurrencias_app, IH.
  unfold ocurrencias. rewrite filter_cons, filter_nil.
  destruct (decide (y = x)) as [->|Hne].
  - rewrite (decide_False (P := x ∈ l)) by done.
    rewrite decide_True by left. done.
  - destruct (decide (x ∈ l)) as [Hx|Hx].
    + rewrite decide_True by (by right). done.
    + rewrite decide_False; [done|]. intros [?|?]%elem_of_cons; congruence.
Qed.

Lemma count_if_cons {A} (p : A → bool) (x : A) (l : list A) :
  count_if p (x :: l) = ((if p x then 1 else 0) + count_if p l)%Z.
Proof.
  unfold count_if. rewrite filter_cons.
  destruct (p x) eqn:E.
  - rewrite decide_True by done. simpl. lia.
  - rewrite decide_False by done. simpl. lia.
Qed.

Lemma count_if_bounds {A} (p : A → bool) (l : list A) :
  (0 ≤ count_if p l ≤ Z.of_nat (length l))%Z.
Proof.
  unfold count_if. pose proof (length_filter (λ x, p x = true) l). lia.
Qed.

Lemma ocurrencias_concat {A B} `{EqDecision B} (f : A → list B) (x : B) (l : list A) :
  (∀ z, NoDup (f z)) →
  ocurrencias x (concat (map f l)) = count_if (λ z, bool_decide (x ∈ f z)) l.
Proof.
  intros Hf. induction l as [|z l IH]; [done|].
  simpl. rewrite ocurrencias_app, IH, count_if_cons, ocurrencias_NoDup by done.
  unfold bool_decide. by destruct (decide_rel elem_of x (f z)).
Qed.

Lemma count_if_etiquetar (p : list string → bool) arts :
  count_if (λ a, p (tags a)) (etiquetar arts)
  = count_if (λ a, p (_extract_hashtags (texto a))) arts.
Proof.
  induction arts as [|a arts IH]; [done|].
  unfold etiquetar in *. simpl. by rewrite !count_if_cons, IH.
Qed.

(** X2. When [list(set(...))] lists each element once, the mention count of a
    returned topic is the number of articles of the batch that carry the
    hashtag in their [tags] after the run: an article counts once, however
    often the hashtag occurs in it. *)
Theorem menciones_counts_articles arts s t :
  (∀ l, NoDup (list_set l)) →
  t ∈ tendencias arts s →
  menciones t
  = count_if (λ a, bool_decide (hashtag t ∈ tags a))
             (extract_hashtags_and_trends arts s).1.2
  ∧ (1 ≤ menciones t ≤ Z.of_nat (length arts))%Z.
Proof.
  intros Hset [Ht _]%elem_of_tendencias.
  assert ((hashtag t, menciones t) ∈ candidatos arts) as Hin.
  { rewrite <-(puntuados_de_cuentas arts s). apply list_elem_of_fmap. by exists t. }
  assert (menciones t
          = count_if (λ a, bool_decide (hashtag t ∈ _extract_hashtags (texto a))) arts)
    as Hm.
  { apply candidatos_in_Counter, elem_of_Counter in Hin as [_ ->].
    apply (ocurrencias_concat (λ a, _extract_hashtags (texto a))).
    intros a. apply Hset. }
  split.
  - rewrite extract_hashtags_and_trends_eq. cbn [fst snd].
    rewrite Hm. symmetry.
    exact (count_if_etiquetar (λ l, bool_decide (hashtag t ∈ l)) arts).
  - split; [by eapply candidatos_positive|].
    rewrite Hm. apply count_if_bounds.
Qed.

End TrendExtras.

(** ** Means *)

Lemma Qlen_cons {A} (x : A) (l : list A) : (Qlen (x :: l) == 1 + Qlen l)%Q.
Proof.
  unfold Qlen. simpl length. rewrite Nat2Z.inj_succ, <-Z.add_1_l, inject_Z_plus.
  reflexivity.
Qed.

Lemma Qlen_nonneg {A} (l : list A) : (0 <= Qlen l)%Q.
Proof. apply inject_Z_nonneg. lia. Qed.

Lemma Qsum_bounds (lo hi : Q) (xs : list Q) :
  Forall (λ x, (lo <= x <= hi)%Q) xs →
  (lo * Qlen xs <= Qsum xs <= hi * Qlen xs)%Q.
Proof.
  induction 1 as [|x xs [Hlo Hhi] _ [IHlo IHhi]].
  - change (Qlen (@nil Q)) with 0%Q. change (Qsum []) with 0%Q. lra.
  - rewrite Qlen_cons. change (Qsum (x :: xs)) with (x + Qsum xs)%Q. lra.
Qed.

(** The mean of a non-empty list lies between any bounds of its elements. *)
Lemma np_mean_bounds (lo hi : Q) (xs : list Q) :
  xs ≠ [] →
  Forall (λ x, (lo <= x <= hi)%Q) xs →
  (lo <= np_mean xs <= hi)%Q.
Proof.
  intros Hne [Hlo Hhi]%Qsum_bounds. unfold np_mean.
  assert (0 < Qlen xs)%Q as Hpos.
  { destruct xs as [|x xs]; [done|]. rewrite Qlen_cons.
    pose proof (Qlen_nonneg xs). lra. }
  split.
  - by apply Qle_shift_div_l.
  - by apply Qle_shift_div_r.
Qed.

Section TrendExtras2.
Context `{Runtime}.
Implicit Types (s : Redis.store) (t : TrendingTopic) (a : Articulo).

(** *** Retagging leaves the other fields alone *)

Lemma menciona_etiquetar h arts :
  filter (λ a, menciona h a = true) (etiquetar arts)
  = etiquetar (filter (λ a, menciona h a = true) arts).
Proof.
  induction arts as [|a arts IH]; [done|].
  unfold etiquetar in *. simpl. rewrite !filter_cons, IH.
  change (menciona h {| id := id a; titulo := titulo a; contenido := contenido a;
                        tags := _extract_hashtags (texto a);
                        sentimiento := sentimiento a; emociones := emociones a;
                        score_sentimiento := score_sentimiento a |})
    with (menciona h a).
  by destruct (decide (menciona h a = true)).
Qed.

Lemma id_etiquetar arts : map id (etiquetar arts) = map id arts.
Proof. unfold etiquetar. rewrite map_map. done. Qed.

Lemma score_etiquetar arts :
  map score_sentimiento (etiquetar arts) = map score_sentimiento arts.
Proof. unfold etiquetar. rewrite map_map. done. Qed.

(** X3. The documents related to a returned topic are the articles of the
    batch whose title and body, in lower case, contain the hashtag, in batch
    order; the average sentiment is the mean of their scores, and 0 when
    there is none, so it lies between -1 and 1 when the scores do. *)
Theorem related_documents_contain_hashtag arts s t :
  (∀ a, a ∈ arts → (-1 <= score_sentimiento a <= 1)%Q) →
  t ∈ tendencias arts s →
  let related :=
    filter (λ a, str_in (hashtag t) (lower (texto a)) = true) arts in
  articulos_relacionados t = map id related
  ∧ sentimiento_promedio t
    = match related with
      | [] => 0%Q
      | _ => np_mean (map score_sentimiento related)
      end
  ∧ (-1 <= sentimiento_promedio t <= 1)%Q
  ∧ (articulos_relacionados t = [] → sentimiento_promedio t = 0%Q).
Proof.
  intros Hscore [Ht _]%elem_of_tendencias.
  apply elem_of_puntuados in Ht as (h & c & s' & _ & ->).
  cbn [candidato articulos_relacionados sentimiento_promedio hashtag].
  rewrite menciona_etiquetar, id_etiquetar, score_etiquetar.
  change (filter (λ a, str_in h (lower (texto a)) = true) arts)
    with (filter (λ a, menciona h a = true) arts).
  set (rel := filter (λ a, menciona h a = true) arts).
  split; [done|]. split; [|split].
  - by destruct rel.
  - destruct (map score_sentimiento rel) as [|x xs] eqn:E; [lra|].
    rewrite <-E. apply np_mean_bounds; [by rewrite E|].
    apply Forall_fmap, Forall_forall. intros a [_ Ha]%list_elem_of_filter.
    by apply Hscore.
  - intros Hnil. apply fmap_nil_inv in Hnil. by rewrite Hnil.
Qed.

(** *** New topics *)

Lemma candidato_sin_previo h c arts s :
  (∀ a, a ∈ arts → (-1 <= score_sentimiento a <= 1)%Q) →
  (1 ≤ c)%Z →
  s !! redis_key_24h h = None →
  aceptado (candidato h c arts s) ↔ (5 < c)%Z.
Proof.
  intros Hscore Hc Hs. rewrite aceptado_iff.
  cbn [candidato probabilidad_viral crecimiento_24h Redis.get fst].
  rewrite Hs. cbn [fmap option_fmap option_map menciones_previas_de].
  unfold crecimiento_de. cbn [Z.ltb Z.compare].
  set (sp := match map score_sentimiento _ with [] => 0%Q | _ => _ end).
  assert (Qabs sp <= 1)%Q as Hsp.
  { apply Qabs_Qle_condition. unfold sp.
    destruct (map score_sentimiento _) as [|x xs] eqn:E; [lra|].
    rewrite <-E. apply np_mean_bounds; [by rewrite E|].
    apply Forall_fmap, Forall_forall. intros a [_ Ha]%list_elem_of_filter.
    by apply Hscore. }
  destruct (5 <? c)%Z eqn:E5.
  - apply Z.ltb_lt in E5. split; [done|]. intros _. right. lra.
  - apply Z.ltb_ge in E5. split; [|lia]. intros [Hp|Hg]; [|lra]. exfalso.
    unfold _calculate_viral_probability in Hp.
    assert (inject_Z c <= 5)%Q as Hc5
      by (change 5%Q with (inject_Z 5); by rewrite <-Zle_Qle).
    pose proof (Q.le_min_l (inject_Z c / 100) 1) as H1.
    pose proof (Q.le_min_l (0 / 200) 1) as H2.
    pose proof (Q.le_min_l (inject_Z c / 24 / 10) 1) as H3.
    assert (inject_Z c / 100 <= 5 / 100)%Q
      by (apply Qmult_le_compat_r; [done|]; done).
    assert (inject_Z c / 24 / 10 <= 5 / 24 / 10)%Q
      by (do 2 (apply Qmult_le_compat_r; [|done]); done).
    assert (0 / 200 == 0)%Q as Hz by reflexivity.
    eapply Qlt_not_le; [exact Hp|].
    eapply Qle_trans; [apply Q.le_min_l|].
    assert (5 / 100 == 1 # 20)%Q as E1 by reflexivity.
    assert (5 / 24 / 10 == 1 # 48)%Q as E2 by reflexivity.
    lra.
Qed.

(** X4. Where the store holds no previous count for any candidate (as after
    runs of this code alone, which never writes the key it reads) and no
    hashtag is another one followed by [:24h], a candidate is returned exactly
    when it has more than 5 mentions, provided the scores lie between -1 and
    1. *)
Theorem new_topics_need_six_mentions arts s h c :
  (∀ a, a ∈ arts → (-1 <= score_sentimiento a <= 1)%Q) →
  (∀ h' c', (h', c') ∈ candidatos arts → s !! redis_key_24h h' = None) →
  (∀ h' c' c'', (h', c') ∈ candidatos arts →
                (h' +:+ ":24h", c'') ∉ candidatos arts) →
  (h, c) ∈ candidatos arts →
  h ∈ map hashtag (tendencias arts s) ↔ (5 < c)%Z.
Proof.
  intros Hscore Hs Hcol Hin.
  assert (∀ t, t ∈ puntuados_de arts s → aceptado t ↔ (5 < menciones t)%Z) as Hrule.
  { intros t Ht.
    pose proof Ht as (h' & c' & pre & post & Hc & ->)%elem_of_puntuados_split.
    assert ((h', c') ∈ candidatos arts) as Hin'
      by (rewrite Hc, elem_of_app; right; left).
    apply candidato_sin_previo.
    - intros a Ha. unfold etiquetar in Ha.
      apply list_elem_of_fmap in Ha as (a0 & -> & Ha0). simpl. by apply Hscore.
    - by eapply candidatos_positive.
    - rewrite escrituras_lookup_notin; [by eapply Hs|].
      intros ([h2 c2] & Hk & Hin2)%list_elem_of_fmap.
      unfold redis_key_24h, redis_key in Hk. simpl in Hk.
      rewrite str_app_assoc in Hk. apply String.app_inj in Hk. subst h2.
      eapply (Hcol h' c' c2 Hin'). rewrite Hc, elem_of_app. by left. }
  assert (NoDup (map fst (candidatos arts))) as Hnd
    by (destruct (candidatos_sublist arts) as (_ & _ & ? & _); done).
  rewrite list_elem_of_fmap. split.
  - intros (t & -> & [Ht Ha]%elem_of_tendencias).
    apply Hrule in Ha; [|done].
    assert ((hashtag t, menciones t) ∈ candidatos arts) as Hin2.
    { rewrite <-(puntuados_de_cuentas arts s). apply list_elem_of_fmap. by exists t. }
    by rewrite (NoDup_fst_functional _ _ _ _ Hnd Hin Hin2).
  - intros Hc5. rewrite <-(puntuados_de_cuentas arts s) in Hin.
    apply list_elem_of_fmap in Hin as (t & [= -> ->] & Ht).
    exists t. split; [done|]. apply elem_of_tendencias. split; [done|].
    by apply Hrule.
Qed.

End TrendExtras2.

(** ** [defaultdict(list)] *)

Section DefaultDictFacts.
Context {K V : Type} `{EqDecision K}.
Implicit Types (d : list (K * list V)).

Lemma dd_append_keys k v d :
  (dd_append k v d).*1 = if decide (k ∈ d.*1) then d.*1 else d.*1 ++ [k].
Proof.
  induction d as [|[k' vs] d IH]; csimpl; [done|].
  destruct (decide (k = k')) as [->|Hne]; csimpl.
  - by rewrite decide_True by left.
  - rewrite IH. destruct (decide (k ∈ d.*1)) as [Hk|Hk].
    + by rewrite decide_True by (by right).
    + rewrite decide_False; [done|]. by intros [?|?]%elem_of_cons.
Qed.

Lemma dd_append_ok (P : V → Prop) k v d :
  P v → dd_ok P d → dd_ok P (dd_append k v d).
Proof.
  intros Hv [Hnd Hall]. split.
  - rewrite dd_append_keys. case_decide as Hk; [done|].
    apply NoDup_app. split_and!; [done| |apply NoDup_singleton].
    intros x Hx ->%list_elem_of_singleton. done.
  - clear Hnd. induction Hall as [|[k' vs] d [Hne Hvs] Hall IH]; simpl.
    + repeat constructor; done.
    + destruct (decide (k = k')); constructor; try done. simpl. split.
      * by destruct vs.
      * apply Forall_app. split; [done|]. by constructor.
Qed.

Lemma elem_of_dd_append_keys x k v d :
  x ∈ (dd_append k v d).*1 ↔ x ∈ d.*1 ∨ x = k.
Proof.
  rewrite dd_append_keys. case_decide as Hk.
  - split; [by left|]. by intros [?| ->].
  - by rewrite elem_of_app, list_elem_of_singleton.
Qed.

(** All the values of one article. *)
Lemma dd_extend_ok (P : V → Prop) (items : list (K * V)) d :
  Forall (λ kv, P kv.2) items →
  dd_ok P d →
  dd_ok P (foldl (λ d kv, dd_append kv.1 kv.2 d) d items)
  ∧ ∀ x, x ∈ (foldl (λ d kv, dd_append kv.1 kv.2 d) d items).*1
         ↔ x ∈ d.*1 ∨ x ∈ items.*1.
Proof.
  intros Hitems. revert d. induction Hitems as [|[k v] items Hv _ IH]; intros d Hd.
  { split; [done|]. intros x. rewrite elem_of_nil. tauto. }
  simpl. destruct (IH (dd_append k v d)) as [Hok Hkeys]; [by apply dd_append_ok|].
  split; [done|]. intros x.
  rewrite Hkeys, elem_of_dd_append_keys, elem_of_cons. tauto.
Qed.

(** What is held under a key after appending. *)
Lemma dd_vals_append k k' v d :
  dd_vals k (dd_append k' v d)
  = dd_vals k d ++ (if decide (k = k') then [v] else []).
Proof.
  induction d as [|[k0 vs] d IH]; cbn [dd_append dd_vals].
  { by destruct (decide (k = k')). }
  destruct (decide (k' = k0)) as [->|Hne]; cbn [dd_vals].
  - destruct (decide (k = k0)); [done|]. by rewrite app_nil_r.
  - destruct (decide (k = k0)) as [->|]; [|done].
    rewrite decide_False by done. by rewrite app_nil_r.
Qed.

Lemma dd_vals_extend k (items : list (K * V)) d :
  dd_vals k (foldl (λ d kv, dd_append kv.1 kv.2 d) d items)
  = dd_vals k d ++ map snd (filter (λ kv, kv.1 = k) items).
Proof.
  revert d. induction items as [|[k' v] items IH]; intros d; cbn [foldl].
  { by rewrite app_nil_r. }
  rewrite IH, dd_vals_append, filter_cons. cbn [fst snd].
  destruct (decide (k = k')) as [->|Hne].
  - rewrite decide_True by done. by rewrite <-app_assoc.
  - rewrite decide_False by done. by rewrite app_nil_r.
Qed.

Lemma dd_vals_elem_of k vs d :
  NoDup d.*1 → (k, vs) ∈ d → dd_vals k d = vs.
Proof.
  induction d as [|[k0 vs0] d IH]; csimpl.
  { by intros _ ?%elem_of_nil. }
  intros [Hk0 Hnd]%NoDup_cons [[= -> ->]|Hin]%elem_of_cons.
  - by rewrite decide_True.
  - rewrite decide_False; [by apply IH|].
    intros ->. apply Hk0. apply list_elem_of_fmap. by exists (k0, vs).
Qed.

End DefaultDictFacts.

(** The values of the articles satisfying [g]. *)
Lemma dd_collect_ok (P : Q → Prop) (g : Articulo → bool) (arts : list Articulo)
    (d : list (Emocion * list Q)) :
  (∀ a, a ∈ arts → Forall (λ es, P es.2) (emociones a)) →
  dd_ok P d →
  let d' :=
    foldl (λ d a, if g a
                  then foldl (λ d es, dd_append es.1 es.2 d) d (emociones a)
                  else d) d arts in
  dd_ok P d'
  ∧ ∀ e, e ∈ d'.*1
         ↔ e ∈ d.*1 ∨ ∃ a, a ∈ arts ∧ g a = true ∧ e ∈ (emociones a).*1.
Proof.
  revert d. induction arts as [|a arts IH]; intros d Harts Hd; simpl.
  { split; [done|]. intros e. split; [by left|].
    intros [?|(a & ?%elem_of_nil & _)]; done. }
  assert (∀ a', a' ∈ arts → Forall (λ es, P es.2) (emociones a')) as Harts'
    by (intros a' Ha'; apply Harts; by right).
  destruct (g a) eqn:Hg.
  - destruct (dd_extend_ok P (emociones a) d) as [Hok Hkeys];
      [apply Harts; left|done|].
    destruct (IH _ Harts' Hok) as [Hok' Hkeys']. split; [done|].
    intros e. rewrite Hkeys', Hkeys. split.
    + intros [[?|?]|(a' & ? & ? & ?)]; [by left| |].
      * right. exists a. split_and!; [left|done|done].
      * right. exists a'. split_and!; [by right|done|done].
    + intros [?|(a' & [->|?]%elem_of_cons & ? & ?)]; [by left; left| |].
      * left. by right.
      * right. by exists a'.
  - destruct (IH _ Harts' Hd) as [Hok' Hkeys']. split; [done|].
    intros e. rewrite Hkeys'. split.
    + intros [?|(a' & ? & ? & ?)]; [by left|].
      right. exists a'. split_and!; [by right|done|done].
    + intros [?|(a' & [->|?]%elem_of_cons & ? & ?)]; [by left|congruence|].
      right. by exists a'.
Qed.

Lemma dd_ok_nil {K V} (P : V → Prop) : dd_ok (K := K) P [].
Proof. split; constructor. Qed.

(** Means of a well-formed dictionary: same keys, values within the bounds
    of the scores. *)
Lemma dd_means (lo hi : Q) (d : list (Emocion * list Q)) :
  dd_ok (λ x, (lo <= x <= hi)%Q) d →
  (map (λ es, (es.1, np_mean es.2)) d).*1 = d.*1
  ∧ Forall (λ ev, (lo <= ev.2 <= hi)%Q) (map (λ es, (es.1, np_mean es.2)) d).
Proof.
  intros [_ Hall]. split.
  - rewrite <-list_fmap_compose. done.
  - apply Forall_fmap. eapply Forall_impl; [exact Hall|].
    intros [e xs] [Hne Hxs]. simpl in *. by apply np_mean_bounds.
Qed.

Section EmotionExtras.
Context `{Runtime}.
Implicit Types (s : Redis.store) (t : TrendingTopic) (a : Articulo).

Lemma emociones_de_etiquetar h arts :
  emociones_de h (etiquetar arts) = emociones_de h arts.
Proof. unfold emociones_de, etiquetar. by rewrite foldl_fmap. Qed.

Lemma emociones_de_keys h arts :
  NoDup (map fst (emociones_de h arts))
  ∧ ∀ e, e ∈ map fst (emociones_de h arts) →
         ∃ a, a ∈ arts ∧ menciona h a = true ∧ e ∈ (emociones a).*1.
Proof.
  unfold emociones_de.
  destruct (dd_collect_ok (λ _, True) (menciona h) arts []) as [Hok Hkeys].
  { intros a _. by apply Forall_forall. }
  { apply dd_ok_nil. }
  set (d := foldl _ [] arts) in *.
  set (medias := map (λ es, (es.1, np_mean es.2)) d).
  assert (medias.*1 = d.*1) as Hm by (unfold medias; by rewrite <-list_fmap_compose).
  set (lt := λ x y : Emocion * Q, Qltb x.2 y.2).
  assert (sublist (take 3 (sorted_reverse lt medias)).*1 (sorted_reverse lt medias).*1)
    as Hsub by apply fmap_sublist, sublist_take.
  split.
  - eapply sublist_NoDup; [|exact Hsub].
    rewrite (sorted_reverse_perm lt), Hm. apply Hok.
  - intros e He. eapply elem_of_sublist in He; [|exact Hsub].
    rewrite (sorted_reverse_perm lt), Hm in He.
    apply Hkeys in He as [?%elem_of_nil|?]; done.
Qed.

(** X5. The dominant emotions of a returned topic: three at most, none twice,
    each one reported by some article of the batch that contains the
    hashtag. *)
Theorem dominant_emotions_of_related arts s t :
  t ∈ tendencias arts s →
  length (emociones_dominantes t) ≤ 3
  ∧ NoDup (emociones_dominantes t)
  ∧ ∀ e, e ∈ emociones_dominantes t →
         ∃ a, a ∈ arts
              ∧ str_in (hashtag t) (lower (texto a)) = true
              ∧ e ∈ map fst (emociones a).
Proof.
  intros [Ht _]%elem_of_tendencias.
  apply elem_of_puntuados in Ht as (h & c & s' & _ & ->).
  cbn [candidato emociones_dominantes hashtag].
  rewrite emociones_de_etiquetar.
  destruct (emociones_de_keys h arts) as [Hnd Hin].
  split_and!; [|done|done].
  rewrite length_map. unfold emociones_de. rewrite length_take. lia.
Qed.

(** The scores accumulated under an emotion are those the articles report
    for it, in batch order. *)
Lemma dd_vals_articulos e arts (d : list (Emocion * list Q)) :
  dd_vals e (foldl (λ d a, foldl (λ d es, dd_append es.1 es.2 d) d (emociones a))
               d arts)
  = dd_vals e d ++ puntajes e arts.
Proof.
  revert d. induction arts as [|a arts IH]; intros d; cbn [foldl].
  { unfold puntajes. simpl. by rewrite app_nil_r. }
  rewrite IH, dd_vals_extend. unfold puntajes. cbn [map concat].
  by rewrite <-app_assoc.
Qed.

(** X6. The emotion distribution of a snapshot has one entry for each emotion
    that some article reports, and no other: an emotion no article reports is
    absent, not 0. Each value is the mean of the scores the articles report
    for that emotion, taken in batch order. *)
Theorem emotion_distribution_means arts trends snap :
  analyze_collective_sentiment arts trends = inr snap →
  NoDup (map fst (distribucion_emociones snap))
  ∧ (∀ e, e ∈ map fst (distribucion_emociones snap)
          ↔ ∃ a, a ∈ arts ∧ e ∈ map fst (emociones a))
  ∧ ∀ e x, (e, x) ∈ distribucion_emociones snap →
           puntajes e arts ≠ [] ∧ x = np_mean (puntajes e arts).
Proof.
  intros Hsnap.
  assert (distribucion_emociones snap = distribucion_de arts) as ->.
  { unfold analyze_collective_sentiment in Hsnap.
    destruct (most_common 1 _) as [|[p n] rest]; [done|]. by injection Hsnap as <-. }
  unfold distribucion_de.
  destruct (dd_collect_ok (λ _, True) (λ _, true) arts []) as [Hok Hkeys].
  { intros a Ha. by apply Forall_forall. }
  { apply dd_ok_nil. }
  cbv beta iota in Hok, Hkeys.
  pose proof (λ e, dd_vals_articulos e arts []) as Hvals.
  set (d := foldl _ [] arts) in *.
  assert (map fst (map (λ es : Emocion * list Q, (es.1, np_mean es.2)) d)
          = map fst d) as Hfst by (rewrite map_map; done).
  change (∀ e, e ∈ map fst d
               ↔ e ∈ [] ∨ ∃ a, a ∈ arts ∧ true = true ∧ e ∈ map fst (emociones a))
    in Hkeys.
  split_and!.
  - rewrite Hfst. apply Hok.
  - intros e. rewrite Hfst, Hkeys. split.
    + intros [?%elem_of_nil|(a & ? & _ & ?)]; [done|]. by exists a.
    + intros (a & ? & ?). right. by exists a.
  - intros e x ([e' xs] & [= -> ->] & Hin)%list_elem_of_fmap. cbn [fst snd].
    destruct Hok as [Hnd Hall].
    assert (xs = puntajes e' arts) as <-.
    { rewrite <-(dd_vals_elem_of e' xs d Hnd Hin), Hvals. done. }
    rewrite Forall_forall in Hall. destruct (Hall _ Hin) as [Hne _]. done.
Qed.

End EmotionExtras.

(** ** What a run leaves alone in the store *)

Section StoreExtras.
Context `{Runtime}.
Implicit Types (s : Redis.store).

Lemma redis_key_prefix h : String.prefix "hashtag:" (redis_key h) = true.
Proof. unfold redis_key. simpl. by destruct h. Qed.

Lemma escrituras_is_Some cands s k :
  is_Some (s !! k) → is_Some (escrituras cands s !! k).
Proof.
  revert s. induction cands as [|[h c] cands IH]; intros s Hs; [done|].
  rewrite escrituras_cons. apply IH. unfold escrituras. simpl.
  destruct (decide (redis_key h = k)) as [->|Hne].
  - by rewrite lookup_insert_eq.
  - by rewrite lookup_insert_ne.
Qed.

(** X7. A run changes no entry whose key does not start with [hashtag:], and
    removes none. *)
Theorem store_frame arts s k :
  String.prefix "hashtag:" k = false →
  store_final arts s !! k = s !! k
  ∧ ∀ k', is_Some (s !! k') → is_Some (store_final arts s !! k').
Proof.
  intros Hk. rewrite store_final_eq. split.
  - apply escrituras_lookup_notin.
    intros ([h c] & -> & _)%list_elem_of_fmap.
    by rewrite redis_key_prefix in Hk.
  - intros k'. apply escrituras_is_Some.
Qed.

End StoreExtras.

(** ** The scores *)

Lemma Qdiv_le_compat (x y c : Q) : (x <= y)%Q → (0 < c)%Q → (x / c <= y / c)%Q.
Proof.
  intros Hxy Hc. apply Qmult_le_compat_r; [done|].
  apply Qinv_le_0_compat. by apply Qlt_le_weak.
Qed.

(** X8. The viral probability does not decrease when the mentions, the growth,
    the velocity or the sentiment intensity increase. *)
Theorem viral_probability_monotone (m m' : Z) (g g' v v' i i' : Q) :
  (m ≤ m')%Z → (g <= g')%Q → (v <= v')%Q → (i <= i')%Q →
  (_calculate_viral_probability m g v i
   <= _calculate_viral_probability m' g' v' i')%Q.
Proof.
  intros Hm Hg Hv Hi. unfold _calculate_viral_probability.
  apply Q.min_le_compat_r.
  assert (Qmin (inject_Z m / 100) 1 <= Qmin (inject_Z m' / 100) 1)%Q.
  { apply Q.min_le_compat_r, Qdiv_le_compat; [|done]. by rewrite <-Zle_Qle. }
  assert (Qmin (g / 200) 1 <= Qmin (g' / 200) 1)%Q
    by (by apply Q.min_le_compat_r, Qdiv_le_compat).
  assert (Qmin (v / 10) 1 <= Qmin (v' / 10) 1)%Q
    by (by apply Q.min_le_compat_r, Qdiv_le_compat).
  lra.
Qed.

Lemma Qsum_nonneg (xs : list Q) : Forall (λ x, (0 <= x)%Q) xs → (0 <= Qsum xs)%Q.
Proof.
  induction 1 as [|x xs Hx _ IH]; simpl; [done|].
  change (0 <= x + Qsum xs)%Q. lra.
Qed.

Lemma Qdiv_nonneg_weak (x c : Q) : (0 <= x)%Q → (0 <= c)%Q → (0 <= x / c)%Q.
Proof.
  intros Hx Hc. unfold Qdiv. apply Qmult_le_0_compat; [done|].
  by apply Qinv_le_0_compat.
Qed.

Lemma fraction_nonneg {A} (p : A → bool) (l : list A) :
  (0 <= match l with
        | [] => 0
        | _ => inject_Z (count_if p l) / Qlen l
        end)%Q.
Proof.
  destruct l as [|x l]; [done|].
  apply Qdiv_nonneg_weak; [|apply Qlen_nonneg].
  apply inject_Z_nonneg, count_if_bounds.
Qed.

(** X9. The social tension never exceeds 100, whatever the batch; it is not
    negative when no emotion score is: the code cuts the score at 100 only. *)
Theorem social_tension_range arts trends :
  (_calculate_social_tension arts trends <= 100)%Q
  ∧ ((∀ a e x, a ∈ arts → (e, x) ∈ emociones a → (0 <= x)%Q) →
     (0 <= _calculate_social_tension arts trends)%Q).
Proof.
  unfold _calculate_social_tension. split; [apply Q.le_min_r|]. intros Hscore.
  apply Q.min_glb; [|done].
  pose proof (fraction_nonneg (λ a, bool_decide (sentimiento a = Some NEGATIVO)) arts) as Hr.
  pose proof (fraction_nonneg (λ t, Qltb 100 (crecimiento_24h t)) trends) as He.
  set (r := match arts with [] => 0%Q | _ => _ end) in *.
  set (e := match trends with [] => 0%Q | _ => _ end) in *.
  assert (0 <= foldl (λ acc a,
                        foldl (λ acc es,
                                 if bool_decide (Emocion_value es.1
                                                 ∈ ["enojo"; "miedo"; "tristeza"; "disgusto"])
                                 then (acc + es.2)%Q else acc)
                              acc (emociones a))
                     0 arts)%Q as Hi.
  { rewrite intensidad_lote.
    assert (0 <= Qsum (map Spec.negative_intensity arts))%Q; [|lra].
    apply Qsum_nonneg, Forall_fmap, Forall_forall. intros a Ha. simpl.
    apply Qsum_nonneg, Forall_fmap, Forall_forall.
    intros [em x] [_ Hx]%list_elem_of_filter. simpl. by eapply Hscore. }
  assert (0 <= match arts with [] => 1 | _ => Qlen arts end)%Q as Hd.
  { destruct arts; [done|]. apply Qlen_nonneg. }
  pose proof (Qdiv_nonneg_weak _ _ Hi Hd) as Hq.
  set (q := (_ / match arts with [] => 1 | _ => Qlen arts end)%Q) in *.
  lra.
Qed.

Section IndicatorExtras.
Context `{Runtime}.

Lemma length_omap_le {A B} (f : A → option B) (l : list A) :
  length (omap f l) ≤ length l.
Proof.
  induction l as [|x l IH]; csimpl; [done|]. destruct (f x); csimpl; lia.
Qed.

(** X10. The conflict indicators: one line at most for each of the first ten
    trends, whatever number of keywords its hashtag contains, and one summary
    line at most; none at all for a batch without conflict titles and without
    trends. *)
Theorem conflict_indicators_bounded arts trends :
  length (_detect_conflict_indicators arts trends) ≤ Nat.min 10 (length trends) + 1
  ∧ (trends = [] →
     Forall (λ a, menciona_conflicto (lower (titulo a)) = false) arts →
     _detect_conflict_indicators arts trends = []).
Proof.
  unfold _detect_conflict_indicators. split.
  - pose proof (length_omap_le
      (λ topic, if menciona_conflicto (lower (hashtag topic))
                then Some ("Trending: " +:+ hashtag topic +:+ " ("
                             +:+ str_int (menciones topic) +:+ " menciones, +"
                             +:+ fmt_float 0 (crecimiento_24h topic) +:+ "%)")
                else None) (take 10 trends)) as Hlen.
    rewrite length_take in Hlen.
    set (ind := omap _ (take 10 trends)) in *.
    destruct (Qltb _ _); [rewrite length_app; cbn [length]|]; lia.
  - intros -> Hall.
    assert (count_if (λ a, menciona_conflicto (lower (titulo a))) arts = 0%Z) as ->.
    { induction Hall as [|a arts Ha _ IH]; [done|].
      by rewrite count_if_cons, Ha, IH. }
    simpl. rewrite (proj2 (Qltb_ge _ _)); [done|].
    pose proof (Qlen_nonneg arts). change (inject_Z 0) with 0%Q. lra.
Qed.

End IndicatorExtras.

(** ** Dictionaries *)

Section DictFacts.
Context {K V : Type} `{EqDecision K}.
Implicit Types (d : list (K * V)).

Lemma dict_set_keys k v d :
  (dict_set k v d).*1 = if decide (k ∈ d.*1) then d.*1 else d.*1 ++ [k].
Proof.
  induction d as [|[k' v'] d IH]; csimpl; [done|].
  destruct (decide (k = k')) as [->|Hne]; csimpl.
  - by rewrite decide_True by left.
  - rewrite IH. destruct (decide (k ∈ d.*1)) as [Hk|Hk].
    + by rewrite decide_True by (by right).
    + rewrite decide_False; [done|]. by intros [?|?]%elem_of_cons.
Qed.

Lemma dict_set_NoDup k v d : NoDup d.*1 → NoDup (dict_set k v d).*1.
Proof.
  intros Hnd. rewrite dict_set_keys. case_decide as Hk; [done|].
  apply NoDup_app. split_and!; [done| |apply NoDup_singleton].
  intros x Hx ->%list_elem_of_singleton. done.
Qed.

Lemma elem_of_dict_set k v d x y :
  (x, y) ∈ dict_set k v d → (x, y) = (k, v) ∨ (x, y) ∈ d.
Proof.
  induction d as [|[k' v'] d IH]; simpl.
  { intros ?%list_elem_of_singleton. by left. }
  destruct (decide (k = k')) as [->|Hne].
  - intros [?|?]%elem_of_cons; [by left|]. right. by right.
  - intros [Heq|[?|?]%IH]%elem_of_cons; [|by left|].
    + right. rewrite Heq. left.
    + right. by right.
Qed.

(** Reading a key just written gives the value written. *)
Lemma dict_get_set k v d : dict_get k (dict_set k v d) = Some v.
Proof.
  induction d as [|[k' v'] d IH]; simpl.
  - by rewrite decide_True.
  - destruct (decide (k = k')) as [->|Hne]; simpl.
    + by rewrite decide_True.
    + by rewrite decide_False.
Qed.

Lemma dict_get_set_ne k k' v d :
  k ≠ k' → dict_get k' (dict_set k v d) = dict_get k' d.
Proof.
  intros Hne. induction d as [|[k0 v0] d IH]; simpl.
  - by rewrite decide_False.
  - destruct (decide (k = k0)) as [->|Hne0]; simpl.
    + by rewrite !(decide_False (P := k' = k0)) by congruence.
    + by rewrite IH.
Qed.

Lemma dict_get_Some k v d : dict_get k d = Some v → (k, v) ∈ d.
Proof.
  induction d as [|[k' v'] d IH]; simpl; [done|].
  destruct (decide (k = k')) as [->|Hne].
  - intros [= ->]. left.
  - intros ?%IH. by right.
Qed.

Lemma dict_get_None k d : dict_get k d = None ↔ k ∉ d.*1.
Proof.
  induction d as [|[k' v'] d IH]; csimpl.
  - split; [intros _; apply not_elem_of_nil|done].
  - rewrite not_elem_of_cons. destruct (decide (k = k')) as [->|Hne].
    + split; [done|]. by intros [? _].
    + rewrite IH. tauto.
Qed.

End DictFacts.

Lemma NoDup_Emocion (l : list Emocion) : NoDup l → length l ≤ 6.
Proof.
  intros Hnd.
  change 6 with (length [ENOJO; MIEDO; ALEGRIA; TRISTEZA; SORPRESA; DISGUSTO]).
  apply submseteq_length, NoDup_submseteq; [done|].
  intros e _. destruct e; set_solver.
Qed.

(** ** The sentiment of an article *)

Section SentimentFacts.
Context `{Runtime} `{Models}.

Lemma emociones_fold_ok (results : list (string * Q)) (ems : list (Emocion * Q)) :
  NoDup ems.*1 →
  let ems' := foldl (λ emociones result,
                       match dict_get result.1 emotion_map with
                       | Some e => dict_set e result.2 emociones
                       | None => emociones
                       end) ems results in
  NoDup ems'.*1
  ∧ ∀ e x, (e, x) ∈ ems' →
           (e, x) ∈ ems
           ∨ ∃ label, (label, x) ∈ results ∧ (label, e) ∈ emotion_map.
Proof.
  revert ems. induction results as [|[label x0] results IH]; intros ems Hnd;
    cbn [foldl fst snd].
  { split; [done|]. intros e x ?. by left. }
  destruct (dict_get label emotion_map) as [e0|] eqn:Hmap.
  - destruct (IH (dict_set e0 x0 ems)) as [Hnd' Hin]; [by apply dict_set_NoDup|].
    split; [done|]. intros e x [[[= -> ->]|?]%elem_of_dict_set|(l & ? & ?)]%Hin.
    + right. exists label. split; [left|by apply dict_get_Some].
    + by left.
    + right. exists l. split; [by right|done].
  - destruct (IH ems Hnd) as [Hnd' Hin]. split; [done|].
    intros e x [?|(l & ? & ?)]%Hin; [by left|].
    right. exists l. split; [by right|done].
Qed.

(** X11. The emotions [_analyze_emotions] returns: six entries at most, no
    emotion twice, each score one that the model gave to a label the map sends
    to that emotion; the other labels of the model are dropped. *)
Theorem analyze_emotions_mapped text ems :
  _analyze_emotions text = inr ems →
  length ems ≤ 6
  ∧ NoDup (map fst ems)
  ∧ ∀ e x, (e, x) ∈ ems →
           ∃ label results rest,
             emotion_analyzer (ASR.str_take 512 text) = results :: rest
             ∧ (label, x) ∈ results
             ∧ (label, e) ∈ emotion_map.
Proof.
  unfold _analyze_emotions.
  destruct (emotion_analyzer _) as [|results rest] eqn:E; [done|].
  intros [= <-].
  destruct (emociones_fold_ok results []) as [Hnd Hin]; [constructor|].
  split_and!.
  - rewrite <-(length_map fst). by apply NoDup_Emocion.
  - done.
  - intros e x [?%elem_of_nil|(label & ? & ?)]%Hin; [done|].
    by exists label, results, rest.
Qed.

Lemma polaridad_de_sign label score :
  (0 <= score <= 1)%Q →
  match (polaridad_de label score).1 with
  | POSITIVO => (0 <= (polaridad_de label score).2)%Q
  | NEGATIVO => ((polaridad_de label score).2 <= 0)%Q
  | NEUTRAL => (polaridad_de label score).2 = 0%Q
  end
  ∧ (-1 <= (polaridad_de label score).2 <= 1)%Q.
Proof.
  intros Hs. unfold polaridad_de.
  destruct (_ || _); [simpl; lra|].
  destruct (_ || _); simpl; lra || (split; [done|lra]).
Qed.

(** X12. When the model's score lies between 0 and 1, an analysed article has a
    polarity, and a score of the matching sign between -1 and 1: not negative
    for [POSITIVO], not positive for [NEGATIVO], 0 for [NEUTRAL]. The
    identifier, the texts and the tags are as before. *)
Theorem analyze_sentiment_sign a a' :
  (∀ text label score rest,
     sentiment_analyzer text = (label, score) :: rest → (0 <= score <= 1)%Q) →
  analyze_sentiment a = inr a' →
  (∃ p, sentimiento a' = Some p
        ∧ match p with
          | POSITIVO => (0 <= score_sentimiento a')%Q
          | NEGATIVO => (score_sentimiento a' <= 0)%Q
          | NEUTRAL => score_sentimiento a' = 0%Q
          end)
  ∧ (-1 <= score_sentimiento a' <= 1)%Q
  ∧ (id a', titulo a', contenido a', tags a')
    = (id a, titulo a, contenido a, tags a).
Proof.
  intros Hmodel. unfold analyze_sentiment.
  destruct (sentiment_analyzer _) as [|[label score] rest] eqn:E; [done|].
  destruct (_analyze_emotions _) as [e|ems]; [done|].
  intros [= <-]. simpl.
  destruct (polaridad_de_sign (lower label) score) as [Hsign Hrange];
    [by eapply Hmodel|].
  split_and!; try done; try apply Hrange. by eexists.
Qed.

Lemma analizar_todos_ok arts arts' :
  analizar_todos arts = inr arts' →
  length arts' = length arts
  ∧ Forall (λ a, is_Some (sentimiento a)) arts'.
Proof.
  revert arts'. induction arts as [|a arts IH]; intros arts'; simpl.
  { intros [= <-]. by split. }
  destruct (analyze_sentiment a) as [e|a'] eqn:Ea; [done|].
  destruct (analizar_todos arts) as [e|rest]; [done|].
  intros [= <-]. destruct (IH _ eq_refl) as [Hlen Hall].
  split; [simpl; by rewrite Hlen|]. constructor; [|done].
  unfold analyze_sentiment in Ea.
  destruct (sentiment_analyzer _) as [|[label score] r]; [done|].
  destruct (_analyze_emotions _); [done|]. injection Ea as <-. by eexists.
Qed.

End SentimentFacts.

(** ** Scraping *)

Lemma str_prefix_app (a b : string) : String.prefix a (a +:+ b) = true.
Proof.
  induction a as [|c a IH]; [by destruct b|].
  change (String c a +:+ b) with (String c (a +:+ b)). simpl.
  by destruct (Ascii.ascii_dec c c).
Qed.

Section ScrapingFacts.
Context `{Runtime} `{Web}.

Lemma _extract_article_links_snoc hrefs href base :
  _extract_article_links (hrefs ++ [href]) base
  = agregar_link base (_extract_article_links hrefs base) href.
Proof. unfold _extract_article_links. by rewrite foldl_app. Qed.

(** X13. The links of a front page: none twice, each with one of the five path
    keywords in it, and each either an [href] that starts with [http] or the
    portal address followed by an [href] that starts with a slash. *)
Theorem article_links_wellformed hrefs base :
  NoDup (_extract_article_links hrefs base)
  ∧ ∀ link, link ∈ _extract_article_links hrefs base →
      existsb (λ keyword, str_in keyword link) link_keywords = true
      ∧ ((∃ href, Some href ∈ hrefs
                  ∧ String.prefix "/" href = true
                  ∧ link = base +:+ href)
         ∨ (Some link ∈ hrefs ∧ String.prefix "http" link = true)).
Proof.
  induction hrefs as [|href hrefs [IHnd IHin]] using rev_ind.
  { split; [constructor|]. by intros link ?%elem_of_nil. }
  rewrite _extract_article_links_snoc.
  set (links := _extract_article_links hrefs base) in *.
  assert (∀ link, link ∈ links →
            existsb (λ keyword, str_in keyword link) link_keywords = true
            ∧ ((∃ href0, Some href0 ∈ hrefs ++ [href]
                         ∧ String.prefix "/" href0 = true
                         ∧ link = base +:+ href0)
               ∨ (Some link ∈ hrefs ++ [href] ∧ String.prefix "http" link = true)))
    as IHin'.
  { intros link [Hkw [(h0 & ? & ? & ?)|[? ?]]]%IHin; (split; [done|]).
    - left. exists h0. by rewrite elem_of_app; auto.
    - right. by rewrite elem_of_app; auto. }
  unfold agregar_link.
  destruct href as [[|c link]|]; [done| |done].
  set (l := String c link) in *.
  assert (Some l ∈ hrefs ++ [Some l]) as Hlast
    by (rewrite elem_of_app, list_elem_of_singleton; by right).
  destruct (String.prefix "/" l) eqn:Hslash.
  - destruct (existsb _ _) eqn:Hkw; [|done].
    case_decide as Hdup; [done|]. split.
    + apply NoDup_app. split_and!; [done| |apply NoDup_singleton].
      intros x Hx ->%list_elem_of_singleton. done.
    + intros x [Hx| ->%list_elem_of_singleton]%elem_of_app; [by apply IHin'|].
      split; [done|]. left. by exists l.
  - destruct (String.prefix "http" l) eqn:Hhttp; cbn [negb]; [|done].
    destruct (existsb _ _) eqn:Hkw; [|done].
    case_decide as Hdup; [done|]. split.
    + apply NoDup_app. split_and!; [done| |apply NoDup_singleton].
      intros x Hx ->%list_elem_of_singleton. done.
    + intros x [Hx| ->%list_elem_of_singleton]%elem_of_app; [by apply IHin'|].
      split; [done|]. by right.
Qed.

(** An article as [_scrape_article] builds it. *)
Lemma _scrape_article_fresh url fuente config a :
  _scrape_article url fuente config = inr (Some a) →
  sentimiento a = None ∧ tags a = [] ∧ emociones a = []
  ∧ score_sentimiento a = 0%Q
  ∧ String.prefix (FuenteNoticia_value fuente +:+ "_") (id a) = true.
Proof.
  unfold _scrape_article.
  destruct (http_get url) as [e|[status html]]; [done|].
  case_decide; [done|].
  destruct (select_text _ _); [|done].
  destruct (select_text_sep _ _); [|done].
  intros [= <-]. simpl. split_and!; try done.
  rewrite <-str_app_assoc. apply str_prefix_app.
Qed.

Lemma scrape_news_portal_length fuente max_articles arts :
  scrape_news_portal fuente max_articles = inr arts →
  length arts ≤ max_articles ∧ is_Some (PORTALES_ARGENTINA fuente).
Proof.
  unfold scrape_news_portal.
  destruct (PORTALES_ARGENTINA fuente) as [config|] eqn:Hcfg; [|done].
  destruct (http_get (portal_url config)) as [e|[status html]]; [done|].
  intros [= <-]. split; [|done].
  etrans; [apply length_omap_le|]. rewrite length_take. lia.
Qed.

(** X14. A portal without an entry in [PORTALES_ARGENTINA] cannot be scraped:
    the lookup raises [KeyError] before any request; this is so for three of
    the seven sources. A scrape that returns gives at most [max_articles]
    articles of a configured portal, each not yet analysed: no polarity, no
    tags, no emotions, score 0, and an identifier that starts with the name of
    the source. *)
Theorem scrape_news_portal_result fuente max_articles :
  scrape_news_portal AMBITO max_articles = inl KeyError
  ∧ scrape_news_portal PERFIL max_articles = inl KeyError
  ∧ scrape_news_portal CRONISTA max_articles = inl KeyError
  ∧ ∀ arts,
      scrape_news_portal fuente max_articles = inr arts →
      length arts ≤ max_articles
      ∧ fuente ∈ [CLARIN; LA_NACION; PAGINA12; INFOBAE]
      ∧ Forall (λ a, sentimiento a = None ∧ tags a = [] ∧ emociones a = []
                     ∧ score_sentimiento a = 0%Q
                     ∧ String.prefix (FuenteNoticia_value fuente +:+ "_") (id a)
                       = true)
               arts.
Proof.
  split_and!; [done|done|done|]. intros arts.
  unfold scrape_news_portal.
  destruct (PORTALES_ARGENTINA fuente) as [config|] eqn:Hcfg; [|done].
  destruct (http_get (portal_url config)) as [e|[status html]]; [done|].
  intros [= <-]. split_and!; try done.
  - etrans; [apply length_omap_le|]. rewrite length_take. lia.
  - destruct fuente; try done; set_solver.
  - apply Forall_forall. intros a (link & _ & Ha)%list_elem_of_omap.
    destruct (_scrape_article link fuente config) as [e|[a0|]] eqn:Hs; try done.
    injection Ha as ->. by eapply _scrape_article_fresh.
Qed.

End ScrapingFacts.

(** ** The full analysis *)

Section FullAnalysis.
Context `{Runtime} `{Models} `{Web}.

Lemma scrape_length fuente :
  length (match scrape_news_portal fuente 30 with
          | inr articulos => articulos
          | inl _ => []
          end) ≤ (if PORTALES_ARGENTINA fuente is Some _ then 30 else 0).
Proof.
  destruct (scrape_news_portal fuente 30) as [e|arts] eqn:E.
  - simpl. destruct (PORTALES_ARGENTINA fuente); lia.
  - apply scrape_news_portal_length in E as [Hlen [config ->]]. done.
Qed.

Lemma scrape_todos_length : length scrape_todos ≤ 120.
Proof.
  unfold scrape_todos, fuentes. cbn [map concat].
  rewrite !length_app.
  pose proof (scrape_length CLARIN). pose proof (scrape_length LA_NACION).
  pose proof (scrape_length PAGINA12). pose proof (scrape_length INFOBAE).
  pose proof (scrape_length AMBITO). pose proof (scrape_length PERFIL).
  pose proof (scrape_length CRONISTA).
  simpl in *. lia.
Qed.

Lemma etiquetar_sentimiento arts :
  map sentimiento (etiquetar arts) = map sentimiento arts.
Proof. unfold etiquetar. by rewrite map_map. Qed.

Lemma length_etiquetar arts : length (etiquetar arts) = length arts.
Proof. unfold etiquetar. by rewrite length_map. Qed.

(** X15. When the full analysis returns a report, between 1 and 120 articles
    were scraped (30 at most from each of the four configured portals), each
    has a polarity, the dominant polarity of the report is one of them, there
    are at most 20 trending topics, and the store is the one the trend
    tracker left. *)
Theorem run_full_analysis_report s inf s' :
  run_full_analysis s = (inr inf, s') →
  1 ≤ length (inf_articulos inf) ≤ 120
  ∧ Forall (λ a, is_Some (sentimiento a)) (inf_articulos inf)
  ∧ (∃ p, polaridad_dominante (inf_analisis_colectivo inf) = Some p
          ∧ Some p ∈ map sentimiento (inf_articulos inf))
  ∧ length (inf_trending_topics inf) ≤ 20
  ∧ ∃ analizados,
      analizar_todos scrape_todos = inr analizados
      ∧ inf_trending_topics inf = tendencias analizados s
      ∧ s' = store_final analizados s.
Proof.
  unfold run_full_analysis.
  destruct (analizar_todos scrape_todos) as [e|analizados] eqn:Ean; [done|].
  rewrite extract_hashtags_and_trends_eq, <-tendencias_eq, <-store_final_eq.
  destruct (analyze_collective_sentiment _ _) as [e|snap] eqn:Esnap; [done|].
  intros [= <- <-]. simpl.
  apply analizar_todos_ok in Ean as Hok. destruct Hok as [Hlen Hsome].
  assert (Forall (λ a, is_Some (sentimiento a)) (etiquetar analizados)) as Hsome'.
  { rewrite Forall_forall in Hsome |- *. intros a Ha. unfold etiquetar in Ha.
    apply list_elem_of_fmap in Ha as (a0 & -> & Ha0). simpl. by apply Hsome. }
  assert (etiquetar analizados ≠ []) as Hne.
  { intros Hnil. by rewrite Hnil in Esnap. }
  split_and!.
  - destruct (etiquetar analizados); [done|]. simpl. lia.
  - rewrite length_etiquetar, Hlen. apply scrape_todos_length.
  - done.
  - unfold analyze_collective_sentiment in Esnap.
    destruct (most_common_1 (map sentimiento (etiquetar analizados)))
      as (d & n & rest & Hmc & _ & l1 & l2 & Hl & _).
    { by destruct (etiquetar analizados). }
    rewrite Hmc in Esnap. injection Esnap as <-. simpl.
    assert (d ∈ map sentimiento (etiquetar analizados)) as Hd
      by (rewrite Hl, elem_of_app; right; left).
    pose proof Hd as (a & -> & Ha)%list_elem_of_fmap.
    rewrite Forall_forall in Hsome'. destruct (Hsome' a Ha) as [p Hp].
    exists p. split; [done|]. by rewrite <-Hp.
  - apply tendencias_length.
  - by exists analizados.
Qed.

(** X16. When no article could be scraped, the full analysis does not return
    an empty report: it raises [IndexError], and the store is as before. *)
Theorem run_full_analysis_nothing_scraped s :
  scrape_todos = [] →
  run_full_analysis s = (inl IndexError, s).
Proof. intros Hnil. unfold run_full_analysis. by rewrite Hnil. Qed.

End FullAnalysis.

(** ** [most_common] in general *)

Lemma StronglySorted_mono_in {A} (R R' : A → A → Prop) (l : list A) :
  (∀ x y, x ∈ l → y ∈ l → R x y → R' x y) →
  StronglySorted R l → StronglySorted R' l.
Proof.
  intros HR Hs. induction Hs as [|x l Hs IH Hx]; constructor.
  - apply IH. intros y z Hy Hz. apply HR; by right.
  - rewrite Forall_forall in Hx |- *. intros y Hy.
    apply HR; [left|by right|by apply Hx].
Qed.

Lemma most_common_facts {A} `{EqDecision A} (n : nat) (l : list A) :
  length (most_common n (Counter l)) ≤ n
  ∧ NoDup (map fst (most_common n (Counter l)))
  ∧ (∀ x c, (x, c) ∈ most_common n (Counter l) → x ∈ l ∧ c = ocurrencias x l)
  ∧ StronglySorted (λ x y, (y.2 ≤ x.2)%Z) (most_common n (Counter l)).
Proof.
  unfold most_common.
  set (lt := λ x y : A * Z, (x.2 <? y.2)%Z).
  split_and!.
  - rewrite length_take. lia.
  - eapply sublist_NoDup; [|apply fmap_sublist, sublist_take].
    rewrite (sorted_reverse_perm lt). apply NoDup_Counter_keys.
  - intros x c Hin. apply elem_of_Counter, (elem_of_sorted_reverse lt).
    by eapply elem_of_sublist, sublist_take.
  - eapply StronglySorted_sublist; [apply sublist_take|].
    eapply StronglySorted_mono; [|apply (sorted_reverse_desc lt)].
    + unfold lt. intros x y. lia.
    + intros x y. apply (Zltb_asym snd).
    + intros x y z. apply (Zltb_cotrans snd).
Qed.

Lemma ocurrencias_filter {A} `{EqDecision A} (P : A → Prop) `{∀ x, Decision (P x)}
    (x : A) (l : list A) :
  P x → ocurrencias x (filter P l) = ocurrencias x l.
Proof.
  intros Hx. unfold ocurrencias. induction l as [|y l IH]; [done|].
  rewrite !filter_cons. destruct (decide (P y)) as [Hy|Hy].
  - rewrite filter_cons. destruct (decide (y = x)); simpl; lia.
  - rewrite decide_False; [done|]. by intros ->.
Qed.

(** ** The audio pipeline *)

Section NlpFacts.
Import ASR Nlp.
Context `{Runtime} `{Engines}.

Lemma TemasCriticos_of_value t : TemasCriticos_of (TemasCriticos_value t) = Some t.
Proof. by destruct t. Qed.

Lemma TemasCriticos_of_Some label t :
  TemasCriticos_of label = Some t → TemasCriticos_value t = label.
Proof.
  unfold TemasCriticos_of. intros [_ Hv]%find_some.
  by apply bool_decide_eq_true in Hv.
Qed.

(** X17. When every label the classifier scores above 0.3 is one of the
    candidate labels it was given, [_classify_topics] returns, and returns the
    members for exactly those labels, in the classifier's order. A label at
    0.3 or below is left out. *)
Theorem classify_topics_result text :
  Forall (λ ls, Qltb 0.3 ls.2 = true →
                ls.1 ∈ map TemasCriticos_value temas_criticos)
         (zip (classifier (str_take 1000 text)
                 (map TemasCriticos_value temas_criticos)).1
              (classifier (str_take 1000 text)
                 (map TemasCriticos_value temas_criticos)).2) →
  ∃ temas,
    _classify_topics text = inr temas
    ∧ map TemasCriticos_value temas
      = map fst
          (filter (λ ls, Qltb 0.3 ls.2 = true)
             (zip (classifier (str_take 1000 text)
                     (map TemasCriticos_value temas_criticos)).1
                  (classifier (str_take 1000 text)
                     (map TemasCriticos_value temas_criticos)).2)).
Proof.
  unfold _classify_topics.
  set (pairs := zip _ _). clearbody pairs.
  induction 1 as [|[label score] pairs Hl _ (temas & IHeq & IH)]; cbn [foldr fst snd].
  { by exists []. }
  rewrite IHeq, filter_cons. cbn [snd].
  destruct (Qltb 0.3 score) eqn:Hs.
  - rewrite decide_True by done.
    cbn [fst snd] in Hl.
    apply list_elem_of_fmap in Hl as (t & -> & _); [|done].
    rewrite TemasCriticos_of_value. exists (t :: temas).
    split; [done|]. simpl. by rewrite IH.
  - rewrite decide_False by done. by exists temas.
Qed.

(** *** Keywords *)

(** X18. The keywords of a transcription: 20 at most, none twice, each a word of
    the lowered text that is not a stopword, the more frequent first. *)
Theorem extract_keywords_result text :
  length (_extract_keywords text) ≤ 20
  ∧ NoDup (_extract_keywords text)
  ∧ (∀ w, w ∈ _extract_keywords text →
          w ∈ findall_words (lower text) ∧ w ∉ stopwords)
  ∧ StronglySorted
      (λ w1 w2, (ocurrencias w2 (findall_words (lower text))
                 ≤ ocurrencias w1 (findall_words (lower text)))%Z)
      (_extract_keywords text).
Proof.
  unfold _extract_keywords.
  set (words := findall_words (lower text)).
  set (kept := filter (λ w, w ∉ stopwords) words).
  destruct (most_common_facts 20 kept) as (Hlen & Hnd & Hin & Hs).
  split_and!.
  - by rewrite length_map.
  - done.
  - intros w ([w' c] & -> & [Hw _]%Hin)%list_elem_of_fmap.
    by apply list_elem_of_filter in Hw as [? ?].
  - apply (StronglySorted_fmap fst).
    eapply StronglySorted_mono_in; [|exact Hs].
    intros [x cx] [y cy] [Hx ->]%Hin [Hy ->]%Hin Hle. simpl in *.
    unfold kept in *.
    apply list_elem_of_filter in Hx as [Hxs _].
    apply list_elem_of_filter in Hy as [Hys _].
    by rewrite !(ocurrencias_filter (λ w, w ∉ stopwords)) in Hle by done.
Qed.

End NlpFacts.

Section DictFacts2.
Context {K V : Type} `{EqDecision K}.
Implicit Types (d : list (K * V)).

Lemma elem_of_dict_set_keys x k v d :
  x ∈ (dict_set k v d).*1 ↔ x ∈ d.*1 ∨ x = k.
Proof.
  rewrite dict_set_keys. case_decide as Hk.
  - split; [by left|]. by intros [?| ->].
  - by rewrite elem_of_app, list_elem_of_singleton.
Qed.

(** After [d[k] = v] the entry of [k] is the new one, the others are as
    before. *)
Lemma elem_of_dict_set_NoDup k v d x y :
  NoDup d.*1 →
  (x, y) ∈ dict_set k v d →
  (x = k ∧ y = v) ∨ (x ≠ k ∧ (x, y) ∈ d).
Proof.
  induction d as [|[k' v'] d IH]; csimpl.
  { intros _ [= -> ->]%list_elem_of_singleton. by left. }
  intros [Hk' Hnd]%NoDup_cons. destruct (decide (k = k')) as [->|Hne].
  - intros [[= -> ->]|Hin]%elem_of_cons; [by left|].
    right. split; [|by right]. intros ->. apply Hk'.
    apply list_elem_of_fmap. by exists (k', y).
  - intros [[= -> ->]|Hin]%elem_of_cons.
    + right. split; [done|left].
    + destruct (IH Hnd Hin) as [?|[? ?]]; [by left|]. right. split; [done|by right].
Qed.

End DictFacts2.

Section ActorFacts.
Import ASR Nlp.
Context `{Runtime} `{Engines}.

(** The names of the entities tagged as persons, in order. *)
Lemma contar_mencion_inv (d : list (string * (Z * list string)))
    (names : list string) (e : string * string) :
  NoDup d.*1 →
  (∀ n, n ∈ d.*1 ↔ n ∈ names) →
  (∀ n m q, (n, (m, q)) ∈ d → q = [] ∧ m = ocurrencias n names) →
  let names' := names ++ map snd (filter (λ e, e.1 = "PER") [e]) in
  NoDup (contar_mencion d e).*1
  ∧ (∀ n, n ∈ (contar_mencion d e).*1 ↔ n ∈ names')
  ∧ (∀ n m q, (n, (m, q)) ∈ contar_mencion d e →
              q = [] ∧ m = ocurrencias n names').
Proof.
  intros Hnd Hkeys Hent. unfold contar_mencion.
  rewrite filter_cons, filter_nil.
  destruct (decide (e.1 = "PER")) as [Hper|Hper]; simpl.
  2:{ rewrite app_nil_r. done. }
  set (name := e.2).
  destruct (dict_get name d) as [[m0 q0]|] eqn:Hget.
  - rewrite Hget. apply dict_get_Some in Hget as Hin0.
    destruct (Hent _ _ _ Hin0) as [-> ->]. split_and!.
    + by apply dict_set_NoDup.
    + intros n. rewrite elem_of_dict_set_keys, Hkeys, elem_of_app,
        list_elem_of_singleton. done.
    + intros n m q [[-> [= -> ->]]|[Hne Hin]]%elem_of_dict_set_NoDup; [| |done].
      * split; [done|]. rewrite ocurrencias_snoc, decide_True by done. done.
      * destruct (Hent _ _ _ Hin) as [-> ->]. split; [done|].
        rewrite ocurrencias_snoc, decide_False by done. lia.
  - apply dict_get_None in Hget as Hnotin.
    rewrite dict_get_set.
    assert (NoDup (dict_set name (0%Z, []) d).*1) as Hnd1 by by apply dict_set_NoDup.
    split_and!.
    + by apply dict_set_NoDup.
    + intros n. rewrite !elem_of_dict_set_keys, Hkeys, elem_of_app,
        list_elem_of_singleton. tauto.
    + intros n m q [[-> [= -> ->]]|[Hne Hin]]%elem_of_dict_set_NoDup; [| |done].
      * split; [done|]. rewrite ocurrencias_snoc, decide_True by done.
        rewrite ocurrencias_notin; [done|]. by rewrite <-Hkeys.
      * apply elem_of_dict_set_NoDup in Hin as [[? _]|[_ Hin]]; [done| |done].
        destruct (Hent _ _ _ Hin) as [-> ->]. split; [done|].
        rewrite ocurrencias_snoc, decide_False by done. lia.
Qed.

Lemma actors_dict_inv (entities : list (string * string)) :
  let d := foldl contar_mencion [] entities in
  let names := map snd (filter (λ e, e.1 = "PER") entities) in
  NoDup d.*1
  ∧ (∀ n, n ∈ d.*1 ↔ n ∈ names)
  ∧ (∀ n m q, (n, (m, q)) ∈ d → q = [] ∧ m = ocurrencias n names).
Proof.
  induction entities as [|e entities (Hnd & Hkeys & Hent)] using rev_ind.
  { split_and!; [constructor|done|]. by intros n m q ?%elem_of_nil. }
  cbv zeta. rewrite foldl_app, filter_app, map_app. cbn [foldl].
  by apply contar_mencion_inv.
Qed.

(** X19. The actors of a transcription: ten at most, no name twice, the more
    mentioned first; each is a person the NER model found, with as many
    mentions as the model found entities of that name, and with at most three
    quotes, all of them quoted passages of the text. *)
Theorem extract_actors_result text :
  length (_extract_actors text) ≤ 10
  ∧ NoDup (map name (_extract_actors text))
  ∧ Forall
      (λ a,
         name a ∈ map snd (filter (λ e, e.1 = "PER") (ner_model text))
         ∧ mentions a
           = ocurrencias (name a)
               (map snd (filter (λ e, e.1 = "PER") (ner_model text)))
         ∧ length (quotes a) ≤ 3
         ∧ quotes a ⊆ findall_quoted text None)
      (_extract_actors text)
  ∧ StronglySorted (λ a b, (mentions b ≤ mentions a)%Z) (_extract_actors text).
Proof.
  unfold _extract_actors.
  destruct (actors_dict_inv (ner_model text)) as (Hnd & Hkeys & Hent).
  set (d := foldl contar_mencion [] (ner_model text)) in *.
  set (names := map snd (filter (λ e, e.1 = "PER") (ner_model text))) in *.
  set (cit := citas_de text (findall_quoted text None)).
  set (d' := map (λ nd, (nd.1, (nd.2.1, nd.2.2 ++ cit nd.1))) d).
  set (lt := λ x y : string * (Z * list string), (x.2.1 <? y.2.1)%Z).
  set (top := take 10 (sorted_reverse lt d')).
  assert (d'.*1 = d.*1) as Hfst by (unfold d'; by rewrite <-list_fmap_compose).
  assert (∀ nd, nd ∈ top → nd ∈ d') as Htop.
  { intros nd Hin. apply (elem_of_sorted_reverse lt).
    by eapply elem_of_sublist, sublist_take. }
  split_and!.
  - rewrite length_map. unfold top. rewrite length_take. lia.
  - rewrite map_map. simpl.
    eapply sublist_NoDup; [|apply (fmap_sublist fst), sublist_take].
    change (NoDup (sorted_reverse lt d').*1).
    by rewrite (sorted_reverse_perm lt), Hfst.
  - apply Forall_fmap, Forall_forall. intros nd Hin%Htop. simpl.
    unfold d' in Hin. apply list_elem_of_fmap in Hin as ([n [m q]] & -> & Hin).
    simpl. destruct (Hent _ _ _ Hin) as [-> ->]. split_and!.
    + apply Hkeys, list_elem_of_fmap. by exists (n, (ocurrencias n names, [])).
    + done.
    + rewrite length_take. lia.
    + intros x Hx. simpl in Hx.
      eapply elem_of_sublist in Hx; [|apply sublist_take].
      unfold cit, citas_de in Hx. by apply list_elem_of_filter in Hx as [_ ?].
  - apply StronglySorted_fmap. simpl.
    eapply StronglySorted_sublist; [apply sublist_take|].
    eapply StronglySorted_mono; [|apply (sorted_reverse_desc lt)].
    + unfold lt. intros x y. lia.
    + intros x y. apply (Zltb_asym (λ nd : string * (Z * list string), nd.2.1)).
    + intros x y z. apply (Zltb_cotrans (λ nd : string * (Z * list string), nd.2.1)).
Qed.

End ActorFacts.

(** ** The Pinecone index *)

Section PineconeFacts.
Import ASR.

(** A slice has as many characters as asked for, or all there are. *)
Lemma str_take_chars (n : nat) (s : string) :
  str_chars (str_take n s) = Nat.min n (str_chars s).
Proof.
  revert n. induction s as [|c s IH]; intros n; cbn [str_take str_chars].
  { lia. }
  destruct (continuation c) eqn:Ec; cbn [str_chars]; rewrite ?Ec.
  - apply IH.
  - destruct n as [|n]; cbn [str_chars]; rewrite ?Ec, ?IH; lia.
Qed.

Lemma str_take_prefix (n : nat) (s : string) :
  String.prefix (str_take n s) s = true.
Proof.
  revert n. induction s as [|c s IH]; intros n; cbn [str_take]; [done|].
  destruct (continuation c); [|destruct n as [|n]; [done|]];
    cbn [String.prefix]; destruct (Ascii.ascii_dec c c); try done; apply IH.
Qed.

Lemma str_take_all (n : nat) (s : string) :
  str_chars s ≤ n → str_take n s = s.
Proof.
  revert n. induction s as [|c s IH]; intros n; cbn [str_take str_chars]; [done|].
  destruct (continuation c).
  - intros Hn. by rewrite IH.
  - destruct n as [|n]; [lia|]. intros Hn. rewrite IH by lia. done.
Qed.

(** Characters, not bytes: [ñ] takes two bytes and counts once. *)
Lemma str_take_acentos :
  str_take 3 "año nuevo" = "año"
  ∧ str_chars "año" = 3
  ∧ String.length "año" = 4.
Proof. vm_compute. done. Qed.

(** X23. A recording stored in Pinecone can be read back under its source id,
    with its embedding and with the first 1000 characters of its
    transcription (all of it when it has no more); the other records of the
    index are as before. The embedding has the width of the index. *)
Theorem pinecone_store_lookup p ix ix' :
  _store_pinecone p ix = inr ix' →
  (∃ md, ix' !! id (source p) = Some (embeddings p, md)
         ∧ md_transcription md = str_take 1000 (transcription p)
         ∧ str_chars (md_transcription md) = Nat.min 1000 (str_chars (transcription p))
         ∧ String.prefix (md_transcription md) (transcription p) = true
         ∧ (str_chars (transcription p) ≤ 1000 →
            md_transcription md = transcription p)
         ∧ md_temas md = map TemasCriticos_value (temas p))
  ∧ length (embeddings p) = 384
  ∧ ∀ k, k ≠ id (source p) → ix' !! k = ix !! k.
Proof.
  unfold _store_pinecone, upsert. case_decide as Hdim; [|done].
  intros [= <-]. split_and!.
  - eexists. split; [apply lookup_insert_eq|]. cbn [md_transcription md_temas].
    split_and!; [done|apply str_take_chars|apply str_take_prefix| |done].
    apply str_take_all.
  - done.
  - intros k Hk. by rewrite lookup_insert_ne.
Qed.

End PineconeFacts.

(** ** The further properties on sample inputs *)

Section MoreWitnesses.
Import AsciiRuntime Samples Muestras.

Lemma first_occurrences_NoDup (l : list string) : NoDup (first_occurrences l).
Proof.
  induction l as [|x l IH]; simpl; [constructor|].
  constructor; [|by apply NoDup_filter].
  intros [? _]%list_elem_of_filter. done.
Qed.

Lemma paro_scores a : a ∈ paro → (-1 <= score_sentimiento a <= 1)%Q.
Proof.
  unfold paro, seis. intros (i & -> & _)%list_elem_of_fmap. simpl. lra.
Qed.

Lemma paro_in_tendencias :
  candidato "#paro" 6 (etiquetar paro) ∅ ∈ tendencias paro ∅.
Proof. rewrite tendencias_paro. left. Qed.

(** Six articles on [#paro]: six mentions. *)
Lemma menciones_counts_articles_witness :
  (∀ l, NoDup (list_set l))
  ∧ candidato "#paro" 6 (etiquetar paro) ∅ ∈ tendencias paro ∅
  ∧ menciones (candidato "#paro" 6 (etiquetar paro) ∅)
    = count_if (λ a, bool_decide
                       (hashtag (candidato "#paro" 6 (etiquetar paro) ∅) ∈ tags a))
               (extract_hashtags_and_trends paro ∅).1.2
  ∧ (1 ≤ menciones (candidato "#paro" 6 (etiquetar paro) ∅)
     ≤ Z.of_nat (length paro))%Z.
Proof.
  split; [exact first_occurrences_NoDup|]. split; [exact paro_in_tendencias|].
  exact (menciones_counts_articles paro ∅ _ first_occurrences_NoDup paro_in_tendencias).
Defined.

(** Six articles on [#paro] with a score of -0.9 each. *)
Lemma enojados_sentimiento a :
  a ∈ enojados → (-1 <= score_sentimiento a <= 1)%Q.
Proof.
  unfold enojados. intros (i & -> & _)%list_elem_of_fmap. simpl. lra.
Qed.

Lemma enojados_in_tendencias :
  candidato "#paro" 6 (etiquetar enojados) ∅ ∈ tendencias enojados ∅.
Proof.
  replace (tendencias enojados ∅)
    with [candidato "#paro" 6 (etiquetar enojados) ∅]
    by (vm_compute; reflexivity).
  left.
Qed.

Lemma related_documents_contain_hashtag_witness :
  let t := candidato "#paro" 6 (etiquetar enojados) ∅ in
  let related :=
    filter (λ a, str_in (hashtag t) (lower (texto a)) = true) enojados in
  (∀ a, a ∈ enojados → (-1 <= score_sentimiento a <= 1)%Q)
  ∧ t ∈ tendencias enojados ∅
  ∧ articulos_relacionados t = map id related
  ∧ sentimiento_promedio t
    = match related with
      | [] => 0%Q
      | _ => np_mean (map score_sentimiento related)
      end
  ∧ (-1 <= sentimiento_promedio t <= 1)%Q
  ∧ (articulos_relacionados t = [] → sentimiento_promedio t = 0%Q).
Proof.
  intros t related.
  split; [exact enojados_sentimiento|]. split; [exact enojados_in_tendencias|].
  exact (related_documents_contain_hashtag enojados ∅ t
           enojados_sentimiento enojados_in_tendencias).
Defined.

(** The average of the six scores is -0.9. *)
Lemma sentimiento_promedio_enojados :
  (sentimiento_promedio (candidato "#paro" 6 (etiquetar enojados) ∅) == - 0.9)%Q
  ∧ length (articulos_relacionados (candidato "#paro" 6 (etiquetar enojados) ∅)) = 6.
Proof. split; vm_compute; reflexivity. Qed.

Lemma new_topics_need_six_mentions_witness :
  (∀ a, a ∈ paro → (-1 <= score_sentimiento a <= 1)%Q)
  ∧ (∀ h' c', (h', c') ∈ candidatos paro →
              (∅ : Redis.store) !! redis_key_24h h' = None)
  ∧ (∀ h' c' c'', (h', c') ∈ candidatos paro →
                  (h' +:+ ":24h", c'') ∉ candidatos paro)
  ∧ ("#paro", 6%Z) ∈ candidatos paro
  ∧ ("#paro" ∈ map hashtag (tendencias paro ∅) ↔ (5 < 6)%Z).
Proof.
  assert (∀ h' c', (h', c') ∈ candidatos paro →
                   (∅ : Redis.store) !! redis_key_24h h' = None) as Hs
    by (intros; apply lookup_empty).
  assert (∀ h' c' c'', (h', c') ∈ candidatos paro →
                       (h' +:+ ":24h", c'') ∉ candidatos paro) as Hcol.
  { intros h' c' c''. rewrite candidatos_paro.
    intros [= -> ->]%list_elem_of_singleton [=]%list_elem_of_singleton. }
  assert (("#paro", 6%Z) ∈ candidatos paro) as Hin
    by (rewrite candidatos_paro; left).
  split; [exact paro_scores|]. split; [exact Hs|]. split; [exact Hcol|].
  split; [exact Hin|].
  exact (new_topics_need_six_mentions paro ∅ "#paro" 6 paro_scores Hs Hcol Hin).
Defined.

Lemma tendencias_enojados :
  tendencias enojados ∅ = [candidato "#paro" 6 (etiquetar enojados) ∅].
Proof. vm_compute. reflexivity. Qed.

(** Four emotions reported, the three with the highest means kept. *)
Lemma dominant_emotions_of_related_witness :
  candidato "#paro" 6 (etiquetar enojados) ∅ ∈ tendencias enojados ∅
  ∧ length (emociones_dominantes (candidato "#paro" 6 (etiquetar enojados) ∅)) ≤ 3
  ∧ NoDup (emociones_dominantes (candidato "#paro" 6 (etiquetar enojados) ∅))
  ∧ ∀ e, e ∈ emociones_dominantes (candidato "#paro" 6 (etiquetar enojados) ∅) →
         ∃ a, a ∈ enojados
              ∧ str_in (hashtag (candidato "#paro" 6 (etiquetar enojados) ∅))
                       (lower (texto a)) = true
              ∧ e ∈ map fst (emociones a).
Proof.
  assert (candidato "#paro" 6 (etiquetar enojados) ∅ ∈ tendencias enojados ∅) as Hin
    by (rewrite tendencias_enojados; left).
  split; [exact Hin|].
  exact (dominant_emotions_of_related enojados ∅ _ Hin).
Defined.

Lemma dominant_emotions_enojados :
  emociones_dominantes (candidato "#paro" 6 (etiquetar enojados) ∅)
  = [ENOJO; MIEDO; TRISTEZA].
Proof. vm_compute. reflexivity. Qed.

Lemma enojados_scores a e x :
  a ∈ enojados → (e, x) ∈ emociones a → (0 <= x <= 1)%Q.
Proof.
  unfold enojados. intros (i & -> & _)%list_elem_of_fmap. simpl.
  rewrite !elem_of_cons, elem_of_nil.
  intros [[= _ ->]|[[= _ ->]|[[= _ ->]|[[= _ ->]|[]]]]]; lra.
Qed.

Lemma enojados_snapshot :
  ∃ snap, analyze_collective_sentiment enojados [] = inr snap.
Proof. eexists. vm_compute. reflexivity. Qed.

Lemma emotion_distribution_means_witness :
  ∃ snap,
    analyze_collective_sentiment enojados [] = inr snap
    ∧ NoDup (map fst (distribucion_emociones snap))
    ∧ (∀ e, e ∈ map fst (distribucion_emociones snap)
            ↔ ∃ a, a ∈ enojados ∧ e ∈ map fst (emociones a))
    ∧ ∀ e x, (e, x) ∈ distribucion_emociones snap →
             puntajes e enojados ≠ [] ∧ x = np_mean (puntajes e enojados).
Proof.
  destruct enojados_snapshot as [snap Hsnap]. exists snap.
  split; [exact Hsnap|].
  exact (emotion_distribution_means enojados [] snap Hsnap).
Defined.

(** The four emotions of the sample batch, each with six scores; surprise,
    which no article reports, has no entry. *)
Lemma distribucion_enojados :
  map fst (distribucion_de enojados) = [ENOJO; MIEDO; ALEGRIA; TRISTEZA]
  ∧ puntajes ALEGRIA enojados = replicate 6 0.1%Q
  ∧ puntajes SORPRESA enojados = [].
Proof. split_and!; vm_compute; reflexivity. Qed.

Lemma store_frame_witness :
  String.prefix "hashtag:" "sesion:1" = false
  ∧ store_final paro con_otra !! "sesion:1" = con_otra !! "sesion:1"
  ∧ ∀ k', is_Some (con_otra !! k') → is_Some (store_final paro con_otra !! k').
Proof.
  split; [reflexivity|].
  exact (store_frame paro con_otra "sesion:1" eq_refl).
Defined.

Lemma viral_probability_monotone_witness :
  (6 ≤ 60)%Z ∧ (0 <= 100)%Q ∧ (0.25 <= 2.5)%Q ∧ (0 <= 0.5)%Q
  ∧ (_calculate_viral_probability 6 0 0.25 0
     <= _calculate_viral_probability 60 100 2.5 0.5)%Q.
Proof.
  assert (6 ≤ 60)%Z as Hm by lia.
  assert (0 <= 100)%Q as Hg by lra.
  assert (0.25 <= 2.5)%Q as Hv by lra.
  assert (0 <= 0.5)%Q as Hi by lra.
  split; [exact Hm|]. split; [exact Hg|]. split; [exact Hv|]. split; [exact Hi|].
  exact (viral_probability_monotone 6 60 0 100 0.25 2.5 0 0.5 Hm Hg Hv Hi).
Defined.

Lemma enojados_nonneg a e x : a ∈ enojados → (e, x) ∈ emociones a → (0 <= x)%Q.
Proof. intros Ha He. by destruct (enojados_scores a e x Ha He). Qed.

Lemma social_tension_range_witness :
  (∀ a e x, a ∈ enojados → (e, x) ∈ emociones a → (0 <= x)%Q)
  ∧ (_calculate_social_tension enojados [] <= 100)%Q
  ∧ (0 <= _calculate_social_tension enojados [])%Q.
Proof.
  split; [exact enojados_nonneg|].
  split; [exact (proj1 (social_tension_range enojados []))|].
  exact (proj2 (social_tension_range enojados []) enojados_nonneg).
Defined.

(** No cut at 0: one neutral article with an anger score of -1 gives a
    tension of -3000. *)
Lemma social_tension_negative :
  (_calculate_social_tension
     [ {| id := "x"; titulo := "t"; contenido := ""; tags := [];
          sentimiento := Some NEUTRAL; emociones := [(ENOJO, (-1)%Q)];
          score_sentimiento := 0 |} ] [] == -3000)%Q.
Proof. vm_compute. reflexivity. Qed.

(** No conflict keyword in the titles and no trends: no indicator. *)
Lemma conflict_indicators_bounded_witness :
  _detect_conflict_indicators dos [] = [].
Proof.
  apply (proj2 (conflict_indicators_bounded dos [])); [reflexivity|].
  repeat constructor.
Defined.

End MoreWitnesses.

Section CrawlerWitnesses.
Import AsciiRuntime Samples Muestras.
#[local] Existing Instance modelos.
#[local] Existing Instance web_clarin.

Lemma modelos_score text label score rest :
  sentiment_analyzer text = (label, score) :: rest → (0 <= score <= 1)%Q.
Proof.
  simpl. destruct (str_in "crisis" text); intros [= _ <- _]; lra.
Qed.

(** The sample emotion model answers [anger] twice and one label outside
    the map: two emotions come back, [ENOJO] with the later score. *)
Lemma analyze_emotions_mapped_witness :
  _analyze_emotions "sin servicios" = inr [(ENOJO, 0.7%Q); (ALEGRIA, 0.25%Q)]
  ∧ length [(ENOJO, 0.7%Q); (ALEGRIA, 0.25%Q)] ≤ 6
  ∧ NoDup (map fst [(ENOJO, 0.7%Q); (ALEGRIA, 0.25%Q)])
  ∧ ∀ e x, (e, x) ∈ [(ENOJO, 0.7%Q); (ALEGRIA, 0.25%Q)] →
           ∃ label results rest,
             emotion_analyzer (ASR.str_take 512 "sin servicios") = results :: rest
             ∧ (label, x) ∈ results
             ∧ (label, e) ∈ emotion_map.
Proof.
  assert (_analyze_emotions "sin servicios"
          = inr [(ENOJO, 0.7%Q); (ALEGRIA, 0.25%Q)]) as Hem by reflexivity.
  split; [exact Hem|].
  exact (analyze_emotions_mapped "sin servicios" _ Hem).
Defined.

Lemma analyze_sentiment_sign_witness :
  ∃ a',
    (∀ text label score rest,
       sentiment_analyzer text = (label, score) :: rest → (0 <= score <= 1)%Q)
    ∧ analyze_sentiment (articulo "c1" "crisis cambiaria" NEUTRAL 0) = inr a'
    ∧ (∃ p, sentimiento a' = Some p
            ∧ match p with
              | POSITIVO => (0 <= score_sentimiento a')%Q
              | NEGATIVO => (score_sentimiento a' <= 0)%Q
              | NEUTRAL => score_sentimiento a' = 0%Q
              end)
    ∧ (-1 <= score_sentimiento a' <= 1)%Q
    ∧ (id a', titulo a', contenido a', tags a')
      = (id (articulo "c1" "crisis cambiaria" NEUTRAL 0),
         titulo (articulo "c1" "crisis cambiaria" NEUTRAL 0),
         contenido (articulo "c1" "crisis cambiaria" NEUTRAL 0),
         tags (articulo "c1" "crisis cambiaria" NEUTRAL 0)).
Proof.
  eexists. split; [exact modelos_score|].
  assert (analyze_sentiment (articulo "c1" "crisis cambiaria" NEUTRAL 0)
          = inr {| id := "c1"; titulo := "crisis cambiaria"; contenido := "";
                   tags := []; sentimiento := Some NEGATIVO;
                   emociones := [(ENOJO, 0.7%Q); (ALEGRIA, 0.25%Q)];
                   score_sentimiento := (- 0.9)%Q |}) as Han by reflexivity.
  split; [exact Han|].
  exact (analyze_sentiment_sign _ _ modelos_score Han).
Defined.

(** The front page of the sample web: two links, the repeated one once. *)
Lemma article_links_wellformed_witness :
  _extract_article_links (soup_hrefs "portada") "https://www.clarin.com"
  = [ "https://www.clarin.com/politica/crisis-1";
      "https://www.clarin.com/economia/caida" ]
  ∧ "https://www.clarin.com/politica/crisis-1"
    ∈ _extract_article_links (soup_hrefs "portada") "https://www.clarin.com"
  ∧ existsb (λ keyword, str_in keyword "https://www.clarin.com/politica/crisis-1")
            link_keywords = true
  ∧ ((∃ href, Some href ∈ soup_hrefs "portada"
              ∧ String.prefix "/" href = true
              ∧ "https://www.clarin.com/politica/crisis-1"
                = "https://www.clarin.com" +:+ href)
     ∨ (Some "https://www.clarin.com/politica/crisis-1" ∈ soup_hrefs "portada"
        ∧ String.prefix "http" "https://www.clarin.com/politica/crisis-1" = true)).
Proof.
  assert (_extract_article_links (soup_hrefs "portada") "https://www.clarin.com"
          = [ "https://www.clarin.com/politica/crisis-1";
              "https://www.clarin.com/economia/caida" ]) as Hl
    by (vm_compute; reflexivity).
  assert ("https://www.clarin.com/politica/crisis-1"
          ∈ _extract_article_links (soup_hrefs "portada") "https://www.clarin.com")
    as Hin by (rewrite Hl; left).
  split; [exact Hl|]. split; [exact Hin|].
  exact (proj2 (article_links_wellformed (soup_hrefs "portada")
                  "https://www.clarin.com") _ Hin).
Defined.

Lemma scrape_clarin :
  scrape_news_portal CLARIN 30
  = inr [ {| id := "clarin_40"; titulo := "Crisis y #paro";
             contenido := "Los gremios anuncian un #paro"; tags := [];
             sentimiento := None; emociones := []; score_sentimiento := 0 |} ].
Proof. vm_compute. reflexivity. Qed.

(** Clarín in the sample web: of two links one article can be read. *)
Lemma scrape_news_portal_result_witness :
  scrape_news_portal AMBITO 30 = inl KeyError
  ∧ scrape_news_portal PERFIL 30 = inl KeyError
  ∧ scrape_news_portal CRONISTA 30 = inl KeyError
  ∧ ∃ arts,
      scrape_news_portal CLARIN 30 = inr arts
      ∧ length arts ≤ 30
      ∧ CLARIN ∈ [CLARIN; LA_NACION; PAGINA12; INFOBAE]
      ∧ Forall (λ a, sentimiento a = None ∧ tags a = [] ∧ emociones a = []
                     ∧ score_sentimiento a = 0%Q
                     ∧ String.prefix (FuenteNoticia_value CLARIN +:+ "_") (id a)
                       = true)
               arts.
Proof.
  destruct (scrape_news_portal_result CLARIN 30) as (Ha & Hp & Hc & Hres).
  split; [exact Ha|]. split; [exact Hp|]. split; [exact Hc|].
  eexists. split; [exact scrape_clarin|].
  exact (Hres _ scrape_clarin).
Defined.

(** The full analysis over the sample web: one article, one polarity. *)
Lemma run_full_analysis_report_witness :
  ∃ inf s',
    run_full_analysis ∅ = (inr inf, s')
    ∧ 1 ≤ length (inf_articulos inf) ≤ 120
    ∧ Forall (λ a, is_Some (sentimiento a)) (inf_articulos inf)
    ∧ (∃ p, polaridad_dominante (inf_analisis_colectivo inf) = Some p
            ∧ Some p ∈ map sentimiento (inf_articulos inf))
    ∧ length (inf_trending_topics inf) ≤ 20
    ∧ ∃ analizados,
        analizar_todos scrape_todos = inr analizados
        ∧ inf_trending_topics inf = tendencias analizados ∅
        ∧ s' = store_final analizados ∅.
Proof.
  destruct (run_full_analysis ∅) as [[e|inf] s'] eqn:E.
  { exfalso. vm_compute in E. discriminate. }
  exists inf, s'. split; [reflexivity|].
  exact (run_full_analysis_report ∅ inf s' E).
Defined.

End CrawlerWitnesses.

Section OfflineWitness.
Import AsciiRuntime Samples Muestras.
#[local] Existing Instance modelos.
#[local] Existing Instance web_caida.

(** With every portal down the full analysis raises. *)
Lemma run_full_analysis_nothing_scraped_witness :
  scrape_todos = []
  ∧ run_full_analysis con_otra = (inl IndexError, con_otra).
Proof.
  assert (scrape_todos = []) as Hnil by reflexivity.
  split; [exact Hnil|].
  exact (run_full_analysis_nothing_scraped con_otra Hnil).
Defined.

End OfflineWitness.

Section PipelineWitnesses.
Import AsciiRuntime Samples Muestras.
#[local] Existing Instance motores.

Lemma classify_topics_result_witness :
  Forall (λ ls, Qltb 0.3 ls.2 = true →
                ls.1 ∈ map ASR.TemasCriticos_value Nlp.temas_criticos)
         (zip (Nlp.classifier (ASR.str_take 1000 "la inflación")
                 (map ASR.TemasCriticos_value Nlp.temas_criticos)).1
              (Nlp.classifier (ASR.str_take 1000 "la inflación")
                 (map ASR.TemasCriticos_value Nlp.temas_criticos)).2)
  ∧ ∃ temas,
      Nlp._classify_topics "la inflación" = inr temas
      ∧ map ASR.TemasCriticos_value temas
        = map fst
            (filter (λ ls, Qltb 0.3 ls.2 = true)
               (zip (Nlp.classifier (ASR.str_take 1000 "la inflación")
                       (map ASR.TemasCriticos_value Nlp.temas_criticos)).1
                    (Nlp.classifier (ASR.str_take 1000 "la inflación")
                       (map ASR.TemasCriticos_value Nlp.temas_criticos)).2)).
Proof.
  assert (Forall (λ ls, Qltb 0.3 ls.2 = true →
                        ls.1 ∈ map ASR.TemasCriticos_value Nlp.temas_criticos)
                 (zip (Nlp.classifier (ASR.str_take 1000 "la inflación")
                         (map ASR.TemasCriticos_value Nlp.temas_criticos)).1
                      (Nlp.classifier (ASR.str_take 1000 "la inflación")
                         (map ASR.TemasCriticos_value Nlp.temas_criticos)).2)) as Hall.
  { cbn [Nlp.classifier motores fst snd zip zip_with].
    repeat constructor; intros _; simpl; set_solver. }
  split; [exact Hall|].
  exact (classify_topics_result "la inflación" Hall).
Defined.

(** The sample words: the stopword is dropped, the repeated word leads. *)
Lemma extract_keywords_result_witness :
  Nlp._extract_keywords "La inflación" = ["inflación"; "dólar"]
  ∧ "inflación" ∈ Nlp._extract_keywords "La inflación"
  ∧ "inflación" ∈ Nlp.findall_words (lower "La inflación")
  ∧ "inflación" ∉ Nlp.stopwords.
Proof.
  assert (Nlp._extract_keywords "La inflación" = ["inflación"; "dólar"]) as Hk
    by (vm_compute; reflexivity).
  assert ("inflación" ∈ Nlp._extract_keywords "La inflación") as Hin
    by (rewrite Hk; left).
  split; [exact Hk|]. split; [exact Hin|].
  exact (proj1 (proj2 (proj2 (extract_keywords_result "La inflación"))) _ Hin).
Defined.

(** The sample entities: two persons, the one named twice first. *)
Lemma extract_actors_muestra :
  map (λ a, (ASR.name a, ASR.mentions a)) (Nlp._extract_actors "texto")
  = [("Milei", 2%Z); ("Caputo", 1%Z)].
Proof. vm_compute. reflexivity. Qed.

(** The sample recording, stored in an empty index. *)
Lemma pinecone_store_lookup_witness :
  ∃ ix',
    ASR._store_pinecone grabacion ∅ = inr ix'
    ∧ (∃ md, ix' !! ASR.id (ASR.source grabacion) = Some (ASR.embeddings grabacion, md)
             ∧ ASR.md_transcription md = ASR.str_take 1000 (ASR.transcription grabacion)
             ∧ ASR.str_chars (ASR.md_transcription md)
               = Nat.min 1000 (ASR.str_chars (ASR.transcription grabacion))
             ∧ String.prefix (ASR.md_transcription md) (ASR.transcription grabacion) = true
             ∧ (ASR.str_chars (ASR.transcription grabacion) ≤ 1000 →
                ASR.md_transcription md = ASR.transcription grabacion)
             ∧ ASR.md_temas md = map ASR.TemasCriticos_value (ASR.temas grabacion))
    ∧ length (ASR.embeddings grabacion) = 384
    ∧ ∀ k, k ≠ ASR.id (ASR.source grabacion) → ix' !! k = (∅ : ASR.pinecone_index) !! k.
Proof.
  destruct (ASR._store_pinecone grabacion ∅) as [e|ix'] eqn:E.
  { exfalso. unfold ASR._store_pinecone, ASR.upsert in E.
    rewrite decide_True in E by (vm_compute; reflexivity). discriminate. }
  exists ix'. split; [reflexivity|].
  exact (pinecone_store_lookup grabacion ∅ ix' E).
Defined.

End PipelineWitnesses.
